(** * QuickButtons: action execution and live-status buttons

    A shallow embedding of the button-type handlers, the script output
    overlay and the handler factory of QuickButtons, with the properties
    of its specification stated and settled against the embedded code.

    Conventions.
    - A Python [str] is a [string] holding its UTF-8 bytes.
    - A Python [int] is a [Z]; a Python [float] is a primitive [float].
    - [btn.after(ms, f)] and [btn.after_cancel(h)] act on an explicit
      scheduler; a pending callback fires through an explicit event.
    - A closure's [state] dict is a record; the widget text it configures
      is a field of the enclosing world record. *)

From Stdlib Require Import ZArith Lia Bool Ascii String List Floats.
From stdpp Require Import base option list gmap strings pretty.

Local Open Scope string_scope.
Local Open Scope Z_scope.

(** ** Python text formatting *)

Module PyFormat.

(** [s.rjust(width, c)]: pad on the left up to [width] characters. *)
Definition rjust (width : nat) (c : ascii) (s : string) : string :=
  String.concat "" (replicate (width - String.length s)%nat (String c "")) +:+ s.

(** Format spec [0Nd] of an int: decimal digits, zero padded to [width],
    the sign counting in the width and staying in front. *)
Definition format_0d (width : nat) (n : Z) : string :=
  if n <? 0 then "-" +:+ rjust (width - 1) "0" (pretty (Z.abs n))
  else rjust width "0" (pretty n).

Definition hex_digit (d : Z) : ascii :=
  if d <? 10 then ascii_of_nat (Z.to_nat (48 + d))
  else ascii_of_nat (Z.to_nat (87 + d)).

(** Lower-case hexadecimal digits of a positive number, most significant
    first; the fuel bounds the number of digits. *)
Fixpoint hex_go (fuel : nat) (n : Z) (acc : string) : string :=
  match fuel with
  | O => acc
  | S k => if n <? 16 then String (hex_digit n) acc
           else hex_go k (n / 16) (String (hex_digit (n mod 16)) acc)
  end.

Definition hex (n : Z) : string := hex_go (S (Z.to_nat (Z.log2 n))) n "".

(** Format spec [02x] of an int. *)
Definition format_02x (n : Z) : string :=
  if n <? 0 then "-" +:+ rjust 1 "0" (hex (Z.abs n)) else rjust 2 "0" (hex n).

(** Nearest integer to [num / den] ([den > 0]), ties to the even one. *)
Definition round_half_even (num den : Z) : Z :=
  let q := num / den in
  let r := num mod den in
  if 2 * r <? den then q
  else if den <? 2 * r then q + 1
  else if Z.even q then q else q + 1.

(** The magnitude [m * 2^e] scaled by [10^prec], correctly rounded. *)
Definition scaled (prec : nat) (m : positive) (e : Z) : Z :=
  let p10 := 10 ^ Z.of_nat prec in
  if 0 <=? e then Z.pos m * 2 ^ e * p10
  else round_half_even (Z.pos m * p10) (2 ^ (- e)).

Definition fixed (prec : nat) (n : Z) : string :=
  let p10 := 10 ^ Z.of_nat prec in
  match prec with
  | O => pretty n
  | _ => pretty (n / p10) +:+ "." +:+ rjust prec "0" (pretty (n mod p10))
  end.

Definition sign (s : bool) : string := if s then "-" else "".

(** Format spec [.Nf] of a float: the exact binary value rounded once to
    [prec] decimals, as CPython's correctly rounded conversion does. *)
Definition format_f (prec : nat) (x : float) : string :=
  match Prim2SF x with
  | S754_nan => "nan"
  | S754_infinity s => sign s +:+ "inf"
  | S754_zero s => sign s +:+ fixed prec 0
  | S754_finite s m e => sign s +:+ fixed prec (scaled prec m e)
  end.

End PyFormat.

(** ** The translation lookup [app._]

    [TranslationManager.get_text] returns the catalog entry of the text in
    the current language and the text itself when there is none. *)

Definition get_text (catalog : gmap string string) (text : string) : string :=
  default text (catalog !! text).

(** ** The Tk scheduler: [after] and [after_cancel] *)

Section Scheduler.
Context {cb : Type}.

(** Pending callbacks by handle, each with the delay it was scheduled
    with (milliseconds). *)
Record sched := Sched { next_handle : nat; pending : gmap nat (Z * cb) }.

Definition no_jobs : sched := Sched 0 ∅.

Definition after (ms : Z) (f : cb) (s : sched) : nat * sched :=
  (next_handle s, Sched (S (next_handle s)) (<[next_handle s := (ms, f)]> (pending s))).

(** Canceling a handle that already fired or was canceled does nothing. *)
Definition after_cancel (h : nat) (s : sched) : sched :=
  Sched (next_handle s) (delete h (pending s)).

(** [if job: after_cancel(job)] *)
Definition cancel_if_set (job : option nat) (s : sched) : sched :=
  match job with Some h => after_cancel h s | None => s end.

(** The callback of a pending handle, taken off the queue to be run. *)
Definition due (h : nat) (s : sched) : option (cb * sched) :=
  match pending s !! h with
  | Some (_, f) => Some (f, after_cancel h s)
  | None => None
  end.
End Scheduler.
Arguments sched : clear implicits.

(** The newline character of f-strings such as [f"{host}\n{ping_str}"]. *)
Definition nl : string := String (ascii_of_nat 10) "".

(** ** Probe buttons: the pattern shared by the ping and HTTP test handlers

    [create_ping_button] and [create_http_test_button] build the same
    closures around a [state] dict: [update_label], [clear_results], the
    worker ([run_ping], [run_http_test]) and the click handler
    ([start_ping], [start_http_test]).  They differ in the blocking
    operation of the worker and in the text shown for a result. *)

Module Probe.
Section Probe.
Context {result outcome : Type}.

(** The [try]/[except] part of the worker: the value it stores in
    [state["results"]], from what the blocking calls did. *)
Variable body : outcome -> result.
(** The text [update_label] shows for a stored result; [None] when the
    formatting raises, which leaves the button text as it is. *)
Variable render : result -> option string.
(** [app._("Pinging...")], [app._("Testing...")] and the button's label. *)
Variables working_label orig_label : string.

Inductive callback := CbUpdateLabel | CbClearResults.

(** The [state] dict; its ["job"] entry is never written or read. *)
Record state := State {
  running : bool;
  results : option result;
  clear_job : option nat }.

(** Where a worker thread stands: in its [try] body, at the first
    statement of [finally], at the scheduler calls of [finally], gone. *)
Inductive pc := PcBody | PcFinally | PcPost | PcDone.

Record world := World {
  st : state;
  text : string;
  sch : sched callback;
  threads : list pc }.

Definition set_st (f : state -> state) (w : world) : world :=
  World (f (st w)) (text w) (sch w) (threads w).
Definition set_text (t : string) (w : world) : world :=
  World (st w) t (sch w) (threads w).
Definition set_sch (s : sched callback) (w : world) : world :=
  World (st w) (text w) s (threads w).
Definition set_threads (l : list pc) (w : world) : world :=
  World (st w) (text w) (sch w) l.

Definition set_running (b : bool) (s : state) : state :=
  State b (results s) (clear_job s).
Definition set_results (r : option result) (s : state) : state :=
  State (running s) r (clear_job s).
Definition set_clear_job (j : option nat) (s : state) : state :=
  State (running s) (results s) j.

Definition init : world :=
  World (State false None None) orig_label no_jobs [].

Definition update_label (w : world) : world :=
  if running (st w) then set_text working_label w
  else match results (st w) with
       | Some r => match render r with
                   | Some t => set_text t w
                   | None => w
                   end
       | None => set_text orig_label w
       end.

(** [if state["clear_job"]: btn.after_cancel(...); state["clear_job"] = None] *)
Definition drop_clear_job (w : world) : world :=
  match clear_job (st w) with
  | Some h => set_st (set_clear_job None) (set_sch (after_cancel h (sch w)) w)
  | None => w
  end.

Definition clear_results (w : world) : world :=
  update_label (drop_clear_job (set_st (set_results None) w)).

(** [start_ping] / [start_http_test]: the click handler. *)
Definition start (w : world) : world :=
  if running (st w) then w
  else
    let w1 := drop_clear_job w in
    let w2 := set_st (set_results None) (set_st (set_running true) w1) in
    let w3 := update_label w2 in
    set_threads (threads w3 ++ [PcBody]) w3.

(** One move of worker thread [i] of [run_ping] / [run_http_test]:
    - in the body, the blocking calls end as [o] says and the result is
    stored;
    - then [state["running"] = False];
    - then [btn.after(0, update_label)], the pending clear job is
    canceled if there is one, and a new one is scheduled at 60 s. *)
Definition worker_step (i : nat) (o : outcome) (w : world) : world :=
  match threads w !! i with
  | Some PcBody =>
      set_threads (<[i := PcFinally]> (threads w))
        (set_st (set_results (Some (body o))) w)
  | Some PcFinally =>
      set_threads (<[i := PcPost]> (threads w))
        (set_st (set_running false) w)
  | Some PcPost =>
      let s1 := (after 0 CbUpdateLabel (sch w)).2 in
      let s2 := cancel_if_set (clear_job (st w)) s1 in
      let '(h, s3) := after 60000 CbClearResults s2 in
      set_threads (<[i := PcDone]> (threads w))
        (set_st (set_clear_job (Some h)) (set_sch s3 w))
  | Some PcDone | None => w
  end.

Definition run_callback (f : callback) (w : world) : world :=
  match f with
  | CbUpdateLabel => update_label w
  | CbClearResults => clear_results w
  end.

(** What can happen to a probe button: a left click, a pending callback
    coming due, a worker thread moving on. *)
Inductive event :=
  | Click
  | Fire (h : nat)
  | Worker (i : nat) (o : outcome).

Definition step (w : world) (e : event) : world :=
  match e with
  | Click => start w
  | Fire h => match due h (sch w) with
              | Some (f, s) => run_callback f (set_sch s w)
              | None => w
              end
  | Worker i o => worker_step i o w
  end.

Definition run (w : world) (es : list event) : world := fold_left step es w.



End Probe.
End Probe.

(** ** The ping handler *)

Module Ping.

(** The tuple [(ping_time, success, host)] kept in [state["results"]]. *)
Record ping_result := PingResult {
  ping_time : option float;
  success : bool;
  host : string }.

(** How a [subprocess.run(["ping", ...])] call ends: it returns, with an
    exit code and the times in milliseconds that the parsing loop finds
    in its output; it raises [TimeoutExpired] or [FileNotFoundError];
    it raises something else. *)
Inductive run_result :=
| Returned (returncode : Z) (ping_times : list float)
| NotRunnable
| Crashed.

(** What the blocking calls of one [run_ping] do: the two [ping] runs
    and the socket connection of the fallback, which gives the elapsed
    milliseconds or raises. *)
Record ping_outcome := PingOutcome {
  first_run : run_result;
  second_run : run_result;
  connect : option float }.

Section Ping.
(** [cfg.get("ping_host", "8.8.8.8")], the label and the translation. *)
Variable ping_host : string.
Variable orig_label : string.
Variable tr : string -> string.

Definition failed : ping_result := PingResult None false ping_host.

(** [sum(ping_times) / len(ping_times)], added left to right as floats
    (CPython 3.12 and later compensate the rounding of the additions; a
    single reply averages to itself either way). *)
Definition average (ping_times : list float) : float :=
  PrimFloat.div (fold_left PrimFloat.add ping_times 0%float)
                (PrimFloat.of_uint63 (Uint63.of_Z (Z.of_nat (length ping_times)))).

Definition socket_ping (o : ping_outcome) : ping_result :=
  match connect o with
  | Some t => PingResult (Some t) true ping_host
  | None => failed
  end.

Definition run_ping_body (o : ping_outcome) : ping_result :=
  match first_run o with
  | Returned rc _ =>
      if rc =? 0 then
        match second_run o with
        | Returned rc2 ping_times =>
            if rc2 =? 0 then
              match ping_times with
              | [] => failed
              | _ => PingResult (Some (average ping_times)) true ping_host
              end
            else failed
        | NotRunnable => socket_ping o
        | Crashed => failed
        end
      else failed
  | NotRunnable => socket_ping o
  | Crashed => failed
  end.

(** The result branch of [update_label]. *)
Definition render (r : ping_result) : option string :=
  if success r then
    match ping_time r with
    | Some t =>
        let ping_str :=
          if PrimFloat.ltb t 1%float then PyFormat.format_f 0 t +:+ "ms"
          else PyFormat.format_f 1 t +:+ "ms" in
        Some (host r +:+ nl +:+ ping_str)
    | None => None
    end
  else Some (host r +:+ nl +:+ tr "Failed").

Definition init := Probe.init (result := ping_result) orig_label.
Definition update_label := Probe.update_label render (tr "Pinging...") orig_label.
Definition clear_results := Probe.clear_results render (tr "Pinging...") orig_label.
Definition start_ping := Probe.start render (tr "Pinging...") orig_label.
Definition step := Probe.step run_ping_body render (tr "Pinging...") orig_label.
Definition run := Probe.run run_ping_body render (tr "Pinging...") orig_label.
End Ping.

End Ping.

(** ** The HTTP test handler *)

Module HttpTest.

(** The tuple [(status, response_time, https_status, cert_valid)]. *)
Record http_result := HttpResult {
  status : string;
  response_time : float;
  https_status : string;
  cert_valid : bool }.

(** How a [requests.get] call ends: it returns a response, and the
    seconds since [start_time] are read; it raises [SSLError]; it raises
    another [RequestException]; it raises something else. *)
Inductive get_result :=
| Response (status_code : Z) (elapsed : float)
| SSLError
| RequestException
| OtherException.

(** The requests one [run_http_test] can make: HTTPS with certificate
    validation, HTTPS without it, plain HTTP. *)
Record http_outcome := HttpOutcome {
  https_verified : get_result;
  https_unverified : get_result;
  plain_http : get_result }.

(** [test_url.split('/')[0]] *)
Fixpoint before_slash (s : string) : string :=
  match s with
  | EmptyString => EmptyString
  | String c s' => if Ascii.eqb c "/" then EmptyString else String c (before_slash s')
  end.

Section HttpTest.
(** [cfg.get("test_url", "https://google.com")], the label, the
    translation, and [urllib.parse.urlparse] as the pair of the
    [netloc] and [path] it finds, [None] when it raises. *)
Variable test_url : string.
Variable orig_label : string.
Variable tr : string -> string.
Variable urlparse : string -> option (string * string).

Definition graded (status_code : Z) (elapsed : float)
    (https_status : string) (cert_valid : bool) : http_result :=
  if status_code <? 400 then HttpResult "success" elapsed https_status cert_valid
  else HttpResult "failed" elapsed https_status cert_valid.

(** The plain HTTP attempt both fallbacks end with. *)
Definition try_plain_http (o : http_outcome) : http_result :=
  match plain_http o with
  | Response sc t => graded sc t "http" false
  | _ => HttpResult "failed" 0%float "http" false
  end.

Definition run_http_test_body (o : http_outcome) : http_result :=
  match https_verified o with
  | Response sc t => graded sc t "https" true
  | SSLError =>
      match https_unverified o with
      | Response sc t => graded sc t "https" false
      | _ => try_plain_http o
      end
  | RequestException => try_plain_http o
  | OtherException => HttpResult "failed" 0%float "unknown" false
  end.

Definition domain : string :=
  match urlparse test_url with
  | Some (netloc, path) =>
      if String.eqb netloc "" then before_slash path else netloc
  | None => test_url
  end.

(** The result branch of [update_label]. *)
Definition render (r : http_result) : option string :=
  if String.eqb (status r) "success" then
    let time_str :=
      if PrimFloat.ltb (response_time r) 1%float
      then PyFormat.format_f 0 (PrimFloat.mul (response_time r) 1000%float) +:+ "ms"
      else PyFormat.format_f 1 (response_time r) +:+ "s" in
    let lock_icon :=
      if String.eqb (https_status r) "https"
      then (if cert_valid r then "🔒" else "🔓")
      else "🌐" in
    Some (lock_icon +:+ " " +:+ domain +:+ nl +:+ time_str)
  else Some ("❌ " +:+ tr "Failed").

Definition init := Probe.init (result := http_result) orig_label.
Definition update_label := Probe.update_label render (tr "Testing...") orig_label.
Definition clear_results := Probe.clear_results render (tr "Testing...") orig_label.
Definition start_http_test := Probe.start render (tr "Testing...") orig_label.
Definition run_http_test := Probe.worker_step run_http_test_body.
Definition step := Probe.step run_http_test_body render (tr "Testing...") orig_label.
Definition run := Probe.run run_http_test_body render (tr "Testing...") orig_label.
End HttpTest.

End HttpTest.

(** ** Python string methods used by the handlers *)

Module PyStr.

(** The characters for which [str.isspace] holds, as UTF-8 byte
    sequences: U+0009..000D, U+001C..0020, U+0085, U+00A0, U+1680,
    U+2000..200A, U+2028, U+2029, U+202F, U+205F, U+3000. *)
Definition whitespace : list (list nat) :=
  [ [9]; [10]; [11]; [12]; [13]; [28]; [29]; [30]; [31]; [32];
    [194; 133]; [194; 160]; [225; 154; 128];
    [226; 128; 128]; [226; 128; 129]; [226; 128; 130]; [226; 128; 131];
    [226; 128; 132]; [226; 128; 133]; [226; 128; 134]; [226; 128; 135];
    [226; 128; 136]; [226; 128; 137]; [226; 128; 138];
    [226; 128; 168]; [226; 128; 169]; [226; 128; 175];
    [226; 129; 159]; [227; 128; 128] ]%nat.

Definition bytes (s : string) : list nat := map nat_of_ascii (list_ascii_of_string s).
Definition of_bytes (l : list nat) : string := string_of_list_ascii (map ascii_of_nat l).

Fixpoint starts_with (p l : list nat) : bool :=
  match p, l with
  | [], _ => true
  | a :: p', b :: l' => Nat.eqb a b && starts_with p' l'
  | _ :: _, [] => false
  end.

(** Drop leading characters as long as one of [seps] starts the text. *)
Fixpoint lstrip_go (fuel : nat) (seps : list (list nat)) (l : list nat) : list nat :=
  match fuel with
  | O => l
  | S k =>
      match List.find (λ p, starts_with p l) seps with
      | Some p => lstrip_go k seps (drop (length p) l)
      | None => l
      end
  end.

Definition lstrip_bytes (l : list nat) : list nat := lstrip_go (length l) whitespace l.
Definition rstrip_bytes (l : list nat) : list nat :=
  rev (lstrip_go (length l) (map (@rev nat) whitespace) (rev l)).

(** [s.strip()] *)
Definition strip (s : string) : string := of_bytes (rstrip_bytes (lstrip_bytes (bytes s))).

(** [s.endswith((c1, c2, ...))] for one-character suffixes. *)
Definition endswith_any (cs : list ascii) (s : string) : bool :=
  match last (list_ascii_of_string s) with
  | Some c => existsb (Ascii.eqb c) cs
  | None => false
  end.

(** [needle in hay] *)
Fixpoint contains (needle hay : string) : bool :=
  String.prefix needle hay ||
  match hay with
  | EmptyString => false
  | String _ hay' => contains needle hay'
  end.

(** [s.replace(old, new)] for a non-empty [old]: occurrences are
    replaced left to right without overlap; [skip] counts the characters
    of a replaced occurrence still to pass over. *)
Fixpoint replace_go (old new : string) (skip : nat) (s : string) : string :=
  match s with
  | EmptyString => EmptyString
  | String c s' =>
      match skip with
      | S k => replace_go old new k s'
      | O => if String.prefix old s
             then new +:+ replace_go old new (String.length old - 1) s'
             else String c (replace_go old new 0 s')
      end
  end.

Definition replace (old new s : string) : string := replace_go old new 0 s.

(** [s[i:j]] for [0 <= i <= j]. *)
Definition slice (i j : nat) (s : string) : string :=
  string_of_list_ascii (take (j - i) (drop i (list_ascii_of_string s))).

Definition hex_value (c : ascii) : option Z :=
  let n := Z.of_nat (nat_of_ascii c) in
  if (48 <=? n) && (n <=? 57) then Some (n - 48)
  else if (97 <=? n) && (n <=? 102) then Some (n - 87)
  else if (65 <=? n) && (n <=? 70) then Some (n - 55)
  else None.

Fixpoint hex_digits (acc : Z) (l : list ascii) : option Z :=
  match l with
  | [] => Some acc
  | c :: l' => match hex_value c with
               | Some d => hex_digits (16 * acc + d) l'
               | None => None
               end
  end.

(** [int(s, 16)] on a text of at most two characters, where neither a
    [0x] prefix nor an underscore can be part of a valid literal:
    surrounding whitespace is dropped, a sign is allowed, at least one
    hexadecimal digit must follow.  [None] is [ValueError]. *)
Definition int16 (s : string) : option Z :=
  match list_ascii_of_string (strip s) with
  | [] => None
  | c :: l =>
      if Ascii.eqb c "-" then
        match l with [] => None | _ => Z.opp <$> hex_digits 0 l end
      else if Ascii.eqb c "+" then
        match l with [] => None | _ => hex_digits 0 l end
      else hex_digits 0 (c :: l)
  end.

End PyStr.

(** ** The color picker handler *)

Module ColorPicker.

(** How the Pillow attempt of [get_pixel_color] ends: [getpixel] gives a
    tuple of ints, the import fails, or anything else raises. *)
Inductive pil_result :=
| PilPixel (pixel : list Z)
| PilImportError
| PilError.

Inductive platform := Windows | Darwin | Linux.

(** What the screen sampling meets: the Pillow attempt,
    [platform.system()], the raw [GetPixel] value when the win32 calls
    work, and whether the [screencapture] / [xwd] command succeeds. *)
Record screen_env := ScreenEnv {
  pil : pil_result;
  system : platform;
  win_pixel : option Z;
  capture_ok : bool }.

(** Which clipboard method works: the Tk one, the system command of the
    fallback, or none. *)
Inductive clip_result := ClipTk | ClipSystem | ClipNone.

Definition rgb_hex (r g b : Z) : string :=
  PyFormat.format_02x r +:+ PyFormat.format_02x g +:+ PyFormat.format_02x b.

Definition get_pixel_color_windows (e : screen_env) : option string :=
  match win_pixel e with
  | Some color =>
      let r := Z.land color 255 in
      let g := Z.land (Z.shiftr color 8) 255 in
      let b := Z.land (Z.shiftr color 16) 255 in
      Some (rgb_hex r g b)
  | None => None
  end.

Definition get_pixel_color_macos (e : screen_env) : option string :=
  if capture_ok e then Some "000000" else None.

Definition get_pixel_color_linux (e : screen_env) : option string :=
  if capture_ok e then Some "000000" else None.

(** A Python [str] or [None] tested as a condition. *)
Definition truthy (c : option string) : bool :=
  match c with
  | Some s => negb (String.eqb s "")
  | None => false
  end.

Definition platform_fallback (e : screen_env) : option string :=
  match system e with
  | Windows => get_pixel_color_windows e
  | Darwin => get_pixel_color_macos e
  | Linux => get_pixel_color_linux e
  end.

Definition get_pixel_color (e : screen_env) : option string :=
  let fallback :=
    if truthy (platform_fallback e) then platform_fallback e
    else Some "ff0000" in
  match pil e with
  | PilPixel (r :: g :: b :: _) => Some (rgb_hex r g b)
  | PilPixel _ | PilImportError | PilError => fallback
  end.

Inductive callback :=
| CbPickColorFromScreen
| CbUpdateLabel
| CbClearColor
| CbShowPickFailed
| CbAutoCancel.

Record state := State {
  picking : bool;
  color : option string;
  clear_job : option nat }.

(** The button's text and background, the scheduler, the last text the
    handler put on the clipboard, whether the application window is
    minimised, and the handle of the overlay's auto-cancel timer while
    the picker overlay exists. *)
Record world := World {
  st : state;
  text : string;
  bg : string;
  sch : sched callback;
  clipboard : option string;
  iconified : bool;
  picker_window : option nat }.

Definition set_st (f : state -> state) (w : world) : world :=
  World (f (st w)) (text w) (bg w) (sch w) (clipboard w) (iconified w) (picker_window w).
Definition set_text (t : string) (w : world) : world :=
  World (st w) t (bg w) (sch w) (clipboard w) (iconified w) (picker_window w).
Definition set_bg (c : string) (w : world) : world :=
  World (st w) (text w) c (sch w) (clipboard w) (iconified w) (picker_window w).
Definition set_sch (s : sched callback) (w : world) : world :=
  World (st w) (text w) (bg w) s (clipboard w) (iconified w) (picker_window w).
Definition set_clipboard (c : option string) (w : world) : world :=
  World (st w) (text w) (bg w) (sch w) c (iconified w) (picker_window w).
Definition set_iconified (b : bool) (w : world) : world :=
  World (st w) (text w) (bg w) (sch w) (clipboard w) b (picker_window w).
Definition set_picker_window (p : option nat) (w : world) : world :=
  World (st w) (text w) (bg w) (sch w) (clipboard w) (iconified w) p.

Definition set_picking (b : bool) (s : state) : state := State b (color s) (clear_job s).
Definition set_color (c : option string) (s : state) : state := State (picking s) c (clear_job s).
Definition set_clear_job (j : option nat) (s : state) : state := State (picking s) (color s) j.

(** [w.after(ms, f)] without keeping the handle. *)
Definition post (ms : Z) (f : callback) (w : world) : world :=
  set_sch (after ms f (sch w)).2 w.

Section ColorPicker.
Variable orig_label : string.
Variable bg_color : string.
Variable tr : string -> string.

Definition init : world :=
  World (State false None None) orig_label bg_color no_jobs None false None.

(** The background [update_label] derives from the picked color; the
    [try] keeps the old one when a slice is no hexadecimal number or
    Tk rejects the color (a negative component prints a sign). *)
Definition preview_bg (hex_color : string) (old : string) : string :=
  match PyStr.int16 (PyStr.slice 0 2 hex_color),
        PyStr.int16 (PyStr.slice 2 4 hex_color),
        PyStr.int16 (PyStr.slice 4 6 hex_color) with
  | Some r, Some g, Some b =>
      if (0 <=? r) && (0 <=? g) && (0 <=? b) then "#" +:+ rgb_hex r g b else old
  | _, _, _ => old
  end.

Definition update_label (w : world) : world :=
  if picking (st w) then set_text (tr "Click on screen...") w
  else if truthy (color (st w)) then
    let hex_color := default "" (color (st w)) in
    set_bg (preview_bg hex_color (bg w))
      (set_text ("#" +:+ hex_color +:+ nl +:+ tr "Copied!") w)
  else set_bg bg_color (set_text orig_label w).

Definition clear_color (w : world) : world :=
  let w1 := set_st (set_color None) w in
  let w2 := match clear_job (st w1) with
            | Some h => set_st (set_clear_job None) (set_sch (after_cancel h (sch w1)) w1)
            | None => w1
            end in
  update_label w2.

Definition copy_to_clipboard (how : clip_result) (text : string) (w : world) : world :=
  match how with
  | ClipTk | ClipSystem => set_clipboard (Some ("#" +:+ text)) w
  | ClipNone => w
  end.

Definition start_color_picking (w : world) : world :=
  if picking (st w) then w
  else
    let w1 := update_label (set_st (set_picking true) w) in
    post 1000 CbPickColorFromScreen (set_iconified true w1).

(** The overlay is created and its 30 s auto-cancel is scheduled. *)
Definition pick_color_from_screen (w : world) : world :=
  let '(h, s) := after 30000 CbAutoCancel (sch w) in
  set_picker_window (Some h) (set_sch s w).

(** [picker_window.destroy()]: the overlay goes, and with it the
    callback it had scheduled on itself. *)
Definition destroy_picker (w : world) : world :=
  set_picker_window None (set_sch (cancel_if_set (picker_window w) (sch w)) w).

Definition on_click (e : screen_env) (how : clip_result) (w : world) : world :=
  let color := get_pixel_color e in
  let w1 := set_iconified false (destroy_picker (set_st (set_picking false) w)) in
  if truthy color then
    let w2 := set_st (set_color color) w1 in
    let w3 := copy_to_clipboard how (default "" color) w2 in
    let w4 := post 0 CbUpdateLabel w3 in
    let s5 := cancel_if_set (clear_job (st w4)) (sch w4) in
    let '(h, s6) := after 30000 CbClearColor s5 in
    set_st (set_clear_job (Some h)) (set_sch s6 w4)
  else
    post 2000 CbUpdateLabel (post 0 CbShowPickFailed w1).

Definition on_escape (w : world) : world :=
  post 0 CbUpdateLabel
    (set_iconified false (destroy_picker (set_st (set_picking false) w))).

Definition run_callback (f : callback) (w : world) : world :=
  match f with
  | CbPickColorFromScreen => pick_color_from_screen w
  | CbUpdateLabel => update_label w
  | CbClearColor => clear_color w
  | CbShowPickFailed => set_text (tr "Pick failed") w
  | CbAutoCancel => on_escape w
  end.

(** A click on the button, a click or a key press on the overlay while
    it exists, a pending callback coming due. *)
Inductive event :=
| Click
| PickerClick (e : screen_env) (how : clip_result)
| PickerKey
| Fire (h : nat).

Definition step (w : world) (ev : event) : world :=
  match ev with
  | Click => start_color_picking w
  | PickerClick e how =>
      match picker_window w with Some _ => on_click e how w | None => w end
  | PickerKey =>
      match picker_window w with Some _ => on_escape w | None => w end
  | Fire h =>
      match due h (sch w) with
      | Some (f, s) => run_callback f (set_sch s w)
      | None => w
      end
  end.

Definition run (w : world) (es : list event) : world := fold_left step es w.
End ColorPicker.

End ColorPicker.

(** ** The script process behind an output overlay *)

(** The [subprocess.Popen] object as the overlay sees it: whether
    [poll()] is still [None], what has been written to its stdin, and
    whether a write to stdin succeeds. *)
Record process := Process {
  alive : bool;
  stdin : string;
  stdin_open : bool }.

(** [proc.stdin.write(data); proc.stdin.flush()] inside its [try]: a
    failing write is logged (or passed over) and changes nothing. *)
Definition stdin_write (data : string) (p : process) : process :=
  if stdin_open p then Process (alive p) (stdin p +:+ data) (stdin_open p) else p.

(** [proc.terminate()], the wait and the [kill()] that may follow. *)
Definition stop_process (p : process) : process :=
  Process false (stdin p) (stdin_open p).

(** ** The output overlay of [src/ui/dialogs/output_overlay.py] *)

Module OutputOverlay.

Inductive callback :=
| CbAppendOutput (line : string)
| CbFinalizeOutput (output_received error_occurred : bool)
| CbClose.

(** The overlay: the text widget, the window title, the input entry and
    its variable, the flags of [__init__], the process, the scheduler,
    the [output_received] local of the reader thread while it runs,
    whether the window is withdrawn, and the error boxes shown. *)
Record world := World {
  text : string;
  title : string;
  input_enabled : bool;
  input_var : string;
  waiting_for_input : bool;
  error_occurred_ : bool;
  user_closed : bool;
  proc : option process;
  sch : sched callback;
  reader : option bool;
  withdrawn : bool;
  alerts : list string }.

Definition set_text (x : string) (w : world) : world :=
  World x (title w) (input_enabled w) (input_var w) (waiting_for_input w)
    (error_occurred_ w) (user_closed w) (proc w) (sch w) (reader w) (withdrawn w) (alerts w).
Definition set_title (x : string) (w : world) : world :=
  World (text w) x (input_enabled w) (input_var w) (waiting_for_input w)
    (error_occurred_ w) (user_closed w) (proc w) (sch w) (reader w) (withdrawn w) (alerts w).
Definition set_input_enabled (x : bool) (w : world) : world :=
  World (text w) (title w) x (input_var w) (waiting_for_input w)
    (error_occurred_ w) (user_closed w) (proc w) (sch w) (reader w) (withdrawn w) (alerts w).
Definition set_input_var (x : string) (w : world) : world :=
  World (text w) (title w) (input_enabled w) x (waiting_for_input w)
    (error_occurred_ w) (user_closed w) (proc w) (sch w) (reader w) (withdrawn w) (alerts w).
Definition set_waiting_for_input (x : bool) (w : world) : world :=
  World (text w) (title w) (input_enabled w) (input_var w) x
    (error_occurred_ w) (user_closed w) (proc w) (sch w) (reader w) (withdrawn w) (alerts w).
Definition set_error_occurred_ (x : bool) (w : world) : world :=
  World (text w) (title w) (input_enabled w) (input_var w) (waiting_for_input w)
    x (user_closed w) (proc w) (sch w) (reader w) (withdrawn w) (alerts w).
Definition set_user_closed (x : bool) (w : world) : world :=
  World (text w) (title w) (input_enabled w) (input_var w) (waiting_for_input w)
    (error_occurred_ w) x (proc w) (sch w) (reader w) (withdrawn w) (alerts w).
Definition set_proc (x : option process) (w : world) : world :=
  World (text w) (title w) (input_enabled w) (input_var w) (waiting_for_input w)
    (error_occurred_ w) (user_closed w) x (sch w) (reader w) (withdrawn w) (alerts w).
Definition set_sch (x : sched callback) (w : world) : world :=
  World (text w) (title w) (input_enabled w) (input_var w) (waiting_for_input w)
    (error_occurred_ w) (user_closed w) (proc w) x (reader w) (withdrawn w) (alerts w).
Definition set_reader (x : option bool) (w : world) : world :=
  World (text w) (title w) (input_enabled w) (input_var w) (waiting_for_input w)
    (error_occurred_ w) (user_closed w) (proc w) (sch w) x (withdrawn w) (alerts w).
Definition set_withdrawn (x : bool) (w : world) : world :=
  World (text w) (title w) (input_enabled w) (input_var w) (waiting_for_input w)
    (error_occurred_ w) (user_closed w) (proc w) (sch w) (reader w) x (alerts w).
Definition set_alerts (x : list string) (w : world) : world :=
  World (text w) (title w) (input_enabled w) (input_var w) (waiting_for_input w)
    (error_occurred_ w) (user_closed w) (proc w) (sch w) (reader w) (withdrawn w) x.

Definition post (ms : Z) (f : callback) (w : world) : world :=
  set_sch (after ms f (sch w)).2 w.

(** The title mark of a failed run. *)
Definition error_mark : string := " - ERROR".

(** How launching the script ends in [run_script]. *)
Inductive launch :=
| ScriptMissing
| NoPythonExecutable
| PythonMissing (python_exe : string)
| SpawnError (e : string)
| Started.

(** The exit codes [read_output] takes for a termination by the user. *)
Definition termination_codes : list Z := [-1; 1; 2; 3; 15].

(** The [error_occurred] local of [read_output] once the process has
    exited with [exit_code]. *)
Definition exit_is_error (user_closed : bool) (exit_code : Z) : bool :=
  if negb (exit_code =? 0) then
    if user_closed then false
    else if existsb (Z.eqb exit_code) termination_codes then false
    else true
  else false.

Section OutputOverlay.
Variable tr : string -> string.
Variable script_path : string.
Variable btn_label : option string.

Definition init : world :=
  let title0 := tr "Script Output" in
  World "" (match btn_label with
            | Some l => if String.eqb l "" then title0 else title0 +:+ " - " +:+ l
            | None => title0
            end)
        true (tr "Type your input here...") false false false None no_jobs None false [].

(** The error path shared by the launch checks and the reader. *)
Definition show_failure (error_msg : string) (w : world) : world :=
  let w1 := set_text (text w +:+ tr "Error:" +:+ " " +:+ error_msg +:+ nl) w in
  let w2 := set_error_occurred_ true (set_input_enabled false w1) in
  set_alerts (alerts w2 ++ [error_msg]) (set_title (title w2 +:+ error_mark) w2).

Definition run_script (l : launch) (w : world) : world :=
  let w0 := set_text ("Running..." +:+ nl) w in
  match l with
  | ScriptMissing => show_failure ("Script file not found: " +:+ script_path) w0
  | NoPythonExecutable =>
      show_failure (tr "No Python executable found. Please configure Python in settings.") w0
  | PythonMissing python_exe =>
      show_failure ("Python executable not found: " +:+ python_exe) w0
  | SpawnError e => show_failure ("Failed to start script: " +:+ e) w0
  | Started =>
      set_reader (Some false)
        (set_waiting_for_input false (set_proc (Some (Process true "" true)) w0))
  end.

(** The reader thread got a line from [readline]. *)
Definition read_output_line (line : string) (w : world) : world :=
  match reader w with
  | Some _ => post 0 (CbAppendOutput line) (set_reader (Some true) w)
  | None => w
  end.

(** The reader thread met the end of the output and [proc.wait()]
    returned [exit_code]. *)
Definition read_output_exit (exit_code : Z) (w : world) : world :=
  match reader w with
  | Some output_received =>
      let w1 := set_proc (stop_process <$> proc w) (set_reader None w) in
      let error_occurred := exit_is_error (user_closed w1) exit_code in
      let w2 :=
        if error_occurred then
          post 0 (CbAppendOutput (nl +:+ tr "Script failed with exit code:" +:+ " "
                                    +:+ pretty exit_code +:+ nl)) w1
        else w1 in
      post 0 (CbFinalizeOutput output_received error_occurred) w2
  | None => w
  end.

(** The reading loop raised [e]. *)
Definition read_output_error (e : string) (w : world) : world :=
  match reader w with
  | Some _ =>
      let error_msg := "Error reading script output: " +:+ e in
      let w1 := post 0 (CbAppendOutput (nl +:+ tr "Error:" +:+ " " +:+ error_msg +:+ nl))
                  (set_reader None w) in
      let w2 := set_error_occurred_ true (set_input_enabled false w1) in
      set_alerts (alerts w2 ++ [error_msg]) (set_title (title w2 +:+ error_mark) w2)
  | None => w
  end.

Definition _append_output (line : string) (w : world) : world :=
  set_text (text w +:+ line) w.

Definition close (w : world) : world :=
  let w1 := set_user_closed true w in
  let w2 := match proc w1 with
            | Some p => if alive p then set_proc (Some (stop_process p)) w1 else w1
            | None => w1
            end in
  set_withdrawn true w2.

Definition _finalize_output (output_received error_occurred : bool) (w : world) : world :=
  let w1 := set_input_enabled false w in
  let w2 := if output_received then w1
            else set_text (text w1 +:+ tr ("(No output generated)" +:+ nl)) w1 in
  if error_occurred || error_occurred_ w2 then
    if PyStr.contains error_mark (title w2) then w2
    else set_title (title w2 +:+ error_mark) w2
  else
    let w3 := if PyStr.contains error_mark (title w2)
              then set_title (PyStr.replace error_mark "" (title w2)) w2
              else w2 in
    post 2000 CbClose w3.

Definition send_input (w : world) : world :=
  match proc w with
  | Some p =>
      if alive p then
        let user_input := input_var w +:+ nl in
        set_input_var "" (set_proc (Some (stdin_write user_input p)) w)
      else w
  | None => w
  end.

Definition run_callback (f : callback) (w : world) : world :=
  match f with
  | CbAppendOutput line => _append_output line w
  | CbFinalizeOutput o e => _finalize_output o e w
  | CbClose => close w
  end.

(** The reader thread's moves, a pending callback coming due, the user
    editing the entry until it holds a text, the Return key in the
    entry, and the window's close button. *)
Inductive event :=
| ReaderLine (line : string)
| ReaderExit (exit_code : Z)
| ReaderError (e : string)
| Fire (h : nat)
| TypeInput (s : string)
| Return
| CloseWindow.

Definition step (w : world) (ev : event) : world :=
  match ev with
  | ReaderLine line => read_output_line line w
  | ReaderExit exit_code => read_output_exit exit_code w
  | ReaderError e => read_output_error e w
  | Fire h =>
      match due h (sch w) with
      | Some (f, s) => run_callback f (set_sch s w)
      | None => w
      end
  | TypeInput s => if input_enabled w then set_input_var s w else w
  | Return => send_input w
  | CloseWindow => close w
  end.

Definition run (w : world) (es : list event) : world := fold_left step es w.
End OutputOverlay.

End OutputOverlay.

(** ** The output overlay of the single-file [quickbuttons.py] *)

Module LegacyOutputOverlay.

Inductive callback := CbClose.

(** The text widget, the entry's variable, whether the entry is packed
    (shown), the flag, the process, the scheduler, whether the reader
    thread runs, whether the window is withdrawn. *)
Record world := World {
  text : string;
  input_var : string;
  entry_packed : bool;
  waiting_for_input : bool;
  proc : option process;
  sch : sched callback;
  reading : bool;
  withdrawn : bool }.

Definition init : world := World "" "" false false None no_jobs false false.

(** [Popen] raises [e], or the process starts. *)
Definition run_script (spawn : option string) (w : world) : world :=
  match spawn with
  | Some e =>
      World ("Error: " +:+ e +:+ nl) (input_var w) (entry_packed w) (waiting_for_input w)
            None (sch w) (reading w) (withdrawn w)
  | None =>
      World "" (input_var w) (entry_packed w) false
            (Some (Process true "" true)) (sch w) true false
  end.

(** [line.strip().endswith((':', '?'))] *)
Definition looks_like_prompt (line : string) : bool :=
  PyStr.endswith_any [":"%char; "?"%char] (PyStr.strip line).

(** One turn of the loop of [read_output]. *)
Definition read_output_line (line : string) (w : world) : world :=
  if reading w then
    if looks_like_prompt line then
      World (text w +:+ line) (input_var w) true true
            (proc w) (sch w) (reading w) (withdrawn w)
    else
      World (text w +:+ line) (input_var w) (entry_packed w) (waiting_for_input w)
            (proc w) (sch w) (reading w) (withdrawn w)
  else w.

(** After the loop: the process is waited for, the entry is hidden and
    the window is closed half a second later. *)
Definition read_output_end (w : world) : world :=
  if reading w then
    World (text w) (input_var w) false false
          (stop_process <$> proc w) (after 500 CbClose (sch w)).2 false (withdrawn w)
  else w.

Definition send_input (w : world) : world :=
  match proc w with
  | Some p =>
      if waiting_for_input w then
        let user_input := input_var w +:+ nl in
        World (text w) "" false false
              (Some (stdin_write user_input p)) (sch w) (reading w) (withdrawn w)
      else w
  | None => w
  end.

Definition close (w : world) : world :=
  World (text w) (input_var w) (entry_packed w) (waiting_for_input w)
        (match proc w with
         | Some p => if alive p then Some (stop_process p) else Some p
         | None => None
         end)
        (sch w) (reading w) true.

Inductive event :=
| ReaderLine (line : string)
| ReaderEnd
| Fire (h : nat)
| TypeInput (s : string)
| Return
| CloseWindow.

Definition step (w : world) (ev : event) : world :=
  match ev with
  | ReaderLine line => read_output_line line w
  | ReaderEnd => read_output_end w
  | Fire h =>
      match due h (sch w) with
      | Some (CbClose, s) =>
          close (World (text w) (input_var w) (entry_packed w) (waiting_for_input w)
                       (proc w) s (reading w) (withdrawn w))
      | None => w
      end
  | TypeInput s =>
      if entry_packed w
      then World (text w) s (entry_packed w) (waiting_for_input w)
                 (proc w) (sch w) (reading w) (withdrawn w)
      else w
  | Return => if entry_packed w then send_input w else w
  | CloseWindow => close w
  end.

Definition run (w : world) (es : list event) : world := fold_left step es w.

End LegacyOutputOverlay.

(** ** The countdown timer of [TimerManager.create_timer_button] *)

Module Timer.

Inductive callback := CbTick.

(** The [state] dict; its ["start_time"] entry is never used. *)
Record state := State {
  running : bool;
  paused : bool;
  remaining : Z;
  job : option nat }.

(** The button text, the scheduler, how often the completion sound was
    played and how often the edit dialog was opened. *)
Record world := World {
  st : state;
  text : string;
  sch : sched callback;
  notifications : nat;
  edit_dialogs : nat }.

Definition set_st (f : state -> state) (w : world) : world :=
  World (f (st w)) (text w) (sch w) (notifications w) (edit_dialogs w).
Definition set_text (t : string) (w : world) : world :=
  World (st w) t (sch w) (notifications w) (edit_dialogs w).
Definition set_sch (s : sched callback) (w : world) : world :=
  World (st w) (text w) s (notifications w) (edit_dialogs w).

Definition set_running (b : bool) (s : state) : state := State b (paused s) (remaining s) (job s).
Definition set_paused (b : bool) (s : state) : state := State (running s) b (remaining s) (job s).
Definition set_remaining (n : Z) (s : state) : state := State (running s) (paused s) n (job s).
Definition set_job (j : option nat) (s : state) : state := State (running s) (paused s) (remaining s) j.

Section Timer.
(** The seconds parsed from [cfg["timer_duration"]] and the label. *)
Variable total_seconds : Z.
Variable orig_label : string.

Definition init : world :=
  World (State false false total_seconds None) orig_label no_jobs 0 0.

Definition update_label (w : world) : world :=
  if running (st w) then
    let mins := remaining (st w) / 60 in
    let secs := remaining (st w) mod 60 in
    let hours := mins / 60 in
    let mins := mins mod 60 in
    set_text (pretty hours +:+ ":" +:+ PyFormat.format_0d 2 mins +:+ ":"
                +:+ PyFormat.format_0d 2 secs) w
  else set_text orig_label w.

Definition tick (w : world) : world :=
  if negb (running (st w)) || paused (st w) then w
  else if 0 <? remaining (st w) then
    let w1 := update_label (set_st (set_remaining (remaining (st w) - 1)) w) in
    let '(h, s) := after 1000 CbTick (sch w1) in
    set_st (set_job (Some h)) (set_sch s w1)
  else
    let w1 := update_label (set_st (set_running false) w) in
    World (st w1) (text w1) (sch w1) (S (notifications w1)) (edit_dialogs w1).

Definition start_timer (w : world) : world :=
  if running (st w) then w
  else
    tick (update_label
            (set_st (set_remaining total_seconds)
               (set_st (set_paused false) (set_st (set_running true) w)))).

(** [if state["job"]: btn.after_cancel(state["job"]); state["job"] = None] *)
Definition drop_job (w : world) : world :=
  match job (st w) with
  | Some h => set_st (set_job None) (set_sch (after_cancel h (sch w)) w)
  | None => w
  end.

Definition pause_resume_timer (w : world) : world :=
  if negb (running (st w)) then start_timer w
  else if negb (paused (st w)) then
    update_label (drop_job (set_st (set_paused true) w))
  else tick (set_st (set_paused false) w).

Definition stop_timer (w : world) : world :=
  let w1 := set_st (set_paused false) (set_st (set_running false) w) in
  update_label (set_st (set_remaining total_seconds) (drop_job w1)).

(** [app.edit_button(cfg)]: the edit dialog opens; the timer's state
    is not involved. *)
Definition edit_button (w : world) : world :=
  World (st w) (text w) (sch w) (notifications w) (S (edit_dialogs w)).

(** The bindings of the button: [<Button-1>], [<Double-Button-1>] and
    [<Button-3>], and a pending callback coming due. *)
Inductive event := Button1 | DoubleButton1 | Button3 | Fire (h : nat).

Definition step (w : world) (ev : event) : world :=
  match ev with
  | Button1 => pause_resume_timer w
  | DoubleButton1 => stop_timer w
  | Button3 => edit_button w
  | Fire h =>
      match due h (sch w) with
      | Some (CbTick, s) => tick (set_sch s w)
      | None => w
      end
  end.

Definition run (w : world) (es : list event) : world := fold_left step es w.
End Timer.

End Timer.

(** ** The Pomodoro timer of [PomodoroHandler.create_pomodoro_button] *)

Module Pomodoro.

Inductive callback := CbTick | CbClearCompleteMessage | CbAdvancePhase.

Inductive phase := ready | work | short_break | long_break | complete.

(** The [logger.info] calls of the handler, in the order they are made. *)
Inductive log_entry :=
| LogStart
| LogResume
| LogPause
| LogLongBreak (sessions_completed : Z)
| LogShortBreak (sessions_completed : Z)
| LogWorkSession (current_session : Z)
| LogSkip
| LogReset.

Record state := State {
  running : bool;
  paused : bool;
  job : option nat;
  clear_job : option nat;
  current_phase : phase;
  remaining : Z;
  sessions_completed : Z;
  current_session : Z }.

(** The button text, the scheduler, the log, how often the notification
    sound was played, how often the edit dialog was opened, and how many
    callbacks ended in an exception that Tk reported. *)
Record world := World {
  st : state;
  text : string;
  sch : sched callback;
  log : list log_entry;
  notifications : nat;
  edit_dialogs : nat;
  callback_errors : nat }.

Definition set_st (f : state -> state) (w : world) : world :=
  World (f (st w)) (text w) (sch w) (log w) (notifications w) (edit_dialogs w) (callback_errors w).
Definition set_text (t : string) (w : world) : world :=
  World (st w) t (sch w) (log w) (notifications w) (edit_dialogs w) (callback_errors w).
Definition set_sch (s : sched callback) (w : world) : world :=
  World (st w) (text w) s (log w) (notifications w) (edit_dialogs w) (callback_errors w).
Definition logger_info (e : log_entry) (w : world) : world :=
  World (st w) (text w) (sch w) (log w ++ [e]) (notifications w) (edit_dialogs w) (callback_errors w).
Definition play_notification_sound (w : world) : world :=
  World (st w) (text w) (sch w) (log w) (S (notifications w)) (edit_dialogs w) (callback_errors w).
Definition edit_button (w : world) : world :=
  World (st w) (text w) (sch w) (log w) (notifications w) (S (edit_dialogs w)) (callback_errors w).
Definition report_callback_exception (w : world) : world :=
  World (st w) (text w) (sch w) (log w) (notifications w) (edit_dialogs w) (S (callback_errors w)).

Definition set_running (b : bool) (s : state) : state :=
  State b (paused s) (job s) (clear_job s) (current_phase s) (remaining s)
    (sessions_completed s) (current_session s).
Definition set_paused (b : bool) (s : state) : state :=
  State (running s) b (job s) (clear_job s) (current_phase s) (remaining s)
    (sessions_completed s) (current_session s).
Definition set_job (j : option nat) (s : state) : state :=
  State (running s) (paused s) j (clear_job s) (current_phase s) (remaining s)
    (sessions_completed s) (current_session s).
Definition set_clear_job (j : option nat) (s : state) : state :=
  State (running s) (paused s) (job s) j (current_phase s) (remaining s)
    (sessions_completed s) (current_session s).
Definition set_phase (p : phase) (s : state) : state :=
  State (running s) (paused s) (job s) (clear_job s) p (remaining s)
    (sessions_completed s) (current_session s).
Definition set_remaining (n : Z) (s : state) : state :=
  State (running s) (paused s) (job s) (clear_job s) (current_phase s) n
    (sessions_completed s) (current_session s).
Definition set_sessions_completed (n : Z) (s : state) : state :=
  State (running s) (paused s) (job s) (clear_job s) (current_phase s) (remaining s)
    n (current_session s).
Definition set_current_session (n : Z) (s : state) : state :=
  State (running s) (paused s) (job s) (clear_job s) (current_phase s) (remaining s)
    (sessions_completed s) n.

(** A call that returns, or one that [sessions_completed % 0] ends with a
    [ZeroDivisionError], each with the world it leaves. *)
Inductive result :=
| Returns (w : world)
| ZeroDivisionError (w : world).

(** [seconds] as [mm:ss]. *)
Definition format_time (seconds : Z) : string :=
  PyFormat.format_0d 2 (seconds / 60) +:+ ":" +:+ PyFormat.format_0d 2 (seconds mod 60).

Section Pomodoro.
(** The durations in seconds, the other settings read from [cfg], the
    label and the translation. *)
Variables work_duration short_break_duration long_break_duration : Z.
Variable sessions_before_long_break : Z.
Variable auto_advance : bool.
Variable orig_label : string.
Variable tr : string -> string.

Definition init : world :=
  World (State false false None None ready work_duration 0 1)
        orig_label no_jobs [] 0 0 0.

Definition counting (s : state) : bool := running s && negb (paused s).

Definition update_label (w : world) : world :=
  let s := st w in
  let time_str := format_time (remaining s) in
  match current_phase s with
  | ready => set_text orig_label w
  | work =>
      if counting s then
        set_text ("Work: " +:+ time_str +:+ nl +:+ "Session "
                    +:+ pretty (current_session s) +:+ "/"
                    +:+ pretty sessions_before_long_break) w
      else set_text ("Work: " +:+ time_str +:+ nl +:+ tr "Paused") w
  | short_break =>
      if counting s then set_text (tr "Short Break" +:+ ": " +:+ time_str) w
      else set_text (tr "Short Break" +:+ ": " +:+ time_str +:+ nl +:+ tr "Paused") w
  | long_break =>
      if counting s then set_text (tr "Long Break" +:+ ": " +:+ time_str) w
      else set_text (tr "Long Break" +:+ ": " +:+ time_str +:+ nl +:+ tr "Paused") w
  | complete =>
      if 0 <? sessions_completed s then
        set_text (tr "Work Complete!" +:+ nl +:+ pretty (sessions_completed s)
                    +:+ " sessions") w
      else set_text (tr "Break Complete!") w
  end.

Definition clear_complete_message (w : world) : world :=
  update_label (set_st (set_remaining work_duration) (set_st (set_phase ready) w)).

Definition tick (w : world) : world :=
  if negb (running (st w)) || paused (st w) then w
  else if 0 <? remaining (st w) then
    let w1 := update_label (set_st (set_remaining (remaining (st w) - 1)) w) in
    let '(h, s) := after 1000 CbTick (sch w1) in
    set_st (set_job (Some h)) (set_sch s w1)
  else
    let w1 := update_label (set_st (set_phase complete) (set_st (set_running false) w)) in
    let w2 := play_notification_sound w1 in
    let s3 := cancel_if_set (clear_job (st w2)) (sch w2) in
    let '(h, s4) := after 60000 CbClearCompleteMessage s3 in
    let w5 := set_st (set_clear_job (Some h)) (set_sch s4 w2) in
    if auto_advance then set_sch (after 3000 CbAdvancePhase (sch w5)).2 w5 else w5.

(** The last four statements of [advance_phase]. *)
Definition resume_counting (w : world) : world :=
  tick (update_label (set_st (set_paused false) (set_st (set_running true) w))).

Definition advance_phase (w : world) : result :=
  match current_phase (st w) with
  | work =>
      let n := sessions_completed (st w) + 1 in
      let w1 := set_st (set_sessions_completed n) w in
      if sessions_before_long_break =? 0 then ZeroDivisionError w1
      else if n mod sessions_before_long_break =? 0 then
        Returns (resume_counting
                   (logger_info (LogLongBreak n)
                      (set_st (set_remaining long_break_duration)
                         (set_st (set_phase long_break) w1))))
      else
        Returns (resume_counting
                   (logger_info (LogShortBreak n)
                      (set_st (set_remaining short_break_duration)
                         (set_st (set_phase short_break) w1))))
  | short_break | long_break =>
      let n := sessions_completed (st w) + 1 in
      Returns (resume_counting
                 (logger_info (LogWorkSession n)
                    (set_st (set_current_session n)
                       (set_st (set_remaining work_duration)
                          (set_st (set_phase work) w)))))
  | ready | complete => Returns (resume_counting w)
  end.

Definition start_pomodoro (w : world) : world :=
  let w1 :=
    match current_phase (st w) with
    | ready =>
        logger_info LogStart
          (set_st (set_current_session 1)
             (set_st (set_paused false)
                (set_st (set_running true)
                   (set_st (set_remaining work_duration)
                      (set_st (set_phase work) w)))))
    | _ =>
        if paused (st w) then logger_info LogResume (set_st (set_paused false) w)
        else logger_info LogPause (set_st (set_paused true) w)
    end in
  let w2 := update_label w1 in
  if counting (st w2) then tick w2 else w2.

(** [if state["job"]: btn.after_cancel(state["job"]); state["job"] = None] *)
Definition drop_job (w : world) : world :=
  match job (st w) with
  | Some h => set_st (set_job None) (set_sch (after_cancel h (sch w)) w)
  | None => w
  end.

Definition drop_clear_job (w : world) : world :=
  match clear_job (st w) with
  | Some h => set_st (set_clear_job None) (set_sch (after_cancel h (sch w)) w)
  | None => w
  end.

Definition skip_phase (w : world) : result :=
  if running (st w) then
    match advance_phase (drop_job w) with
    | Returns w1 => Returns (logger_info LogSkip w1)
    | ZeroDivisionError w1 => ZeroDivisionError w1
    end
  else Returns w.

Definition reset_pomodoro (w : world) : world :=
  let w1 := drop_clear_job (drop_job w) in
  let s := State false false (job (st w1)) (clear_job (st w1)) ready work_duration 0 1 in
  logger_info LogReset (update_label (set_st (λ _, s) w1)).

(** What Tk does with the outcome of a callback or binding script. *)
Definition finish (r : result) : world :=
  match r with
  | Returns w => w
  | ZeroDivisionError w => report_callback_exception w
  end.

(** The [<Button-3>] binding: [skip_phase], then the edit dialog that
    was bound in addition; an exception ends the binding script. *)
Definition on_right_click (w : world) : world :=
  match skip_phase w with
  | Returns w1 => edit_button w1
  | ZeroDivisionError w1 => report_callback_exception w1
  end.

Definition run_callback (f : callback) (w : world) : world :=
  match f with
  | CbTick => tick w
  | CbClearCompleteMessage => clear_complete_message w
  | CbAdvancePhase => finish (advance_phase w)
  end.

Inductive event := Button1 | DoubleButton1 | Button3 | Fire (h : nat).

Definition step (w : world) (ev : event) : world :=
  match ev with
  | Button1 => start_pomodoro w
  | DoubleButton1 => reset_pomodoro w
  | Button3 => on_right_click w
  | Fire h =>
      match due h (sch w) with
      | Some (f, s) => run_callback f (set_sch s w)
      | None => w
      end
  end.

Definition run (w : world) (es : list event) : world := fold_left step es w.
End Pomodoro.

(** The break entries of a log since its last reset. *)
Definition breaks_since_reset (l : list log_entry) : list log_entry :=
  fold_left (λ acc e,
    match e with
    | LogReset => []
    | LogLongBreak _ | LogShortBreak _ => (acc ++ [e])%list
    | _ => acc
    end) l [].

End Pomodoro.

(** ** The handler factory and the dispatcher boundary *)

Module Dispatcher.

Inductive handler_class :=
| PythonScriptHandler | WebsiteHandler | MusicHandler | PostHandler
| ShellHandler | LLMHandler | AppLauncherHandler | NetworkSpeedHandler
| PingHandler | PomodoroHandler | HTTPTestHandler | ColorPickerHandler.

(** The type tags [_get_handler_class] knows. *)
Definition class_of (handler_type : string) : option handler_class :=
  if String.eqb handler_type "python_script" then Some PythonScriptHandler
  else if String.eqb handler_type "website" then Some WebsiteHandler
  else if String.eqb handler_type "music" then Some MusicHandler
  else if String.eqb handler_type "post" then Some PostHandler
  else if String.eqb handler_type "shell" then Some ShellHandler
  else if String.eqb handler_type "llm" then Some LLMHandler
  else if String.eqb handler_type "app_launcher" then Some AppLauncherHandler
  else if String.eqb handler_type "network_speed" then Some NetworkSpeedHandler
  else if String.eqb handler_type "ping" then Some PingHandler
  else if String.eqb handler_type "pomodoro" then Some PomodoroHandler
  else if String.eqb handler_type "http_test" then Some HTTPTestHandler
  else if String.eqb handler_type "color_picker" then Some ColorPickerHandler
  else None.

(** How a call ends: it returns, or it raises an instance of
    [Exception] whose text is [e]. *)
Inductive outcome :=
| Returned
| Raised (e : string).

Inductive log_entry :=
| WarnUnknownHandlerType (handler_type : string)
| ErrorImportFailed (handler_type : string)
| DebugLazyLoaded (handler_type : string)
| WarnNoHandlerFound (button_type : string)
| ErrorExecutingButton (label e : string)
| ErrorNoHandlerAvailable (button_type : string)
| ErrorFailedToExecute (label e : string).

(** The factory's [_handlers] dict, with the log and the error boxes of
    the application around it. *)
Record app := App {
  _handlers : gmap string handler_class;
  log : list log_entry;
  alerts : list string }.

Definition logger (e : log_entry) (a : app) : app :=
  App (_handlers a) (log a ++ [e]) (alerts a).

Section Dispatcher.
(** Whether the lazy import of a handler's module succeeds, and how
    the [execute] of a handler ends on a button configuration; the
    configuration is the [cfg] dict, of which the factory reads the
    ["type"] and ["label"] entries as texts. *)
Variable importable : handler_class -> bool.
Variable execute : handler_class -> gmap string string -> outcome.

Definition _get_handler_class (handler_type : string) (a : app)
    : option handler_class * app :=
  match class_of handler_type with
  | Some c =>
      if importable c then (Some c, a)
      else (None, logger (ErrorImportFailed handler_type) a)
  | None => (None, logger (WarnUnknownHandlerType handler_type) a)
  end.

Definition _ensure_handler_loaded (handler_type : string) (a : app) : app :=
  match _handlers a !! handler_type with
  | Some _ => a
  | None =>
      match _get_handler_class handler_type a with
      | (Some c, a1) =>
          logger (DebugLazyLoaded handler_type)
            (App (<[handler_type := c]> (_handlers a1)) (log a1) (alerts a1))
      | (None, a1) => a1
      end
  end.

Definition get_handler (button_type : string) (a : app) : option handler_class * app :=
  let a1 := _ensure_handler_loaded button_type a in
  match _handlers a1 !! button_type with
  | Some h => (Some h, a1)
  | None =>
      let a2 := _ensure_handler_loaded "python_script"
                  (logger (WarnNoHandlerFound button_type) a1) in
      (_handlers a2 !! "python_script", a2)
  end.

Definition execute_button (cfg : gmap string string) (a : app) : outcome * app :=
  let button_type := default "python_script" (cfg !! "type") in
  match get_handler button_type a with
  | (Some handler, a1) =>
      match execute handler cfg with
      | Returned => (Returned, a1)
      | Raised e =>
          (Raised e, logger (ErrorExecutingButton (default "Unknown" (cfg !! "label")) e) a1)
      end
  | (None, a1) => (Returned, logger (ErrorNoHandlerAvailable button_type) a1)
  end.

(** [ButtonManager.run_script]: the caller of the factory. *)
Definition run_script (cfg : gmap string string) (a : app) : outcome * app :=
  match execute_button cfg a with
  | (Returned, a1) => (Returned, a1)
  | (Raised e, a1) =>
      let a2 := logger (ErrorFailedToExecute (default "Unknown" (cfg !! "label")) e) a1 in
      (Returned, App (_handlers a2) (log a2) (alerts a2 ++ ["Failed to execute button: " +:+ e]))
  end.
End Dispatcher.

End Dispatcher.

(** ** The addresses the HTTP test asks for *)

Module HttpRequests.



End HttpRequests.

(** ** The rest of the handler factory *)

Module HandlerFactory.

Definition get_supported_types : list string :=
  ["python_script"; "website"; "music"; "post"; "shell"; "llm"; "app_launcher";
   "network_speed"; "ping"; "pomodoro"; "http_test"; "color_picker"].

Section HandlerFactory.
Variable importable : Dispatcher.handler_class -> bool.

(** [preload_all_handlers]: the factory after the loop, and the number
    of handlers that the closing [logger.info] reports. *)
Definition preload_all_handlers (a : Dispatcher.app) : Dispatcher.app * nat :=
  (fold_left (λ a handler_type, Dispatcher._ensure_handler_loaded importable handler_type a)
     get_supported_types a,
   length get_supported_types).
End HandlerFactory.

End HandlerFactory.

(** ** The translation manager of [src/utils/translations.py] *)

Module Translations.

(** The catalogs by language code, as parsed from the translations file
    (a JSON object of objects of texts), and the current language. *)
Record manager := Manager {
  translations : gmap string (gmap string string);
  current_language : string }.

(** [load_translations]: the parsed file, or the two empty catalogs when
    it cannot be read. *)
Definition load_translations (file : option (gmap string (gmap string string)))
    : gmap string (gmap string string) :=
  match file with
  | Some t => t
  | None => <["en" := ∅]> (<["nl" := ∅]> ∅)
  end.

Definition init (file : option (gmap string (gmap string string))) : manager :=
  Manager (load_translations file) "en".

Definition set_language (language_code : string) (m : manager) : manager :=
  match translations m !! language_code with
  | Some _ => Manager (translations m) language_code
  | None => Manager (translations m) "en"
  end.

(** [language or self.current_language] *)
Definition language_or_current (language : option string) (m : manager) : string :=
  match language with
  | Some l => if String.eqb l "" then current_language m else l
  | None => current_language m
  end.

Definition get_text (text : string) (language : option string) (m : manager) : string :=
  let lang := language_or_current language m in
  let catalog := default (default ∅ (translations m !! "en")) (translations m !! lang) in
  default text (catalog !! text).

(** [_], which [app._] hands on to. *)
Definition translate (text : string) (m : manager) : string := get_text text None m.

End Translations.

(** ** The validation of the configuration in [ConfigManager] *)

Module Config.

(** The values of a parsed JSON file. *)
#[warnings="-register-all"] Inductive value :=
| VNone
| VBool (b : bool)
| VInt (n : Z)
| VFloat (x : float)
| VStr (s : string)
| VList (l : list value)
| VDict (d : list (string * value)).

(** The items of [_get_default_config], in the order of the dict. *)
Definition _get_default_config : list (string * value) :=
  [("buttons", VList []); ("button_size", VInt 80); ("theme", VStr "dark");
   ("language", VStr "en"); ("minimal_mode", VBool false); ("translucency", VFloat 1);
   ("default_animation_type", VStr "ripple"); ("log_level", VStr "WARNING");
   ("window_geometry", VStr "220x110"); ("python_executable", VStr "");
   ("volume", VFloat 1); ("min_btn_width", VInt 80); ("max_btn_width", VInt 220);
   ("min_btn_height", VInt 40); ("max_btn_height", VInt 110); ("timer_sound", VStr "");
   ("animation_enabled", VBool true)].

(** [defaults[key]] for a key of the defaults. *)
Definition defaults (key : string) : value :=
  match List.find (λ kv, String.eqb kv.1 key) _get_default_config with
  | Some kv => kv.2
  | None => VNone
  end.

(** [config_data.get(key)] *)
Definition get (key : string) (c : gmap string value) : value := default VNone (c !! key).

(** [for key, default_value in defaults.items(): if key not in
    self.config_data: self.config_data[key] = default_value] *)
Definition fill_defaults (c : gmap string value) : gmap string value :=
  fold_left (λ c kv, match c !! kv.1 with Some _ => c | None => <[kv.1 := kv.2]> c end)
    _get_default_config c.

(** [isinstance(v, int)], which holds of a [bool] as well. *)
Definition isinstance_int (v : value) : bool :=
  match v with VInt _ | VBool _ => true | _ => false end.

(** [isinstance(v, (int, float))] *)
Definition isinstance_number (v : value) : bool :=
  match v with VInt _ | VBool _ | VFloat _ => true | _ => false end.

(** [v < 1.0] and [v > 0.0] for a number [v]; Python compares an int
    and a float by their exact values. *)
Definition lt_one (v : value) : bool :=
  match v with
  | VInt n => n <? 1
  | VBool b => negb b
  | VFloat x => PrimFloat.ltb x 1
  | _ => false
  end.

Definition gt_zero (v : value) : bool :=
  match v with
  | VInt n => 0 <? n
  | VBool b => b
  | VFloat x => PrimFloat.ltb 0 x
  | _ => false
  end.

(** [min(1.0, v)] and [max(0.0, v)]: the second argument is returned
    only when it is strictly smaller (larger) than the first. *)
Definition min_one (v : value) : value := if lt_one v then v else VFloat 1.
Definition max_zero (v : value) : value := if gt_zero v then v else VFloat 0.

(** [v in [s1, s2, ...]] for a list of texts. *)
Definition in_strings (l : list string) (v : value) : bool :=
  match v with
  | VStr s => existsb (String.eqb s) l
  | _ => false
  end.

Definition valid_animation_types : list string :=
  ["ripple"; "scale"; "glow"; "bounce"; "shake"; "flame"; "confetti"; "sparkle";
   "explosion"; "combined"].

Definition _validate_and_fix_config (config_data : gmap string value) : gmap string value :=
  let c := fill_defaults config_data in
  let c := if isinstance_int (get "button_size" c) then c
           else <["button_size" := defaults "button_size"]> c in
  let c := if isinstance_number (get "translucency" c)
           then <["translucency" := max_zero (min_one (get "translucency" c))]> c
           else <["translucency" := defaults "translucency"]> c in
  let c := if in_strings ["light"; "dark"] (get "theme" c) then c
           else <["theme" := defaults "theme"]> c in
  let c := if in_strings ["en"; "es"] (get "language" c) then c
           else <["language" := defaults "language"]> c in
  let c := if in_strings valid_animation_types (get "default_animation_type" c) then c
           else <["default_animation_type" := defaults "default_animation_type"]> c in
  if in_strings ["DEBUG"; "INFO"; "WARNING"; "ERROR"] (get "log_level" c) then c
  else <["log_level" := defaults "log_level"]> c.

(** The start of [QuickButtonsApp.__init__]: the configuration is loaded
    and validated, and the translation manager is set to its language.
    [None] is the [TypeError] of a language that cannot be a dict key. *)
Definition startup_language (file_config : gmap string value) (m : Translations.manager)
    : option Translations.manager :=
  let config_data := _validate_and_fix_config file_config in
  match default (VStr "en") (config_data !! "language") with
  | VStr s => Some (Translations.set_language s m)
  | VList _ | VDict _ => None
  | _ => Some (Translations.Manager (Translations.translations m) "en")
  end.

End Config.

(** ** The Python interpreter of [src/utils/system.py] and the launch
    checks of the output overlay *)

Module PythonExecutable.

(** How a call ends: with a value, or with an exception that it lets
    through. *)
Inductive raised (A : Type) :=
| Ret (a : A)
| Exc (e : string).
Arguments Ret {A} a.
Arguments Exc {A} e.

(** How [subprocess.run([cmd, "--version"], timeout=2)] ends: with a
    return code, with one of the two exceptions that
    [detect_python_executable] passes over, or with another one. *)
Inductive probe :=
| ReturnCode (rc : Z)
| TimeoutOrNotFound
| ProbeError (e : string).

(** The machine: whether the application is frozen, [is_windows()],
    [sys.executable], the probes, [glob.glob] (an empty list also where it
    raises) and [os.path.exists]. *)
Record host := Host {
  frozen : bool;
  windows : bool;
  sys_executable : string;
  version_probe : string -> probe;
  glob : string -> list string;
  path_exists : string -> bool }.

(** The entries [2:4] of [possible_paths]. *)
Definition searched_patterns : list string :=
  ["C:\Python*\python.exe";
   "C:\Users\%USERNAME%\AppData\Local\Programs\Python\Python*\python.exe"].

(** The first of the commands that answers [--version] with 0. *)
Fixpoint first_answering (h : host) (cmds : list string) : raised (option string) :=
  match cmds with
  | [] => Ret None
  | cmd :: rest =>
      match version_probe h cmd with
      | ReturnCode rc => if rc =? 0 then Ret (Some cmd) else first_answering h rest
      | TimeoutOrNotFound => first_answering h rest
      | ProbeError e => Exc e
      end
  end.

(** The first match of the first pattern that has one. *)
Fixpoint first_match (h : host) (patterns : list string) : option string :=
  match patterns with
  | [] => None
  | pattern :: rest =>
      match glob h pattern with
      | m :: _ => Some m
      | [] => first_match h rest
      end
  end.

Definition detect_python_executable (h : host) : raised string :=
  if negb (frozen h) then Ret (sys_executable h)
  else if windows h then
    match first_answering h ["python"; "python3"] with
    | Ret (Some cmd) => Ret cmd
    | Ret None => Ret (default "" (first_match h searched_patterns))
    | Exc e => Exc e
    end
  else
    match first_answering h ["python3"; "python"] with
    | Ret (Some cmd) => Ret cmd
    | Ret None => Ret ""
    | Exc e => Exc e
    end.

(** [user_python] is the [python_executable] setting of the
    configuration that is passed or can be loaded, a text; [None] when
    there is no configuration. *)
Definition get_python_executable (user_python : option string) (h : host) : raised string :=
  let detected := detect_python_executable h in
  match user_python with
  | Some u => if negb (String.eqb u "") && path_exists h u then Ret u else detected
  | None => detected
  end.

(** [s.endswith(suffix)] *)
Definition endswith (s suffix : string) : bool :=
  (String.length suffix <=? String.length s)%nat
  && String.eqb (PyStr.slice (String.length s - String.length suffix) (String.length s) s)
       suffix.

(** The checks of [OutputOverlay.run_script] up to the start of the
    process: [popen] is how [subprocess.Popen] ends on the command. *)
Definition launch_of (user_python : option string) (h : host)
    (script_path : string) (args : list string)
    (popen : list string -> raised unit) : OutputOverlay.launch :=
  let start cmd :=
    match popen cmd with
    | Ret _ => OutputOverlay.Started
    | Exc e => OutputOverlay.SpawnError e
    end in
  if negb (path_exists h script_path) then OutputOverlay.ScriptMissing
  else if endswith script_path ".py" then
    match get_python_executable user_python h with
    | Ret python_exe =>
        if String.eqb python_exe "" then OutputOverlay.NoPythonExecutable
        else if negb (path_exists h python_exe)
                && negb (existsb (String.eqb python_exe) ["python"; "python3"])
        then OutputOverlay.PythonMissing python_exe
        else start (python_exe :: "-u" :: script_path :: args)
    | Exc e => OutputOverlay.SpawnError e
    end
  else start (script_path :: args).

End PythonExecutable.

(** ** The website handler and [WebOpener.open_url] *)

Module Website.

Inductive log_entry :=
| WarnNoUrlProvided
| InfoOpenedUrl (url : string)
| ErrorFailedToOpenUrl (url e : string)
| InfoOpenedWebsite (url : string)
| ErrorFailedToOpenWebsite (url e : string).

(** Whether [app.web_opener] is set, the addresses handed to the
    browser, the log, and the error boxes with their titles. *)
Record world := World {
  web_opener : bool;
  opened : list string;
  log : list log_entry;
  alerts : list (string * string) }.

Definition logger (e : log_entry) (w : world) : world :=
  World (web_opener w) (opened w) (log w ++ [e]) (alerts w).
Definition showerror (title message : string) (w : world) : world :=
  World (web_opener w) (opened w) (log w) (alerts w ++ [(title, message)]).

(** How [webbrowser.open] ends. *)
Inductive browser :=
| Opens
| BrowserRaises (e : string).

Definition open_url (b : browser) (url : string) (w : world) : bool * world :=
  if String.eqb url "" then (false, logger WarnNoUrlProvided w)
  else
    let url := if String.prefix "http://" url || String.prefix "https://" url
               then url else "https://" +:+ url in
    match b with
    | Opens =>
        (true, logger (InfoOpenedUrl url)
                 (World (web_opener w) (opened w ++ [url]) (log w) (alerts w)))
    | BrowserRaises e => (false, logger (ErrorFailedToOpenUrl url e) w)
    end.

Section Website.
Variable tr : string -> string.

(** [import_error] is how the import of [WebOpener] fails, if it does. *)
Definition execute (import_error : option string) (b : browser)
    (cfg : gmap string string) (w : world) : world :=
  match cfg !! "url" with
  | None => showerror "No URL" (tr "No website URL configured.") w
  | Some url =>
      if String.eqb url "" then showerror "No URL" (tr "No website URL configured.") w
      else
        let go w1 := logger (InfoOpenedWebsite url) (open_url b url w1).2 in
        if web_opener w then go w
        else
          match import_error with
          | None => go (World true (opened w) (log w) (alerts w))
          | Some e =>
              showerror (tr "Error") ("Failed to open website: " +:+ e)
                (logger (ErrorFailedToOpenWebsite url e) w)
          end
  end.
End Website.

End Website.

(** ** The network speed handler

    [create_speed_test_button] builds the closures of a probe button
    around its own worker [run_speed_test]. *)

Module NetworkSpeed.

(** The tuple [(download, upload, ping)] kept in [state["results"]],
    each a number or [None]. *)
Record speed_result := SpeedResult {
  download : option float;
  upload : option float;
  ping : option float }.

Definition failed : speed_result := SpeedResult None None None.

(** How the attempt with the [speedtest] module ends: it measures
    (bits per second, and the ping), the import fails, or something else
    is raised. *)
Inductive module_result :=
| Measured (download_bps upload_bps ping : float)
| ImportError
| ModuleRaises.

(** How the [speedtest --simple] run ends: it returns, with its code
    and what the parsing loop finds in its output ([None] when a number
    cannot be read), it raises [TimeoutExpired] or [FileNotFoundError],
    or it raises something else. *)
Inductive cli_result :=
| CliReturned (returncode : Z) (parsed : option speed_result)
| CliTimeoutOrNotFound
| CliRaises.

(** What the blocking calls of one [run_speed_test] do; [pings] are
    the connection times to the known servers that can be reached. *)
Record speed_outcome := SpeedOutcome {
  module : module_result;
  cli : cli_result;
  pings : list float }.

(** How a call ends that may fail on the attribute lookup. *)
Inductive looked_up (A : Type) :=
| Found (a : A)
| AttributeError.
Arguments Found {A} a.
Arguments AttributeError {A}.

(** The local function [_estimate_speed] of [create_speed_test_button]. *)
Definition _estimate_speed (pings : list float) : speed_result :=
  match pings with
  | [] => failed
  | _ =>
      let avg_ping := Ping.average pings in
      if PrimFloat.ltb avg_ping 20 then SpeedResult (Some 100%float) (Some 50%float) (Some avg_ping)
      else if PrimFloat.ltb avg_ping 50 then SpeedResult (Some 50%float) (Some 25%float) (Some avg_ping)
      else if PrimFloat.ltb avg_ping 100 then SpeedResult (Some 25%float) (Some 10%float) (Some avg_ping)
      else SpeedResult (Some 10%float) (Some 5%float) (Some avg_ping)
  end.

(** What an instance of [NetworkSpeedHandler] has: the attribute set in
    [__init__] and the methods of the class. *)
Definition handler_attributes : list string :=
  ["app"; "__init__"; "execute"; "create_speed_test_button"].

(** [self._estimate_speed()] *)
Definition self_estimate_speed (pings : list float) : looked_up speed_result :=
  if existsb (String.eqb "_estimate_speed") handler_attributes
  then Found (_estimate_speed pings)
  else AttributeError.

(** The [try]/[except] part of [run_speed_test]. *)
Definition run_speed_test_body (o : speed_outcome) : speed_result :=
  match module o with
  | Measured download_bps upload_bps ping =>
      SpeedResult (Some (PrimFloat.div download_bps 1000000))
                  (Some (PrimFloat.div upload_bps 1000000)) (Some ping)
  | ImportError =>
      match cli o with
      | CliReturned returncode parsed =>
          if returncode =? 0 then default failed parsed else failed
      | CliTimeoutOrNotFound =>
          match self_estimate_speed (pings o) with
          | Found r => r
          | AttributeError => failed
          end
      | CliRaises => failed
      end
  | ModuleRaises => failed
  end.

(** A number or [None] tested as a condition. *)
Definition truthy (x : option float) : bool :=
  match x with
  | Some v => negb (PrimFloat.eqb v 0)
  | None => false
  end.

Section NetworkSpeed.
Variable orig_label : string.
Variable tr : string -> string.
(** [str] of a float, as the f-string writes the ping. *)
Variable float_str : float -> string.

Definition speed_str (x : float) : string :=
  if PrimFloat.leb 1000 x then PyFormat.format_f 1 (PrimFloat.div x 1000) +:+ "G"
  else PyFormat.format_f 0 x +:+ "M".

(** The result branch of [update_label]. *)
Definition render (r : speed_result) : option string :=
  match download r, upload r with
  | Some d, Some u =>
      if truthy (Some d) && truthy (Some u) then
        Some ("↓" +:+ speed_str d +:+ " ↑" +:+ speed_str u +:+ nl
                +:+ match ping r with Some p => float_str p | None => "None" end +:+ "ms")
      else Some (tr "Test Failed")
  | _, _ => Some (tr "Test Failed")
  end.

Definition init := Probe.init (result := speed_result) orig_label.
Definition step := Probe.step run_speed_test_body render (tr "Testing...") orig_label.
Definition run := Probe.run run_speed_test_body render (tr "Testing...") orig_label.
End NetworkSpeed.

End NetworkSpeed.

(** * Properties *)

(** ** Formatting checks *)

Example format_f_examples :
  PyFormat.format_f 1 12%float = "12.0" /\
  PyFormat.format_f 0 0.5%float = "0" /\
  PyFormat.format_f 0 0.75%float = "1" /\
  PyFormat.format_f 1 0.25%float = "0.2" /\
  PyFormat.format_f 1 1234.5625%float = "1234.6" /\
  PyFormat.format_f 0 240%float = "240".
Proof. vm_compute. repeat split. Qed.

Example format_int_examples :
  PyFormat.format_02x 255 = "ff" /\ PyFormat.format_02x 7 = "07" /\
  PyFormat.format_02x 0 = "00" /\ PyFormat.format_0d 2 5 = "05" /\
  PyFormat.format_0d 2 (-5) = "-5" /\ PyFormat.format_0d 2 123 = "123".
Proof. vm_compute. repeat split. Qed.

Example strip_examples :
  PyStr.strip ("  Name: " +:+ nl) = "Name:" /\
  PyStr.strip (PyStr.of_bytes [194; 160; 65; 226; 128; 128; 10]%nat) = "A" /\
  PyStr.replace " - ERROR" "" "a - ERROR b - ERROR" = "a b" /\
  PyStr.int16 "ff" = Some 255 /\ PyStr.int16 "-f" = Some (-15) /\ PyStr.int16 "g1" = None.
Proof. vm_compute. repeat split. Qed.

(** ** Probe buttons *)

Section ProbeFacts.
Context {result outcome : Type}.
Variable body : outcome -> result.
Variable render : result -> option string.
Variables working_label orig_label : string.

Local Abbreviation update_label := (Probe.update_label render working_label orig_label).
Local Abbreviation clear_results := (Probe.clear_results render working_label orig_label).
Local Abbreviation start := (Probe.start render working_label orig_label).
Local Abbreviation step := (Probe.step body render working_label orig_label).
Local Abbreviation run := (Probe.run body render working_label orig_label).
Local Abbreviation init := (Probe.init (result := result) orig_label).

(** The workers that still hold the running flag are as many as the flag
    says: one while it is set, none otherwise. *)
Local Abbreviation world := (Probe.world (result := result)).


Lemma update_label_st (w : world) : Probe.st (update_label w) = Probe.st w.
Proof.
  unfold Probe.update_label.
  destruct (Probe.running (Probe.st w)); [reflexivity|].
  destruct (Probe.results (Probe.st w)) as [r|]; [|reflexivity].
  destruct (render r); reflexivity.
Qed.








End ProbeFacts.

(** ** Scenarios of the ping button *)

(** A ping whose two runs succeed with one reply of the given time, and
    one whose first run exits with code 1. *)
Definition ping_reply (ms : float) : Ping.ping_outcome :=
  Ping.PingOutcome (Ping.Returned 0 [ms]) (Ping.Returned 0 [ms]) None.

Definition ping_down : Ping.ping_outcome :=
  Ping.PingOutcome (Ping.Returned 1 []) Ping.NotRunnable None.

(** One activation of a probe: the click, the three moves of the worker
    thread [i] it starts, and the [update_label] that the worker posted
    under handle [h] coming due. *)
Definition activation {outcome : Type} (i h : nat) (o : outcome) : list (Probe.event (outcome := outcome)) :=
  [Probe.Click; Probe.Worker i o; Probe.Worker i o; Probe.Worker i o; Probe.Fire h].




(** C6, as stated, fails: the 12 ms reply is shown with a decimal. *)
Lemma C6_ping_12ms_shows_a_decimal :
  Probe.text (Ping.run "8.8.8.8" "Ping" id (Ping.init "Ping")
                (activation 0 0 (ping_reply 12%float)))
    = "8.8.8.8" +:+ nl +:+ "12.0ms" /\
  String.eqb ("8.8.8.8" +:+ nl +:+ "12.0ms") ("8.8.8.8" +:+ nl +:+ "12ms") = false.
Proof. vm_compute. split; reflexivity. Qed.

(** C6 (amended).  A ping button on host 8.8.8.8 shows ["8.8.8.8\n12.0ms"]
    after a probe whose reply took 12 ms (a time of at least 1 ms is shown
    with one decimal, a shorter one with none), and ["8.8.8.8\n"] followed
    by the translation of ["Failed"] after a failed probe, which is
    ["Failed"] itself when the catalog has no entry for it. *)
Theorem C6_ping_rendering (orig_label : string) (catalog : gmap string string) :
  let tr := get_text catalog in
  let shown o := Probe.text (Ping.run "8.8.8.8" orig_label tr (Ping.init orig_label)
                               (activation 0 0 o)) in
  shown (ping_reply 12%float) = "8.8.8.8" +:+ nl +:+ "12.0ms" /\
  shown (ping_reply 0.5%float) = "8.8.8.8" +:+ nl +:+ "0ms" /\
  shown ping_down = "8.8.8.8" +:+ nl +:+ default "Failed" (catalog !! "Failed").
Proof.
  intros tr shown. subst shown. unfold get_text in tr.
  change (default "Failed" (catalog !! "Failed")) with (tr "Failed").
  clearbody tr. vm_compute. repeat split.
Qed.

(** What one activation from the button's creation leaves: the result of
    the worker's body in the state, and its rendering on the button. *)
Lemma activation_shows {result outcome : Type}
    (body : outcome -> result) (render : result -> option string)
    (working_label orig_label : string) (o : outcome) :
  let w := Probe.run body render working_label orig_label (Probe.init orig_label)
             (activation 0 0 o) in
  Probe.results (Probe.st w) = Some (body o) /\
  Probe.running (Probe.st w) = false /\
  Probe.text w = default working_label (render (body o)).
Proof.
  cbv zeta. unfold activation, Probe.run. cbn [fold_left].
  vm_compute. destruct (render (body o)); repeat split.
Qed.

(** ** The HTTP test button *)

(** The response that [run_http_test] grades, when one of its requests
    returned one: the first request's, else the one of the fallback that
    the exceptions led to. *)
Definition graded_response (o : HttpTest.http_outcome) : option (Z * float) :=
  match HttpTest.https_verified o with
  | HttpTest.Response sc t => Some (sc, t)
  | HttpTest.SSLError =>
      match HttpTest.https_unverified o with
      | HttpTest.Response sc t => Some (sc, t)
      | _ => match HttpTest.plain_http o with
             | HttpTest.Response sc t => Some (sc, t)
             | _ => None
             end
      end
  | HttpTest.RequestException =>
      match HttpTest.plain_http o with
      | HttpTest.Response sc t => Some (sc, t)
      | _ => None
      end
  | HttpTest.OtherException => None
  end.

Lemma graded_failed sc t hs cv :
  400 <= sc -> HttpTest.status (HttpTest.graded sc t hs cv) = "failed"
               /\ HttpTest.response_time (HttpTest.graded sc t hs cv) = t.
Proof.
  intros H. unfold HttpTest.graded.
  destruct (Z.ltb_spec sc 400); [lia|]. split; reflexivity.
Qed.

Lemma run_http_test_body_failed o sc t :
  graded_response o = Some (sc, t) -> 400 <= sc ->
  HttpTest.status (HttpTest.run_http_test_body o) = "failed"
  /\ HttpTest.response_time (HttpTest.run_http_test_body o) = t.
Proof.
  intros Hg Hsc. destruct o as [v u p].
  unfold graded_response, HttpTest.run_http_test_body, HttpTest.try_plain_http in *.
  cbn [HttpTest.https_verified HttpTest.https_unverified HttpTest.plain_http] in *.
  destruct v; try discriminate.
  - inversion Hg; subst. apply graded_failed, Hsc.
  - destruct u.
    + inversion Hg; subst. apply graded_failed, Hsc.
    + destruct p; try discriminate. inversion Hg; subst. apply graded_failed, Hsc.
    + destruct p; try discriminate. inversion Hg; subst. apply graded_failed, Hsc.
    + destruct p; try discriminate. inversion Hg; subst. apply graded_failed, Hsc.
  - destruct p; try discriminate. inversion Hg; subst. apply graded_failed, Hsc.
Qed.

(** C9.  When a request of the HTTP test worker returns a response whose
    status code is 400 or more, the worker records a failed result, with
    the time the response took, and the button then shows the cross mark
    and the translation of ["Failed"], not the lock icon, domain and
    latency. *)
Theorem C9_error_status_is_a_failed_result
    (test_url orig_label : string) (tr : string -> string)
    (urlparse : string -> option (string * string))
    (o : HttpTest.http_outcome) (sc : Z) (t : float) :
  graded_response o = Some (sc, t) ->
  400 <= sc ->
  let w := HttpTest.run test_url orig_label tr urlparse (HttpTest.init orig_label)
             (activation 0 0 o) in
  (exists r, Probe.results (Probe.st w) = Some r /\
             HttpTest.status r = "failed" /\ HttpTest.response_time r = t) /\
  Probe.text w = "❌ " +:+ tr "Failed".
Proof.
  intros Hg Hsc w.
  destruct (activation_shows HttpTest.run_http_test_body
              (HttpTest.render test_url tr urlparse) (tr "Testing...") orig_label o)
    as (Hres & _ & Htext).
  destruct (run_http_test_body_failed o sc t Hg Hsc) as [Hst Hrt].
  split.
  - exists (HttpTest.run_http_test_body o). split; [exact Hres|]. split; assumption.
  - subst w. unfold HttpTest.run, HttpTest.init. rewrite Htext.
    unfold HttpTest.render. rewrite Hst. reflexivity.
Qed.

(** C9 on a certificate-checked request answered 404 after a quarter of a
    second, with the English texts. *)
Lemma C9_witness_not_found :
  let o := HttpTest.HttpOutcome (HttpTest.Response 404 0.25%float)
             HttpTest.OtherException HttpTest.OtherException in
  let w := HttpTest.run "https://example.com" "HTTP Test" id (λ _, Some ("example.com", ""))
             (HttpTest.init "HTTP Test") (activation 0 0 o) in
  (exists r, Probe.results (Probe.st w) = Some r /\
             HttpTest.status r = "failed" /\ HttpTest.response_time r = 0.25%float) /\
  Probe.text w = "❌ Failed".
Proof.
  exact (C9_error_status_is_a_failed_result "https://example.com" "HTTP Test" id
           (λ _, Some ("example.com", ""))
           (HttpTest.HttpOutcome (HttpTest.Response 404 0.25%float)
              HttpTest.OtherException HttpTest.OtherException)
           404 0.25%float eq_refl ltac:(lia)).
Defined.

Example http_ok_rendering :
  Probe.text (HttpTest.run "https://example.com" "HTTP Test" id (λ _, Some ("example.com", ""))
                (HttpTest.init "HTTP Test")
                (activation 0 0 (HttpTest.HttpOutcome (HttpTest.Response 200 0.25%float)
                                   HttpTest.OtherException HttpTest.OtherException)))
  = "🔒 example.com" +:+ nl +:+ "250ms".
Proof. vm_compute. reflexivity. Qed.

(** ** Scheduler facts *)

Section SchedulerFacts.
Context {cb : Type}.
Variable Q : cb -> Prop.

(** Every pending callback satisfies [Q]. *)
Definition all_pending (s : sched cb) : Prop :=
  map_Forall (λ _ (e : Z * cb), Q e.2) (pending s).

Lemma all_pending_no_jobs : all_pending no_jobs.
Proof. apply map_Forall_empty. Qed.

Lemma all_pending_after ms f (s : sched cb) :
  Q f -> all_pending s -> all_pending (after ms f s).2.
Proof. intros Hf Hs. unfold all_pending. simpl. apply map_Forall_insert_2; assumption. Qed.

Lemma all_pending_after_cancel h (s : sched cb) :
  all_pending s -> all_pending (after_cancel h s).
Proof. intros Hs. unfold all_pending. simpl. apply map_Forall_delete, Hs. Qed.

Lemma all_pending_cancel_if_set j (s : sched cb) :
  all_pending s -> all_pending (cancel_if_set j s).
Proof. destruct j; simpl; [apply all_pending_after_cancel|trivial]. Qed.

Lemma all_pending_due h (s s' : sched cb) f :
  due h s = Some (f, s') -> all_pending s -> Q f /\ all_pending s'.
Proof.
  unfold due. destruct (pending s !! h) as [[d g]|] eqn:Hh; [|discriminate].
  intros [= <- <-] Hs. split.
  - apply (Hs h (d, g) Hh).
  - apply all_pending_after_cancel, Hs.
Qed.
End SchedulerFacts.

(** ** The color picker *)

Lemma hex_go_nonempty fuel n acc :
  (fuel <> 0%nat \/ acc <> "") -> PyFormat.hex_go fuel n acc <> "".
Proof.
  revert n acc. induction fuel as [|k IH]; intros n acc H; simpl.
  - destruct H; [congruence|assumption].
  - destruct (n <? 16); [discriminate|]. apply IH. right. discriminate.
Qed.

Lemma app_nonempty (s t : string) : t <> "" -> s +:+ t <> "".
Proof. destruct s; simpl; [trivial|discriminate]. Qed.

Lemma format_02x_nonempty n : PyFormat.format_02x n <> "".
Proof.
  unfold PyFormat.format_02x. destruct (n <? 0); [discriminate|].
  unfold PyFormat.rjust. apply app_nonempty, hex_go_nonempty. left. discriminate.
Qed.

Lemma rgb_hex_truthy r g b : ColorPicker.truthy (Some (ColorPicker.rgb_hex r g b)) = true.
Proof.
  unfold ColorPicker.truthy, ColorPicker.rgb_hex.
  destruct (String.eqb_spec (PyFormat.format_02x r +:+ PyFormat.format_02x g +:+ PyFormat.format_02x b) "") as [E|]; [|reflexivity].
  exfalso. revert E. apply app_nonempty, app_nonempty, format_02x_nonempty.
Qed.

(** [get_pixel_color] never comes back empty-handed. *)
Lemma get_pixel_color_truthy e : ColorPicker.truthy (ColorPicker.get_pixel_color e) = true.
Proof.
  unfold ColorPicker.get_pixel_color.
  assert (Hf : ColorPicker.truthy
                 (if ColorPicker.truthy (ColorPicker.platform_fallback e)
                  then ColorPicker.platform_fallback e else Some "ff0000") = true).
  { destruct (ColorPicker.truthy (ColorPicker.platform_fallback e)) eqn:E; [exact E|reflexivity]. }
  destruct (ColorPicker.pil e) as [[|r [|g [|b px]]]| |]; try exact Hf.
  apply rgb_hex_truthy.
Qed.

(** The Pillow attempt gives no color: the import fails, a call raises, or
    the pixel has fewer than three components. *)
Definition pil_gives_nothing (e : ColorPicker.screen_env) : Prop :=
  match ColorPicker.pil e with
  | ColorPicker.PilPixel (_ :: _ :: _ :: _) => False
  | _ => True
  end.

(** No callback showing "Pick failed" is pending. *)
Definition no_pick_failed (w : ColorPicker.world) : Prop :=
  all_pending (λ f, f <> ColorPicker.CbShowPickFailed) (ColorPicker.sch w).

Section ColorPickerFacts.
Variables orig_label bg_color : string.
Variable tr : string -> string.

Local Abbreviation update_label := (ColorPicker.update_label orig_label bg_color tr).
Local Abbreviation on_click := (ColorPicker.on_click).
Local Abbreviation step := (ColorPicker.step orig_label bg_color tr).
Local Abbreviation run := (ColorPicker.run orig_label bg_color tr).
Local Abbreviation ok := (λ f, f <> ColorPicker.CbShowPickFailed).

Lemma color_update_label_sch w : ColorPicker.sch (update_label w) = ColorPicker.sch w.
Proof.
  unfold ColorPicker.update_label.
  destruct (ColorPicker.picking (ColorPicker.st w)); [reflexivity|].
  destruct (ColorPicker.truthy (ColorPicker.color (ColorPicker.st w))); reflexivity.
Qed.

Lemma no_pick_failed_on_escape w : no_pick_failed w -> no_pick_failed (ColorPicker.on_escape w).
Proof.
  unfold no_pick_failed, ColorPicker.on_escape, ColorPicker.post, ColorPicker.destroy_picker.
  intros H. cbn [ColorPicker.sch ColorPicker.set_sch ColorPicker.set_iconified
                 ColorPicker.set_picker_window ColorPicker.set_st ColorPicker.picker_window].
  apply (all_pending_after ok); [discriminate|]. apply all_pending_cancel_if_set, H.
Qed.

Lemma no_pick_failed_on_click e how w : no_pick_failed w -> no_pick_failed (on_click e how w).
Proof.
  unfold no_pick_failed, ColorPicker.on_click. intros H.
  rewrite get_pixel_color_truthy. cbv zeta.
  destruct (after 30000 ColorPicker.CbClearColor _) as [h s6] eqn:E.
  cbn [ColorPicker.sch ColorPicker.set_sch ColorPicker.set_st].
  assert (Hs : s6 = (after 30000 ColorPicker.CbClearColor
                       (cancel_if_set
                          (ColorPicker.clear_job (ColorPicker.st w))
                          (after 0 ColorPicker.CbUpdateLabel
                             (cancel_if_set (ColorPicker.picker_window w) (ColorPicker.sch w))).2)).2).
  { revert E. unfold ColorPicker.post, ColorPicker.copy_to_clipboard, ColorPicker.destroy_picker.
    destruct how; cbn; intros [= _ <-]; reflexivity. }
  rewrite Hs.
  apply (all_pending_after ok); [discriminate|].
  apply all_pending_cancel_if_set.
  apply (all_pending_after ok); [discriminate|].
  apply all_pending_cancel_if_set, H.
Qed.

Lemma no_pick_failed_step w ev : no_pick_failed w -> no_pick_failed (step w ev).
Proof.
  intros H. destruct ev as [|e how| |h]; unfold ColorPicker.step.
  - unfold ColorPicker.start_color_picking.
    destruct (ColorPicker.picking (ColorPicker.st w)); [exact H|].
    unfold no_pick_failed, ColorPicker.post.
    cbn [ColorPicker.sch ColorPicker.set_sch ColorPicker.set_iconified].
    apply (all_pending_after ok); [discriminate|].
    rewrite color_update_label_sch. exact H.
  - destruct (ColorPicker.picker_window w); [apply no_pick_failed_on_click, H|exact H].
  - destruct (ColorPicker.picker_window w); [apply no_pick_failed_on_escape, H|exact H].
  - destruct (due h (ColorPicker.sch w)) as [[f s]|] eqn:E; [|exact H].
    destruct (all_pending_due ok _ _ _ _ E H) as [Hf Hs].
    assert (H' : no_pick_failed (ColorPicker.set_sch s w)) by exact Hs.
    destruct f; unfold ColorPicker.run_callback.
    + unfold no_pick_failed, ColorPicker.pick_color_from_screen. cbn.
      apply map_Forall_insert_2; [discriminate|exact Hs].
    + unfold no_pick_failed. rewrite color_update_label_sch. exact Hs.
    + unfold no_pick_failed, ColorPicker.clear_color. cbv zeta.
      rewrite color_update_label_sch.
      cbn [ColorPicker.st ColorPicker.set_st ColorPicker.set_sch ColorPicker.set_color
           ColorPicker.clear_job ColorPicker.sch].
      destruct (ColorPicker.clear_job (ColorPicker.st w)); cbn; [|exact Hs].
      apply (all_pending_after_cancel ok), Hs.
    + congruence.
    + apply no_pick_failed_on_escape, H'.
Qed.

Lemma no_pick_failed_run es : forall w, no_pick_failed w -> no_pick_failed (run w es).
Proof.
  induction es as [|ev es IH]; intros w H; [exact H|].
  simpl. apply IH, no_pick_failed_step, H.
Qed.

End ColorPickerFacts.

Lemma get_pixel_color_all_failed e :
  pil_gives_nothing e -> ColorPicker.platform_fallback e = None ->
  ColorPicker.get_pixel_color e = Some "ff0000".
Proof.
  unfold pil_gives_nothing, ColorPicker.get_pixel_color. intros Hp Hf. rewrite Hf. simpl.
  destruct (ColorPicker.pil e) as [[|r [|g [|b px]]]| |]; try reflexivity. contradiction.
Qed.

(** C10.  When no detection method gives a color and none raises past
    its own handler (Pillow is missing, fails or gives a short pixel, and
    the platform fallback returns nothing), [get_pixel_color] returns
    ["ff0000"].  The click on the overlay then stores it as the picked
    color, puts ["#ff0000"] on the clipboard when a clipboard method
    works, and the button shows it as a picked color on a red background;
    no "Pick failed" callback is scheduled, in whatever state the button
    was.  *)
Theorem C10_failed_detection_is_a_red_pick
    (orig_label bg_color : string) (tr : string -> string)
    (es : list ColorPicker.event) (e : ColorPicker.screen_env) (how : ColorPicker.clip_result) :
  pil_gives_nothing e ->
  ColorPicker.platform_fallback e = None ->
  let w := ColorPicker.run orig_label bg_color tr (ColorPicker.init orig_label bg_color) es in
  let w' := ColorPicker.on_click e how w in
  let shown := ColorPicker.update_label orig_label bg_color tr w' in
  ColorPicker.get_pixel_color e = Some "ff0000" /\
  ColorPicker.color (ColorPicker.st w') = Some "ff0000" /\
  ColorPicker.picking (ColorPicker.st w') = false /\
  (how <> ColorPicker.ClipNone -> ColorPicker.clipboard w' = Some "#ff0000") /\
  ColorPicker.text shown = "#ff0000" +:+ nl +:+ tr "Copied!" /\
  ColorPicker.bg shown = "#ff0000" /\
  no_pick_failed w'.
Proof.
  intros Hp Hf w w' shown.
  pose proof (get_pixel_color_all_failed e Hp Hf) as Hc.
  assert (Hw : no_pick_failed w).
  { apply no_pick_failed_run. apply all_pending_no_jobs. }
  assert (Hst : ColorPicker.st w' = ColorPicker.State false (Some "ff0000")
                  (ColorPicker.clear_job (ColorPicker.st w'))
                /\ (how <> ColorPicker.ClipNone -> ColorPicker.clipboard w' = Some "#ff0000")).
  { subst w'. unfold ColorPicker.on_click. rewrite Hc. cbv zeta.
    change (ColorPicker.truthy (Some "ff0000")) with true. cbv iota.
    destruct (after 30000 ColorPicker.CbClearColor _) as [h s6].
    destruct how; cbn; (split; [reflexivity|]); intros H; try reflexivity; congruence. }
  destruct Hst as [Hst Hclip].
  split; [exact Hc|]. split; [rewrite Hst; reflexivity|].
  split; [rewrite Hst; reflexivity|]. split; [exact Hclip|].
  assert (Hshown : shown = ColorPicker.set_bg (ColorPicker.preview_bg "ff0000" (ColorPicker.bg w'))
                             (ColorPicker.set_text ("#ff0000" +:+ nl +:+ tr "Copied!") w')).
  { subst shown. unfold ColorPicker.update_label. rewrite Hst. reflexivity. }
  split; [rewrite Hshown; reflexivity|].
  split; [rewrite Hshown; vm_compute; reflexivity|].
  subst w'. apply no_pick_failed_on_click, Hw.
Qed.

(** C10 on a Linux desktop without Pillow where [xwd] fails: the button is
    clicked, the overlay opens, the user clicks on the screen, and the
    label update that the click posted comes due. *)
Lemma C10_witness_linux_without_tools :
  let e := ColorPicker.ScreenEnv ColorPicker.PilImportError ColorPicker.Linux None false in
  let w := ColorPicker.run "Color Picker" "#202020" id (ColorPicker.init "Color Picker" "#202020")
             [ColorPicker.Click; ColorPicker.Fire 0] in
  let w' := ColorPicker.on_click e ColorPicker.ClipTk w in
  let shown := ColorPicker.update_label "Color Picker" "#202020" id w' in
  ColorPicker.get_pixel_color e = Some "ff0000" /\
  ColorPicker.color (ColorPicker.st w') = Some "ff0000" /\
  ColorPicker.picking (ColorPicker.st w') = false /\
  (ColorPicker.ClipTk <> ColorPicker.ClipNone -> ColorPicker.clipboard w' = Some "#ff0000") /\
  ColorPicker.text shown = "#ff0000" +:+ nl +:+ "Copied!" /\
  ColorPicker.bg shown = "#ff0000" /\
  no_pick_failed w'.
Proof.
  exact (C10_failed_detection_is_a_red_pick "Color Picker" "#202020" id
           [ColorPicker.Click; ColorPicker.Fire 0]
           (ColorPicker.ScreenEnv ColorPicker.PilImportError ColorPicker.Linux None false)
           ColorPicker.ClipTk I eq_refl).
Defined.

Example color_pick_end_to_end :
  let e := ColorPicker.ScreenEnv ColorPicker.PilImportError ColorPicker.Linux None false in
  let w := ColorPicker.run "Color Picker" "#202020" id (ColorPicker.init "Color Picker" "#202020")
             [ColorPicker.Click; ColorPicker.Fire 0;
              ColorPicker.PickerClick e ColorPicker.ClipTk; ColorPicker.Fire 2] in
  ColorPicker.text w = "#ff0000" +:+ nl +:+ "Copied!" /\ ColorPicker.bg w = "#ff0000" /\
  ColorPicker.clipboard w = Some "#ff0000".
Proof. vm_compute. repeat split. Qed.

(** ** The dispatcher boundary *)

(** C5.  Whatever the handler of a button does, [run_script] returns: an
    exception raised by the handler's [execute] is logged by
    [execute_button] and raised again to its caller [run_script], which
    logs it and reports it in an error box instead of letting it reach
    the callback queue. *)
Theorem C5_handler_exceptions_stop_at_run_script
    (importable : Dispatcher.handler_class -> bool)
    (execute : Dispatcher.handler_class -> gmap string string -> Dispatcher.outcome)
    (cfg : gmap string string) (a a1 : Dispatcher.app)
    (handler : Dispatcher.handler_class) (e : string) :
  Dispatcher.get_handler importable (default "python_script" (cfg !! "type")) a
    = (Some handler, a1) ->
  execute handler cfg = Dispatcher.Raised e ->
  let label := default "Unknown" (cfg !! "label") in
  Dispatcher.execute_button importable execute cfg a
    = (Dispatcher.Raised e, Dispatcher.logger (Dispatcher.ErrorExecutingButton label e) a1) /\
  Dispatcher.run_script importable execute cfg a
    = (Dispatcher.Returned,
       Dispatcher.App (Dispatcher._handlers a1)
         (Dispatcher.log a1 ++ [Dispatcher.ErrorExecutingButton label e;
                                Dispatcher.ErrorFailedToExecute label e])
         (Dispatcher.alerts a1 ++ ["Failed to execute button: " +:+ e])) /\
  forall cfg' a', (Dispatcher.run_script importable execute cfg' a').1 = Dispatcher.Returned.
Proof.
  intros Hh He label. split; [|split].
  - unfold Dispatcher.execute_button. rewrite Hh, He. reflexivity.
  - unfold Dispatcher.run_script, Dispatcher.execute_button. rewrite Hh, He.
    unfold Dispatcher.logger. cbn. rewrite <- app_assoc. reflexivity.
  - intros cfg' a'. unfold Dispatcher.run_script.
    destruct (Dispatcher.execute_button importable execute cfg' a') as [[|e'] a2]; reflexivity.
Qed.

(** A website button whose handler raises, dispatched on a fresh factory. *)
Definition failing_website (h : Dispatcher.handler_class) (_ : gmap string string)
    : Dispatcher.outcome :=
  match h with
  | Dispatcher.WebsiteHandler => Dispatcher.Raised "No URL configured"
  | _ => Dispatcher.Returned
  end.

Definition docs_button : gmap string string :=
  <["type" := "website"]> (<["label" := "Docs"]> ∅).

Lemma C5_witness_failing_website :
  let a := Dispatcher.App ∅ [] [] in
  let a1 := (Dispatcher.get_handler (λ _, true) "website" a).2 in
  Dispatcher.execute_button (λ _, true) failing_website docs_button a
    = (Dispatcher.Raised "No URL configured",
       Dispatcher.logger (Dispatcher.ErrorExecutingButton "Docs" "No URL configured") a1) /\
  Dispatcher.run_script (λ _, true) failing_website docs_button a
    = (Dispatcher.Returned,
       Dispatcher.App (Dispatcher._handlers a1)
         (Dispatcher.log a1 ++ [Dispatcher.ErrorExecutingButton "Docs" "No URL configured";
                                Dispatcher.ErrorFailedToExecute "Docs" "No URL configured"])
         (Dispatcher.alerts a1 ++ ["Failed to execute button: No URL configured"])) /\
  forall cfg' a', (Dispatcher.run_script (λ _, true) failing_website cfg' a').1
                  = Dispatcher.Returned.
Proof.
  exact (C5_handler_exceptions_stop_at_run_script (λ _, true) failing_website docs_button
           (Dispatcher.App ∅ [] [])
           (Dispatcher.get_handler (λ _, true) "website" (Dispatcher.App ∅ [] [])).2
           Dispatcher.WebsiteHandler "No URL configured" eq_refl eq_refl).
Defined.

Example unknown_type_falls_back :
  (Dispatcher.get_handler (λ _, true) "teleport" (Dispatcher.App ∅ [] [])).1
  = Some Dispatcher.PythonScriptHandler.
Proof. vm_compute. reflexivity. Qed.

(** ** The output overlay *)

Lemma contains_error_mark_app (t : string) :
  PyStr.contains OutputOverlay.error_mark (t +:+ OutputOverlay.error_mark) = true.
Proof.
  induction t as [|c t IH].
  - reflexivity.
  - change (String c t +:+ OutputOverlay.error_mark)
      with (String c (t +:+ OutputOverlay.error_mark)).
    cbn [PyStr.contains]. rewrite IH. apply orb_true_r.
Qed.

Lemma termination_code_spec (x : Z) :
  existsb (Z.eqb x) OutputOverlay.termination_codes = true <-> x ∈ OutputOverlay.termination_codes.
Proof.
  rewrite existsb_exists, list_elem_of_In. split.
  - intros (y & Hy & E). apply Z.eqb_eq in E. subst y. exact Hy.
  - intros H. exists x. split; [exact H|apply Z.eqb_refl].
Qed.

Lemma exit_is_error_spec (user_closed : bool) (exit_code : Z) :
  OutputOverlay.exit_is_error user_closed exit_code = true <->
  exit_code <> 0 /\ user_closed = false /\ exit_code ∉ OutputOverlay.termination_codes.
Proof.
  unfold OutputOverlay.exit_is_error.
  destruct (Z.eqb_spec exit_code 0) as [E|E]; cbn [negb].
  - split; [intros H; discriminate H|]. intros (H & _). contradiction.
  - destruct user_closed.
    + split; [intros H; discriminate H|]. intros (_ & H & _). discriminate H.
    + destruct (existsb (Z.eqb exit_code) OutputOverlay.termination_codes) eqn:X.
      * split; [intros H; discriminate H|]. intros (_ & _ & H). exfalso. apply H.
        apply termination_code_spec, X.
      * split; [|reflexivity]. intros _. split; [exact E|]. split; [reflexivity|].
        intros H. apply termination_code_spec in H. congruence.
Qed.

Lemma finalize_error tr o (w : OutputOverlay.world) :
  let w' := OutputOverlay._finalize_output tr o true w in
  PyStr.contains OutputOverlay.error_mark (OutputOverlay.title w') = true /\
  OutputOverlay.sch w' = OutputOverlay.sch w.
Proof.
  destruct w as [tx ti ie iv wi eo uc pr sc rd wd al].
  unfold OutputOverlay._finalize_output. cbv zeta.
  destruct o; cbn; destruct (PyStr.contains OutputOverlay.error_mark ti) eqn:C; cbn;
    (split; [|reflexivity]); try exact C; apply contains_error_mark_app.
Qed.

Lemma finalize_success tr o (w : OutputOverlay.world) :
  OutputOverlay.error_occurred_ w = false ->
  let w' := OutputOverlay._finalize_output tr o false w in
  OutputOverlay.sch w' = (after 2000 OutputOverlay.CbClose (OutputOverlay.sch w)).2 /\
  (PyStr.contains OutputOverlay.error_mark (OutputOverlay.title w) = false ->
   OutputOverlay.title w' = OutputOverlay.title w).
Proof.
  destruct w as [tx ti ie iv wi eo uc pr sc rd wd al]. cbn. intros ->.
  unfold OutputOverlay._finalize_output. cbv zeta.
  destruct o; cbn; destruct (PyStr.contains OutputOverlay.error_mark ti) eqn:C; cbn;
    (split; [reflexivity|]); intros H; try reflexivity; discriminate H.
Qed.

(** C2, as stated, fails: with the user-closed flag unset, exit code 1 is
    not an error, the title stays unmarked and the window closes by
    itself; with the flag set, no exit code is an error, 137 included. *)
Lemma C2_exit_code_1_is_not_an_error :
  let w := OutputOverlay.run id
             (OutputOverlay.run_script id "job.py" OutputOverlay.Started
                (OutputOverlay.init id None))
             [OutputOverlay.ReaderLine ("working" +:+ nl); OutputOverlay.Fire 0;
              OutputOverlay.ReaderExit 1; OutputOverlay.Fire 1] in
  OutputOverlay.user_closed w = false /\
  OutputOverlay.exit_is_error false 1 = false /\
  OutputOverlay.title w = "Script Output" /\
  pending (OutputOverlay.sch w) !! 2%nat = Some (2000, OutputOverlay.CbClose) /\
  OutputOverlay.exit_is_error true 137 = false.
Proof. vm_compute. repeat split. Qed.

(** C2 (amended).  When the process of an overlay exits, the reader takes
    the exit for an error exactly when the code is not 0, the user has not
    closed the window, and the code is none of -1, 1, 2, 3, 15: with the
    window closed by the user no code is an error, and those five codes
    are no error either way.  It posts the finalization with that
    verdict; finalizing an error leaves the title marked with ERROR and
    schedules no close, finalizing anything else schedules the close after
    2 s. *)
Theorem C2_exit_code_classification
    (tr : string -> string)
    (w : OutputOverlay.world) (output_received : bool) (exit_code : Z) :
  OutputOverlay.reader w = Some output_received ->
  OutputOverlay.error_occurred_ w = false ->
  let err := OutputOverlay.exit_is_error (OutputOverlay.user_closed w) exit_code in
  let w1 := OutputOverlay.read_output_exit tr exit_code w in
  let h := if err then S (next_handle (OutputOverlay.sch w)) else next_handle (OutputOverlay.sch w) in
  let w2 := OutputOverlay.step tr w1 (OutputOverlay.Fire h) in
  (err = true <-> exit_code <> 0 /\ OutputOverlay.user_closed w = false
                  /\ exit_code ∉ OutputOverlay.termination_codes) /\
  pending (OutputOverlay.sch w1) !! h
    = Some (0, OutputOverlay.CbFinalizeOutput output_received err) /\
  (err = true ->
     PyStr.contains OutputOverlay.error_mark (OutputOverlay.title w2) = true /\
     pending (OutputOverlay.sch w2) = delete h (pending (OutputOverlay.sch w1))) /\
  (err = false ->
     pending (OutputOverlay.sch w2) !! S h = Some (2000, OutputOverlay.CbClose) /\
     (PyStr.contains OutputOverlay.error_mark (OutputOverlay.title w) = false ->
      OutputOverlay.title w2 = OutputOverlay.title w)).
Proof.
  intros Hr He err w1 h w2.
  split; [apply exit_is_error_spec|].
  assert (Hpost : pending (OutputOverlay.sch w1) !! h
                  = Some (0, OutputOverlay.CbFinalizeOutput output_received err)).
  { subst w1 h. unfold OutputOverlay.read_output_exit. rewrite Hr. cbv zeta.
    cbn [OutputOverlay.user_closed OutputOverlay.set_proc OutputOverlay.set_reader].
    fold err. destruct err; cbn; apply lookup_insert_eq. }
  split; [exact Hpost|].
  assert (Hw1 : OutputOverlay.title w1 = OutputOverlay.title w
                /\ OutputOverlay.error_occurred_ w1 = false
                /\ next_handle (OutputOverlay.sch w1) = S h).
  { subst w1 h. unfold OutputOverlay.read_output_exit. rewrite Hr. cbv zeta.
    cbn [OutputOverlay.user_closed OutputOverlay.set_proc OutputOverlay.set_reader].
    fold err. destruct err; cbn; auto. }
  destruct Hw1 as (Ht & He1 & Hn).
  assert (Hstep : w2 = OutputOverlay._finalize_output tr output_received err
                         (OutputOverlay.set_sch (after_cancel h (OutputOverlay.sch w1)) w1)).
  { subst w2. unfold OutputOverlay.step, due. rewrite Hpost. reflexivity. }
  split.
  - intros E. rewrite Hstep, E.
    destruct (finalize_error tr output_received
                (OutputOverlay.set_sch (after_cancel h (OutputOverlay.sch w1)) w1)) as [Hc Hs].
    split; [exact Hc|]. rewrite Hs. reflexivity.
  - intros E. rewrite Hstep, E.
    destruct (finalize_success tr output_received
                (OutputOverlay.set_sch (after_cancel h (OutputOverlay.sch w1)) w1) He1) as [Hs Hc].
    split.
    + rewrite Hs. cbn. rewrite Hn. apply lookup_insert_eq.
    + intros C. rewrite <- Ht. apply Hc. cbn [OutputOverlay.title OutputOverlay.set_sch].
      rewrite Ht. exact C.
Qed.

(** An overlay whose script has printed one line, shown on the overlay. *)
Definition overlay_after_output : OutputOverlay.world :=
  OutputOverlay.run id
    (OutputOverlay.run_script id "job.py" OutputOverlay.Started (OutputOverlay.init id None))
    [OutputOverlay.ReaderLine ("working" +:+ nl); OutputOverlay.Fire 0].

(** C2 on a script that exits with code 7 while the window is open. *)
Lemma C2_witness_exit_code_7 :
  let w1 := OutputOverlay.read_output_exit id 7 overlay_after_output in
  let w2 := OutputOverlay.step id w1 (OutputOverlay.Fire 2) in
  OutputOverlay.exit_is_error (OutputOverlay.user_closed overlay_after_output) 7 = true /\
  pending (OutputOverlay.sch w1) !! 2%nat = Some (0, OutputOverlay.CbFinalizeOutput true true) /\
  PyStr.contains OutputOverlay.error_mark (OutputOverlay.title w2) = true.
Proof.
  cbv zeta.
  refine (match C2_exit_code_classification id overlay_after_output true 7 eq_refl eq_refl
          with conj _ (conj H2 (conj H3 _)) => _ end).
  split; [reflexivity|]. split; [exact H2|]. exact (proj1 (H3 eq_refl)).
Defined.

Ltac split_cases :=
  repeat match goal with
         | |- context [if ?c then _ else _] => destruct c eqn:?
         | |- context [match ?x with _ => _ end] => destruct x eqn:?
         end.

(** No event of the packaged overlay touches [waiting_for_input]. *)
Lemma overlay_step_waiting tr (w : OutputOverlay.world) ev :
  OutputOverlay.waiting_for_input (OutputOverlay.step tr w ev)
  = OutputOverlay.waiting_for_input w.
Proof.
  destruct ev; unfold OutputOverlay.step.
  - unfold OutputOverlay.read_output_line. destruct (OutputOverlay.reader w); reflexivity.
  - unfold OutputOverlay.read_output_exit. destruct (OutputOverlay.reader w); [|reflexivity].
    cbv zeta. destruct (OutputOverlay.exit_is_error _ _); reflexivity.
  - unfold OutputOverlay.read_output_error. destruct (OutputOverlay.reader w); reflexivity.
  - destruct (due h (OutputOverlay.sch w)) as [[f s]|]; [|reflexivity].
    destruct f as [line|o e|]; unfold OutputOverlay.run_callback.
    + reflexivity.
    + unfold OutputOverlay._finalize_output. cbv zeta.
      destruct o, e; cbn [orb]; split_cases; reflexivity.
    + unfold OutputOverlay.close. cbv zeta. cbn.
      destruct (OutputOverlay.proc w) as [p|]; [destruct (alive p)|]; reflexivity.
  - destruct (OutputOverlay.input_enabled w); reflexivity.
  - unfold OutputOverlay.send_input.
    destruct (OutputOverlay.proc w) as [p|]; [destruct (alive p)|]; reflexivity.
  - unfold OutputOverlay.close. cbv zeta. cbn.
    destruct (OutputOverlay.proc w) as [p|]; [destruct (alive p)|]; reflexivity.
Qed.

Lemma overlay_run_waiting tr es : forall w : OutputOverlay.world,
  OutputOverlay.waiting_for_input (OutputOverlay.run tr w es)
  = OutputOverlay.waiting_for_input w.
Proof.
  induction es as [|ev es IH]; intros w; [reflexivity|].
  simpl. rewrite IH. apply overlay_step_waiting.
Qed.

(** C3, as stated, fails on the packaged overlay: a line that ends with a
    colon is shown, and the overlay is not waiting for input. *)
Lemma C3_packaged_overlay_never_awaits_input :
  let w := OutputOverlay.run id
             (OutputOverlay.run_script id "ask.py" OutputOverlay.Started
                (OutputOverlay.init id None))
             [OutputOverlay.ReaderLine "Name:"; OutputOverlay.Fire 0] in
  LegacyOutputOverlay.looks_like_prompt "Name:" = true /\
  OutputOverlay.text w = "Running..." +:+ nl +:+ "Name:" /\
  OutputOverlay.waiting_for_input w = false.
Proof. vm_compute. repeat split. Qed.

(** C3 (amended).  The overlay of [src/ui/dialogs/output_overlay.py] has
    no prompt heuristic: whatever lines arrive it is never waiting for
    input, and accepting input writes the entered value and a newline to
    the stdin of a process that still runs, then empties the entry.  The
    heuristic is that of the overlay in [quickbuttons.py]: a line whose
    text without the surrounding whitespace ends with a colon or a
    question mark is appended, sets [waiting_for_input] and shows the
    entry; accepting input there writes the value and a newline to stdin,
    clears the flag and hides the entry. *)
Theorem C3_input_relay
    (tr : string -> string) (script_path : string) (btn_label : option string)
    (l : OutputOverlay.launch) (es : list OutputOverlay.event)
    (w : OutputOverlay.world) (p : process)
    (lw : LegacyOutputOverlay.world) (lp : process) (line : string) :
  OutputOverlay.proc w = Some p -> alive p = true -> stdin_open p = true ->
  LegacyOutputOverlay.reading lw = true ->
  LegacyOutputOverlay.proc lw = Some lp -> stdin_open lp = true ->
  LegacyOutputOverlay.looks_like_prompt line = true ->
  OutputOverlay.waiting_for_input
    (OutputOverlay.run tr
       (OutputOverlay.run_script tr script_path l (OutputOverlay.init tr btn_label)) es) = false /\
  OutputOverlay.proc (OutputOverlay.send_input w)
    = Some (Process true (stdin p +:+ OutputOverlay.input_var w +:+ nl) true) /\
  OutputOverlay.input_var (OutputOverlay.send_input w) = "" /\
  let lw1 := LegacyOutputOverlay.read_output_line line lw in
  let lw2 := LegacyOutputOverlay.send_input lw1 in
  LegacyOutputOverlay.text lw1 = LegacyOutputOverlay.text lw +:+ line /\
  LegacyOutputOverlay.waiting_for_input lw1 = true /\
  LegacyOutputOverlay.entry_packed lw1 = true /\
  LegacyOutputOverlay.proc lw2
    = Some (Process (alive lp) (stdin lp +:+ LegacyOutputOverlay.input_var lw +:+ nl) true) /\
  LegacyOutputOverlay.waiting_for_input lw2 = false /\
  LegacyOutputOverlay.entry_packed lw2 = false.
Proof.
  intros Hp Ha Ho Hr Hlp Hlo Hl.
  split.
  { rewrite overlay_run_waiting. destruct l; reflexivity. }
  assert (Hs : OutputOverlay.send_input w
               = OutputOverlay.set_input_var ""
                   (OutputOverlay.set_proc
                      (Some (Process true (stdin p +:+ OutputOverlay.input_var w +:+ nl) true)) w)).
  { unfold OutputOverlay.send_input. rewrite Hp, Ha. unfold stdin_write.
    rewrite Ho, Ha. reflexivity. }
  split; [rewrite Hs; reflexivity|]. split; [rewrite Hs; reflexivity|].
  cbv zeta. unfold LegacyOutputOverlay.read_output_line. rewrite Hr, Hl.
  unfold LegacyOutputOverlay.send_input. cbn. rewrite Hlp. cbn.
  unfold stdin_write. rewrite Hlo. repeat split; reflexivity.
Qed.

(** C3 on a script that asks for a name, in each overlay. *)
Lemma C3_witness_name_prompt :
  let w := OutputOverlay.step id
             (OutputOverlay.run_script id "ask.py" OutputOverlay.Started
                (OutputOverlay.init id None))
             (OutputOverlay.TypeInput "Ada") in
  let lw := LegacyOutputOverlay.World "" "Ada" false false
              (Some (Process true "" true)) no_jobs true false in
  OutputOverlay.proc (OutputOverlay.send_input w) = Some (Process true ("Ada" +:+ nl) true) /\
  LegacyOutputOverlay.waiting_for_input
    (LegacyOutputOverlay.read_output_line ("Name: " +:+ nl) lw) = true /\
  LegacyOutputOverlay.proc
    (LegacyOutputOverlay.send_input (LegacyOutputOverlay.read_output_line ("Name: " +:+ nl) lw))
    = Some (Process true ("Ada" +:+ nl) true).
Proof.
  cbv zeta.
  refine (match C3_input_relay id "ask.py" None OutputOverlay.Started []
                  (OutputOverlay.step id
                     (OutputOverlay.run_script id "ask.py" OutputOverlay.Started
                        (OutputOverlay.init id None))
                     (OutputOverlay.TypeInput "Ada"))
                  (Process true "" true)
                  (LegacyOutputOverlay.World "" "Ada" false false
                     (Some (Process true "" true)) no_jobs true false)
                  (Process true "" true) ("Name: " +:+ nl)
                  eq_refl eq_refl eq_refl eq_refl eq_refl eq_refl eq_refl
          with conj _ (conj H2 (conj _ (conj _ (conj H5 (conj _ (conj H7 _)))))) => _ end).
  split; [exact H2|]. split; [exact H5|exact H7].
Defined.

(** ** The Pomodoro timer *)

Local Open Scope list_scope.

Section PomodoroFacts.
Variables work_duration short_break_duration long_break_duration : Z.
Variable sessions_before_long_break : Z.
Variable auto_advance : bool.
Variable orig_label : string.
Variable tr : string -> string.

Local Abbreviation update_label := (Pomodoro.update_label sessions_before_long_break orig_label tr).
Local Abbreviation tick := (Pomodoro.tick sessions_before_long_break auto_advance orig_label tr).
Local Abbreviation resume_counting :=
  (Pomodoro.resume_counting sessions_before_long_break auto_advance orig_label tr).
Local Abbreviation advance_phase :=
  (Pomodoro.advance_phase work_duration short_break_duration long_break_duration
     sessions_before_long_break auto_advance orig_label tr).
Local Abbreviation start_pomodoro :=
  (Pomodoro.start_pomodoro work_duration sessions_before_long_break auto_advance orig_label tr).
Local Abbreviation skip_phase :=
  (Pomodoro.skip_phase work_duration short_break_duration long_break_duration
     sessions_before_long_break auto_advance orig_label tr).
Local Abbreviation reset_pomodoro :=
  (Pomodoro.reset_pomodoro work_duration sessions_before_long_break orig_label tr).
Local Abbreviation step :=
  (Pomodoro.step work_duration short_break_duration long_break_duration
     sessions_before_long_break auto_advance orig_label tr).
Local Abbreviation run :=
  (Pomodoro.run work_duration short_break_duration long_break_duration
     sessions_before_long_break auto_advance orig_label tr).
Local Abbreviation init := (Pomodoro.init work_duration orig_label).






















End PomodoroFacts.




(** Four work sessions of a 25/5/15 Pomodoro with a long break after every
    fourth, each ended with a right click, as are the breaks between. *)
Definition four_sessions : list Pomodoro.event :=
  Pomodoro.Button1 :: repeat Pomodoro.Button3 7.


Example four_sessions_breaks :
  Pomodoro.breaks_since_reset
    (Pomodoro.log (Pomodoro.run 1500 300 900 4 true "Pomodoro" id
                     (Pomodoro.init 1500 "Pomodoro") four_sessions))
  = [Pomodoro.LogShortBreak 1; Pomodoro.LogShortBreak 2; Pomodoro.LogShortBreak 3;
     Pomodoro.LogLongBreak 4]
  /\ Pomodoro.current_phase
       (Pomodoro.st (Pomodoro.run 1500 300 900 4 true "Pomodoro" id
                       (Pomodoro.init 1500 "Pomodoro") four_sessions))
     = Pomodoro.long_break.
Proof. vm_compute. split; reflexivity. Qed.

(** ** Gestures on the timer buttons *)

(** A tick is scheduled under the handle the state holds. *)
Definition timer_ticking (w : Timer.world) : Prop :=
  exists h, Timer.job (Timer.st w) = Some h /\
            pending (Timer.sch w) !! h = Some (1000, Timer.CbTick).

(** The handle, if any, is no longer scheduled. *)
Definition canceled {cb : Type} (j : option nat) (s : sched cb) : Prop :=
  forall h, j = Some h -> pending s !! h = None.

(** What the bindings of a timer button do, for a timer of
    [total_seconds > 0]: the left click starts, pauses and resumes; the
    double click resets; the right click opens the edit dialog and leaves
    the countdown alone. *)
Definition timer_gestures (total_seconds : Z) (orig_label : string) : Prop :=
  forall w : Timer.world,
    let clicked := Timer.step total_seconds orig_label w Timer.Button1 in
    let doubled := Timer.step total_seconds orig_label w Timer.DoubleButton1 in
    let right := Timer.step total_seconds orig_label w Timer.Button3 in
    (Timer.running (Timer.st w) = false ->
       Timer.running (Timer.st clicked) = true /\ Timer.paused (Timer.st clicked) = false /\
       Timer.remaining (Timer.st clicked) = total_seconds - 1 /\ timer_ticking clicked) /\
    (Timer.running (Timer.st w) = true -> Timer.paused (Timer.st w) = false ->
       Timer.running (Timer.st clicked) = true /\ Timer.paused (Timer.st clicked) = true /\
       Timer.remaining (Timer.st clicked) = Timer.remaining (Timer.st w) /\
       Timer.job (Timer.st clicked) = None /\
       canceled (Timer.job (Timer.st w)) (Timer.sch clicked)) /\
    (Timer.running (Timer.st w) = true -> Timer.paused (Timer.st w) = true ->
     0 < Timer.remaining (Timer.st w) ->
       Timer.running (Timer.st clicked) = true /\ Timer.paused (Timer.st clicked) = false /\
       Timer.remaining (Timer.st clicked) = Timer.remaining (Timer.st w) - 1 /\
       timer_ticking clicked) /\
    (Timer.st doubled = Timer.State false false total_seconds None /\
     Timer.text doubled = orig_label /\
     canceled (Timer.job (Timer.st w)) (Timer.sch doubled)) /\
    (Timer.st right = Timer.st w /\ Timer.sch right = Timer.sch w /\
     Timer.text right = Timer.text w /\ Timer.edit_dialogs right = S (Timer.edit_dialogs w)).

Lemma timer_gestures_hold total_seconds orig_label :
  0 < total_seconds -> timer_gestures total_seconds orig_label.
Proof.
  intros HT [[r p rem j] tx [n pd] nt ed]. cbv zeta.
  unfold Timer.step, Timer.pause_resume_timer, Timer.start_timer, Timer.stop_timer,
    Timer.edit_button, Timer.tick, Timer.update_label, Timer.drop_job, timer_ticking, canceled,
    after, after_cancel.
  cbn. repeat split.
  - subst. cbn. destruct (Z.ltb_spec 0 total_seconds); [reflexivity|lia].
  - subst. cbn. destruct (Z.ltb_spec 0 total_seconds); [reflexivity|lia].
  - subst. cbn. destruct (Z.ltb_spec 0 total_seconds); [reflexivity|lia].
  - subst. cbn. destruct (Z.ltb_spec 0 total_seconds); [|lia].
    cbn. eexists. split; [reflexivity|]. apply lookup_insert_eq.
  - subst. destruct j; reflexivity.
  - subst. destruct j; reflexivity.
  - subst. destruct j; reflexivity.
  - subst. destruct j; reflexivity.
  - subst. intros h ->. cbn. apply lookup_delete_eq.
  - subst. cbn. destruct (Z.ltb_spec 0 rem); [reflexivity|lia].
  - subst. cbn. destruct (Z.ltb_spec 0 rem); [reflexivity|lia].
  - subst. cbn. destruct (Z.ltb_spec 0 rem); [reflexivity|lia].
  - subst. cbn. destruct (Z.ltb_spec 0 rem); [|lia].
    cbn. eexists. split; [reflexivity|]. apply lookup_insert_eq.
  - destruct j; reflexivity.
  - destruct j; reflexivity.
  - intros h ->. cbn. apply lookup_delete_eq.
Qed.

Definition pomodoro_ticking (w : Pomodoro.world) : Prop :=
  exists h, Pomodoro.job (Pomodoro.st w) = Some h /\
            pending (Pomodoro.sch w) !! h = Some (1000, Pomodoro.CbTick).

(** What the bindings of a Pomodoro button do, for positive durations and
    a non-zero [sessions_before_long_break]: the left click starts the
    first work session, pauses and resumes; the right click, while the
    timer runs, cancels the held tick and moves on to the next phase at
    once, and otherwise only opens the edit dialog; the double click
    resets to [ready] and cancels the held tick and clear handles. *)
Definition pomodoro_gestures
    (work_duration short_break_duration long_break_duration sessions_before_long_break : Z)
    (auto_advance : bool) (orig_label : string) (tr : string -> string) : Prop :=
  forall w : Pomodoro.world,
    let s := Pomodoro.st w in
    let go := Pomodoro.step work_duration short_break_duration long_break_duration
                sessions_before_long_break auto_advance orig_label tr w in
    let clicked := go Pomodoro.Button1 in
    let doubled := go Pomodoro.DoubleButton1 in
    let right := go Pomodoro.Button3 in
    let skipped_sched :=
      Sched (S (next_handle (Pomodoro.sch w)))
            (<[next_handle (Pomodoro.sch w) := (1000, Pomodoro.CbTick)]>
               (pending (cancel_if_set (Pomodoro.job s) (Pomodoro.sch w)))) in
    (Pomodoro.current_phase s = Pomodoro.ready ->
       Pomodoro.st clicked
       = Pomodoro.State true false (Some (next_handle (Pomodoro.sch w))) (Pomodoro.clear_job s)
           Pomodoro.work (work_duration - 1) (Pomodoro.sessions_completed s) 1 /\
       pomodoro_ticking clicked) /\
    (Pomodoro.current_phase s <> Pomodoro.ready -> Pomodoro.paused s = false ->
       Pomodoro.st clicked = Pomodoro.set_paused true s /\
       Pomodoro.sch clicked = Pomodoro.sch w) /\
    (Pomodoro.current_phase s <> Pomodoro.ready -> Pomodoro.paused s = true ->
     Pomodoro.running s = true -> 0 < Pomodoro.remaining s ->
       Pomodoro.st clicked
       = Pomodoro.set_job (Some (next_handle (Pomodoro.sch w)))
           (Pomodoro.set_remaining (Pomodoro.remaining s - 1) (Pomodoro.set_paused false s)) /\
       pomodoro_ticking clicked) /\
    (Pomodoro.running s = true -> Pomodoro.current_phase s = Pomodoro.work ->
       let n := Pomodoro.sessions_completed s + 1 in
       let long := n mod sessions_before_long_break =? 0 in
       Pomodoro.st right
       = Pomodoro.State true false (Some (next_handle (Pomodoro.sch w))) (Pomodoro.clear_job s)
           (if long then Pomodoro.long_break else Pomodoro.short_break)
           ((if long then long_break_duration else short_break_duration) - 1)
           n (Pomodoro.current_session s) /\
       Pomodoro.sch right = skipped_sched) /\
    (Pomodoro.running s = true ->
     Pomodoro.current_phase s = Pomodoro.short_break
     \/ Pomodoro.current_phase s = Pomodoro.long_break ->
       Pomodoro.st right
       = Pomodoro.State true false (Some (next_handle (Pomodoro.sch w))) (Pomodoro.clear_job s)
           Pomodoro.work (work_duration - 1)
           (Pomodoro.sessions_completed s) (Pomodoro.sessions_completed s + 1) /\
       Pomodoro.sch right = skipped_sched) /\
    (Pomodoro.running s = false ->
       Pomodoro.st right = s /\ Pomodoro.sch right = Pomodoro.sch w /\
       Pomodoro.edit_dialogs right = S (Pomodoro.edit_dialogs w)) /\
    (Pomodoro.st doubled = Pomodoro.State false false None None Pomodoro.ready work_duration 0 1 /\
     Pomodoro.text doubled = orig_label /\
     Pomodoro.sch doubled
     = cancel_if_set (Pomodoro.clear_job s) (cancel_if_set (Pomodoro.job s) (Pomodoro.sch w))).

Section PomodoroGestures.
Variables work_duration short_break_duration long_break_duration : Z.
Variable sessions_before_long_break : Z.
Variable auto_advance : bool.
Variable orig_label : string.
Variable tr : string -> string.

Local Abbreviation update_label := (Pomodoro.update_label sessions_before_long_break orig_label tr).
Local Abbreviation tick := (Pomodoro.tick sessions_before_long_break auto_advance orig_label tr).
Local Abbreviation resume_counting :=
  (Pomodoro.resume_counting sessions_before_long_break auto_advance orig_label tr).

(** [update_label] only sets the text. *)
Lemma pomodoro_update_label_text w : exists t, update_label w = Pomodoro.set_text t w.
Proof.
  unfold Pomodoro.update_label. cbv zeta.
  destruct (Pomodoro.current_phase (Pomodoro.st w)); split_cases; eexists; reflexivity.
Qed.

Lemma pomodoro_update_label_ready w :
  Pomodoro.current_phase (Pomodoro.st w) = Pomodoro.ready ->
  update_label w = Pomodoro.set_text orig_label w.
Proof. intros H. unfold Pomodoro.update_label. cbv zeta. rewrite H. reflexivity. Qed.

Lemma pomodoro_st_update_label w : Pomodoro.st (update_label w) = Pomodoro.st w.
Proof. destruct (pomodoro_update_label_text w) as [t ->]. reflexivity. Qed.

Lemma pomodoro_sch_update_label w : Pomodoro.sch (update_label w) = Pomodoro.sch w.
Proof. destruct (pomodoro_update_label_text w) as [t ->]. reflexivity. Qed.

(** A tick of a running timer with time left. *)
Lemma tick_counts w :
  Pomodoro.running (Pomodoro.st w) = true -> Pomodoro.paused (Pomodoro.st w) = false ->
  0 < Pomodoro.remaining (Pomodoro.st w) ->
  Pomodoro.st (tick w)
  = Pomodoro.set_job (Some (next_handle (Pomodoro.sch w)))
      (Pomodoro.set_remaining (Pomodoro.remaining (Pomodoro.st w) - 1) (Pomodoro.st w)) /\
  Pomodoro.sch (tick w)
  = Sched (S (next_handle (Pomodoro.sch w)))
          (<[next_handle (Pomodoro.sch w) := (1000, Pomodoro.CbTick)]> (pending (Pomodoro.sch w))).
Proof.
  intros Hr Hp Hrem. unfold Pomodoro.tick. rewrite Hr, Hp. cbn [negb orb].
  destruct (Z.ltb_spec 0 (Pomodoro.remaining (Pomodoro.st w))); [|lia].
  cbv zeta.
  match goal with |- context [update_label ?x] =>
    destruct (pomodoro_update_label_text x) as [t ->] end.
  unfold after. split; reflexivity.
Qed.

Lemma resume_counting_counts w :
  0 < Pomodoro.remaining (Pomodoro.st w) ->
  Pomodoro.st (resume_counting w)
  = Pomodoro.set_job (Some (next_handle (Pomodoro.sch w)))
      (Pomodoro.set_remaining (Pomodoro.remaining (Pomodoro.st w) - 1)
         (Pomodoro.set_paused false (Pomodoro.set_running true (Pomodoro.st w)))) /\
  Pomodoro.sch (resume_counting w)
  = Sched (S (next_handle (Pomodoro.sch w)))
          (<[next_handle (Pomodoro.sch w) := (1000, Pomodoro.CbTick)]> (pending (Pomodoro.sch w))).
Proof.
  intros Hrem. unfold Pomodoro.resume_counting.
  match goal with |- context [tick ?x] =>
    destruct (tick_counts x) as [-> ->] end.
  - rewrite pomodoro_st_update_label. reflexivity.
  - rewrite pomodoro_st_update_label. reflexivity.
  - rewrite pomodoro_st_update_label. exact Hrem.
  - rewrite pomodoro_st_update_label, pomodoro_sch_update_label. split; reflexivity.
Qed.

Lemma pomodoro_drop_job w :
  Pomodoro.st (Pomodoro.drop_job w) = Pomodoro.set_job None (Pomodoro.st w) /\
  Pomodoro.sch (Pomodoro.drop_job w) = cancel_if_set (Pomodoro.job (Pomodoro.st w)) (Pomodoro.sch w) /\
  Pomodoro.edit_dialogs (Pomodoro.drop_job w) = Pomodoro.edit_dialogs w.
Proof.
  destruct w as [[r p j cj ph rem sc cs] tx s lg nt ed ce].
  destruct j; repeat split.
Qed.


Local Arguments Pomodoro.update_label : simpl never.
Local Arguments Pomodoro.tick : simpl never.
Local Arguments Pomodoro.resume_counting : simpl never.

Ltac use_tick :=
  match goal with |- context [tick ?x] =>
    let Hst := fresh "Hst" in let Hsch := fresh "Hsch" in
    destruct (tick_counts x) as [Hst Hsch];
    [rewrite ?pomodoro_st_update_label; try reflexivity; try assumption; try lia ..
    |rewrite ?Hst, ?Hsch, ?pomodoro_st_update_label, ?pomodoro_sch_update_label]
  end.

Ltac use_resume :=
  match goal with |- context [resume_counting ?x] =>
    let Hst := fresh "Hst" in let Hsch := fresh "Hsch" in
    destruct (resume_counting_counts x) as [Hst Hsch];
    [try assumption; try lia
    |rewrite ?Hst, ?Hsch]
  end.


Lemma next_handle_cancel_if_set {cb : Type} (j : option nat) (s : sched cb) :
  next_handle (cancel_if_set j s) = next_handle s.
Proof. destruct j; reflexivity. Qed.

(** Projections through the setters of the world. *)
Lemma st_set_st f w : Pomodoro.st (Pomodoro.set_st f w) = f (Pomodoro.st w).
Proof. reflexivity. Qed.
Lemma sch_set_st f w : Pomodoro.sch (Pomodoro.set_st f w) = Pomodoro.sch w.
Proof. reflexivity. Qed.
Lemma st_logger_info e w : Pomodoro.st (Pomodoro.logger_info e w) = Pomodoro.st w.
Proof. reflexivity. Qed.
Lemma sch_logger_info e w : Pomodoro.sch (Pomodoro.logger_info e w) = Pomodoro.sch w.
Proof. reflexivity. Qed.
Lemma st_edit_button w : Pomodoro.st (Pomodoro.edit_button w) = Pomodoro.st w.
Proof. reflexivity. Qed.
Lemma sch_edit_button w : Pomodoro.sch (Pomodoro.edit_button w) = Pomodoro.sch w.
Proof. reflexivity. Qed.

Ltac project :=
  rewrite ?st_edit_button, ?sch_edit_button, ?st_logger_info, ?sch_logger_info,
    ?st_set_st, ?sch_set_st.

(** After the held tick is dropped, [resume_counting] on a world [x] that
    differs from it in the state only. *)
Lemma resume_after_drop w x (f : Pomodoro.state -> Pomodoro.state) :
  Pomodoro.st x = f (Pomodoro.st (Pomodoro.drop_job w)) ->
  Pomodoro.sch x = Pomodoro.sch (Pomodoro.drop_job w) ->
  0 < Pomodoro.remaining (f (Pomodoro.set_job None (Pomodoro.st w))) ->
  Pomodoro.st (resume_counting x)
  = Pomodoro.set_job (Some (next_handle (Pomodoro.sch w)))
      (Pomodoro.set_remaining (Pomodoro.remaining (f (Pomodoro.set_job None (Pomodoro.st w))) - 1)
         (Pomodoro.set_paused false
            (Pomodoro.set_running true (f (Pomodoro.set_job None (Pomodoro.st w)))))) /\
  Pomodoro.sch (resume_counting x)
  = Sched (S (next_handle (Pomodoro.sch w)))
          (<[next_handle (Pomodoro.sch w) := (1000, Pomodoro.CbTick)]>
             (pending (cancel_if_set (Pomodoro.job (Pomodoro.st w)) (Pomodoro.sch w)))).
Proof.
  intros Hxs Hxc Hrem.
  destruct (pomodoro_drop_job w) as (Hds & Hdsch & _).
  rewrite Hds in Hxs. rewrite Hdsch in Hxc.
  destruct (resume_counting_counts x) as [Hst Hsch].
  { rewrite Hxs. exact Hrem. }
  rewrite Hst, Hsch, Hxs, Hxc, next_handle_cancel_if_set. split; reflexivity.
Qed.

(** The right click on a running Pomodoro, by the phase it is in. *)
Lemma right_click_from_work w :
  0 < short_break_duration -> 0 < long_break_duration ->
  sessions_before_long_break <> 0 ->
  Pomodoro.running (Pomodoro.st w) = true ->
  Pomodoro.current_phase (Pomodoro.st w) = Pomodoro.work ->
  let s := Pomodoro.st w in
  let right := Pomodoro.on_right_click work_duration short_break_duration long_break_duration
                 sessions_before_long_break auto_advance orig_label tr w in
  let n := Pomodoro.sessions_completed s + 1 in
  let long := n mod sessions_before_long_break =? 0 in
  Pomodoro.st right
  = Pomodoro.State true false (Some (next_handle (Pomodoro.sch w))) (Pomodoro.clear_job s)
      (if long then Pomodoro.long_break else Pomodoro.short_break)
      ((if long then long_break_duration else short_break_duration) - 1)
      n (Pomodoro.current_session s) /\
  Pomodoro.sch right
  = Sched (S (next_handle (Pomodoro.sch w)))
          (<[next_handle (Pomodoro.sch w) := (1000, Pomodoro.CbTick)]>
             (pending (cancel_if_set (Pomodoro.job s) (Pomodoro.sch w)))).
Proof.
  intros Hs Hl Hn Hr Hph. cbv zeta.
  unfold Pomodoro.on_right_click, Pomodoro.skip_phase. rewrite Hr.
  unfold Pomodoro.advance_phase.
  destruct (pomodoro_drop_job w) as (Hds & _ & _).
  rewrite Hds.
  change (Pomodoro.current_phase (Pomodoro.set_job None (Pomodoro.st w)))
    with (Pomodoro.current_phase (Pomodoro.st w)).
  change (Pomodoro.sessions_completed (Pomodoro.set_job None (Pomodoro.st w)))
    with (Pomodoro.sessions_completed (Pomodoro.st w)).
  rewrite Hph. cbv beta iota zeta.
  destruct (Z.eqb_spec sessions_before_long_break 0) as [|_]; [contradiction|].
  destruct (_ mod _ =? 0); project.
  - match goal with |- context [resume_counting ?x] =>
      destruct (resume_after_drop w x
                  (fun s => Pomodoro.set_remaining long_break_duration
                              (Pomodoro.set_phase Pomodoro.long_break
                                 (Pomodoro.set_sessions_completed
                                    (Pomodoro.sessions_completed (Pomodoro.st w) + 1) s))))
        as [-> ->] end;
      [project; reflexivity | project; reflexivity | exact Hl |].
    destruct (Pomodoro.st w). split; reflexivity.
  - match goal with |- context [resume_counting ?x] =>
      destruct (resume_after_drop w x
                  (fun s => Pomodoro.set_remaining short_break_duration
                              (Pomodoro.set_phase Pomodoro.short_break
                                 (Pomodoro.set_sessions_completed
                                    (Pomodoro.sessions_completed (Pomodoro.st w) + 1) s))))
        as [-> ->] end;
      [project; reflexivity | project; reflexivity | exact Hs |].
    destruct (Pomodoro.st w). split; reflexivity.
Qed.

Lemma right_click_from_break w :
  0 < work_duration ->
  Pomodoro.running (Pomodoro.st w) = true ->
  Pomodoro.current_phase (Pomodoro.st w) = Pomodoro.short_break
  \/ Pomodoro.current_phase (Pomodoro.st w) = Pomodoro.long_break ->
  let s := Pomodoro.st w in
  let right := Pomodoro.on_right_click work_duration short_break_duration long_break_duration
                 sessions_before_long_break auto_advance orig_label tr w in
  Pomodoro.st right
  = Pomodoro.State true false (Some (next_handle (Pomodoro.sch w))) (Pomodoro.clear_job s)
      Pomodoro.work (work_duration - 1)
      (Pomodoro.sessions_completed s) (Pomodoro.sessions_completed s + 1) /\
  Pomodoro.sch right
  = Sched (S (next_handle (Pomodoro.sch w)))
          (<[next_handle (Pomodoro.sch w) := (1000, Pomodoro.CbTick)]>
             (pending (cancel_if_set (Pomodoro.job s) (Pomodoro.sch w)))).
Proof.
  intros Hw Hr Hph. cbv zeta.
  unfold Pomodoro.on_right_click, Pomodoro.skip_phase. rewrite Hr.
  unfold Pomodoro.advance_phase.
  destruct (pomodoro_drop_job w) as (Hds & _ & _).
  rewrite Hds.
  change (Pomodoro.current_phase (Pomodoro.set_job None (Pomodoro.st w)))
    with (Pomodoro.current_phase (Pomodoro.st w)).
  change (Pomodoro.sessions_completed (Pomodoro.set_job None (Pomodoro.st w)))
    with (Pomodoro.sessions_completed (Pomodoro.st w)).
  destruct Hph as [Hph | Hph]; rewrite Hph; cbv beta iota zeta; project;
    (match goal with |- context [resume_counting ?x] =>
       destruct (resume_after_drop w x
                   (fun s => Pomodoro.set_current_session
                               (Pomodoro.sessions_completed (Pomodoro.st w) + 1)
                               (Pomodoro.set_remaining work_duration
                                  (Pomodoro.set_phase Pomodoro.work s))))
         as [-> ->] end;
     [project; reflexivity | project; reflexivity | exact Hw |]);
    destruct (Pomodoro.st w); split; reflexivity.
Qed.

Lemma pomodoro_gestures_hold :
  0 < work_duration -> 0 < short_break_duration -> 0 < long_break_duration ->
  sessions_before_long_break <> 0 ->
  pomodoro_gestures work_duration short_break_duration long_break_duration
    sessions_before_long_break auto_advance orig_label tr.
Proof.
  intros Hw Hs Hl Hn [[r p j cj ph rem sc cs] tx [n pd] lg nt ed ce]. cbv zeta.
  cbn [Pomodoro.st Pomodoro.sch Pomodoro.running Pomodoro.paused Pomodoro.job
       Pomodoro.clear_job Pomodoro.current_phase Pomodoro.remaining
       Pomodoro.sessions_completed Pomodoro.current_session next_handle Pomodoro.edit_dialogs].
  unfold Pomodoro.step.
  split; [|split; [|split; [|split; [|split; [|split]]]]].
  - intros ->. unfold Pomodoro.start_pomodoro. cbv zeta.
    cbn [Pomodoro.current_phase Pomodoro.st].
    rewrite pomodoro_st_update_label.
    match goal with |- context [if ?c then _ else _] => change c with true end. cbv iota.
    unfold pomodoro_ticking. use_tick.
    split; [reflexivity|]. eexists. split; [reflexivity|]. apply lookup_insert_eq.
  - intros Hp ->. unfold Pomodoro.start_pomodoro. cbv zeta.
    cbn [Pomodoro.current_phase Pomodoro.st Pomodoro.paused].
    assert (Hc : forall w1 w2 : Pomodoro.world,
              Pomodoro.st (if r && false then w1 else w2) = Pomodoro.st w2
              /\ Pomodoro.sch (if r && false then w1 else w2) = Pomodoro.sch w2)
      by (intros; rewrite andb_false_r; split; reflexivity).
    destruct ph; try congruence;
      rewrite pomodoro_st_update_label;
      match goal with |- context [if ?c then ?a else ?b] =>
        change c with (r && false); destruct (Hc a b) as [-> ->] end;
      rewrite pomodoro_st_update_label, pomodoro_sch_update_label; split; reflexivity.
  - intros Hp -> -> Hrem. unfold Pomodoro.start_pomodoro. cbv zeta.
    cbn [Pomodoro.current_phase Pomodoro.st Pomodoro.paused].
    unfold pomodoro_ticking.
    destruct ph; try congruence;
      rewrite pomodoro_st_update_label;
      match goal with |- context [if ?c then _ else _] => change c with true end; cbv iota;
      use_tick; (split; [reflexivity|]); eexists; (split; [reflexivity|]);
      apply lookup_insert_eq.
  - intros Hr Hph.
    exact (right_click_from_work
             (Pomodoro.World (Pomodoro.State r p j cj ph rem sc cs) tx (Sched n pd) lg nt ed ce)
             Hs Hl Hn Hr Hph).
  - intros Hr Hph.
    exact (right_click_from_break
             (Pomodoro.World (Pomodoro.State r p j cj ph rem sc cs) tx (Sched n pd) lg nt ed ce)
             Hw Hr Hph).
  - intros ->. unfold Pomodoro.on_right_click, Pomodoro.skip_phase. cbn.
    repeat split.
  - unfold Pomodoro.reset_pomodoro. cbv zeta.
    rewrite pomodoro_update_label_ready by reflexivity.
    destruct j, cj; cbn; repeat split.

Qed.

End PomodoroGestures.

(** C7, as stated, fails on the timer button: a right click on a running
    timer cancels nothing and skips nothing; the tick stays scheduled, the
    countdown stands where it was, and the edit dialog opens. *)
Lemma C7_timer_right_click_skips_nothing :
  let w := Timer.run 60 "Timer" (Timer.init 60 "Timer") [Timer.Button1] in
  let w' := Timer.step 60 "Timer" w Timer.Button3 in
  Timer.job (Timer.st w) = Some 0%nat /\
  pending (Timer.sch w') !! 0%nat = Some (1000, Timer.CbTick) /\
  Timer.st w' = Timer.st w /\
  Timer.text w' = "0:00:59" /\
  Timer.edit_dialogs w' = 1%nat.
Proof. vm_compute. repeat split. Qed.

(** C7 (amended).  On a timer button the left click starts, pauses and
    resumes the countdown, the double click resets it to idle with the
    full duration and cancels the held tick, and the right click opens the
    edit dialog without touching the countdown.  On a Pomodoro button the
    left click starts the first work session, pauses and resumes; the
    right click, while the timer runs, cancels the held tick and enters
    the next phase at once, and otherwise only opens the edit dialog; the
    double click resets to [ready] and cancels the held tick and clear
    handles. *)
Theorem C7_gestures_of_the_timer_buttons
    (total_seconds : Z) (timer_label : string)
    (work_duration short_break_duration long_break_duration sessions_before_long_break : Z)
    (auto_advance : bool) (orig_label : string) (tr : string -> string) :
  0 < total_seconds ->
  0 < work_duration -> 0 < short_break_duration -> 0 < long_break_duration ->
  sessions_before_long_break <> 0 ->
  timer_gestures total_seconds timer_label /\
  pomodoro_gestures work_duration short_break_duration long_break_duration
    sessions_before_long_break auto_advance orig_label tr.
Proof.
  intros HT Hw Hs Hl Hn. split.
  - apply timer_gestures_hold, HT.
  - apply pomodoro_gestures_hold; assumption.
Qed.

(** C7 on a one-minute timer and a 25/5/15 Pomodoro with a long break
    after every fourth session. *)
Lemma C7_witness_default_buttons :
  timer_gestures 60 "Timer" /\ pomodoro_gestures 1500 300 900 4 true "Pomodoro" id.
Proof.
  exact (C7_gestures_of_the_timer_buttons 60 "Timer" 1500 300 900 4 true "Pomodoro" id
           ltac:(lia) ltac:(lia) ltac:(lia) ltac:(lia) ltac:(lia)).
Defined.

(** ** Callbacks that outlive a reset *)

(** A one-minute work session of a Pomodoro with auto-advance runs to its
    end: the click, the 59 ticks that count down to zero, and the tick
    that finds zero and completes the phase.  A second later the user
    double-clicks: the first press is a left click, the second the reset. *)
Definition work_minute_then_reset : list Pomodoro.event :=
  Pomodoro.Button1 :: map Pomodoro.Fire (seq 0 60)
    ++ [Pomodoro.Button1; Pomodoro.DoubleButton1].

(** C4 fails on the Pomodoro button.  The completion of a phase schedules
    [advance_phase] without keeping its handle, and the reset cancels only
    the handles the state holds: after the reset the button is [ready]
    and not running, yet the callback of the completed phase is still
    scheduled, and when it comes due it sets the timer running again and
    starts a countdown. *)
Lemma C4_auto_advance_outlives_the_reset :
  let go := Pomodoro.run 60 300 900 4 true "Pomodoro" id in
  let w := go (Pomodoro.init 60 "Pomodoro") work_minute_then_reset in
  let w' := go w [Pomodoro.Fire 61] in
  Pomodoro.st w = Pomodoro.State false false None None Pomodoro.ready 60 0 1 /\
  pending (Pomodoro.sch w) !! 61%nat = Some (3000, Pomodoro.CbAdvancePhase) /\
  Pomodoro.st w' = Pomodoro.State true false (Some 62%nat) None Pomodoro.ready 59 0 1 /\
  pending (Pomodoro.sch w') !! 62%nat = Some (1000, Pomodoro.CbTick).
Proof. vm_compute. repeat split. Qed.

(** Pausing does not cancel the tick either: resumed within the second,
    the old tick and the new one both count, two seconds for one. *)
Example pause_resume_doubles_the_ticks :
  let w := Pomodoro.run 60 300 900 4 true "Pomodoro" id (Pomodoro.init 60 "Pomodoro")
             [Pomodoro.Button1; Pomodoro.Button1; Pomodoro.Button1;
              Pomodoro.Fire 0; Pomodoro.Fire 1] in
  Pomodoro.remaining (Pomodoro.st w) = 56 /\
  pending (Pomodoro.sch w) !! 2%nat = Some (1000, Pomodoro.CbTick) /\
  pending (Pomodoro.sch w) !! 3%nat = Some (1000, Pomodoro.CbTick).
Proof. vm_compute. repeat split. Qed.

(** A work session that runs to its end is followed by no break: the
    completed phase is [complete], which [advance_phase] leaves as it is,
    so the auto-advance only completes again. *)
Example natural_completion_enters_no_break :
  let w := Pomodoro.run 60 300 900 4 true "Pomodoro" id (Pomodoro.init 60 "Pomodoro")
             (Pomodoro.Button1 :: map Pomodoro.Fire (seq 0 60) ++ [Pomodoro.Fire 61]) in
  Pomodoro.current_phase (Pomodoro.st w) = Pomodoro.complete /\
  Pomodoro.sessions_completed (Pomodoro.st w) = 0 /\
  Pomodoro.notifications w = 2%nat.
Proof. vm_compute. repeat split. Qed.

(** * Further properties *)

(** ** Probe buttons: the clear job *)

Section ProbeClearJob.
Context {result outcome : Type}.
Variable body : outcome -> result.
Variable render : result -> option string.
Variables working_label orig_label : string.

Local Abbreviation world := (Probe.world (result := result)).
Local Abbreviation step := (Probe.step body render working_label orig_label).
Local Abbreviation run := (Probe.run body render working_label orig_label).
Local Abbreviation update_label := (Probe.update_label render working_label orig_label).

(** The handle in [state["clear_job"]] and the scheduled
    [clear_results] callbacks go together: a scheduled one is the held
    one, the held handle names no other callback, and handles are fresh. *)
Definition clear_job_held (w : world) : Prop :=
  (forall h d, pending (Probe.sch w) !! h = Some (d, Probe.CbClearResults) ->
     Probe.clear_job (Probe.st w) = Some h) /\
  (forall h d f, Probe.clear_job (Probe.st w) = Some h ->
     pending (Probe.sch w) !! h = Some (d, f) -> f = Probe.CbClearResults) /\
  (forall h, is_Some (pending (Probe.sch w) !! h) -> (h < next_handle (Probe.sch w))%nat) /\
  (forall h, Probe.clear_job (Probe.st w) = Some h -> (h < next_handle (Probe.sch w))%nat).

Lemma probe_update_label_sch (w : world) : Probe.sch (update_label w) = Probe.sch w.
Proof.
  unfold Probe.update_label.
  destruct (Probe.running (Probe.st w)); [reflexivity|].
  destruct (Probe.results (Probe.st w)) as [r|]; [|reflexivity].
  destruct (render r); reflexivity.
Qed.

Lemma clear_job_held_update_label (w : world) : clear_job_held w -> clear_job_held (update_label w).
Proof.
  unfold clear_job_held. rewrite probe_update_label_sch, update_label_st. trivial.
Qed.

(** Dropping the held clear job leaves no [clear_results] scheduled. *)
Lemma clear_job_held_drop (w : world) :
  clear_job_held w ->
  clear_job_held (Probe.drop_clear_job w) /\
  Probe.clear_job (Probe.st (Probe.drop_clear_job w)) = None.
Proof.
  destruct w as [[r res cj] tx [n pd] th]. unfold clear_job_held, Probe.drop_clear_job.
  cbn. intros (H1 & H2 & H3 & H4). destruct cj as [c|]; cbn.
  - split; [|reflexivity]. repeat split.
    + intros h d Hh. apply lookup_delete_Some in Hh as [Hne Hh].
      specialize (H1 h d Hh). congruence.
    + intros h d f Hc. discriminate.
    + intros h [x Hh]. apply lookup_delete_Some in Hh as [_ Hh]. apply H3. eauto.
    + intros h Hc. discriminate.
  - split; [|reflexivity]. repeat split; assumption.
Qed.

Lemma clear_job_held_step (w : world) e : clear_job_held w -> clear_job_held (step w e).
Proof.
  intros Hw. destruct e as [|h|i o]; unfold Probe.step.
  - unfold Probe.start. destruct (Probe.running (Probe.st w)); [exact Hw|].
    cbv zeta. destruct (clear_job_held_drop w Hw) as [Hd _].
    match goal with |- clear_job_held (Probe.set_threads _ ?x) =>
      assert (Hx : clear_job_held x) end.
    { apply clear_job_held_update_label. exact Hd. }
    exact Hx.
  - destruct (due h (Probe.sch w)) as [[f s]|] eqn:E; [|exact Hw].
    unfold due in E. destruct (pending (Probe.sch w) !! h) as [[d g]|] eqn:Hh; [|discriminate].
    injection E as <- <-.
    destruct w as [[r res cj] tx [n pd] th]. cbn in Hh.
    destruct Hw as (H1 & H2 & H3 & H4). cbn in H1, H2, H3, H4.
    destruct g; unfold Probe.run_callback.
    + apply clear_job_held_update_label. unfold clear_job_held. cbn. repeat split.
      * intros h' d' Hh'. apply lookup_delete_Some in Hh' as [_ Hh']. eauto.
      * intros h' d' f -> Hh'. apply lookup_delete_Some in Hh' as [_ Hh']. eauto.
      * intros h' [x Hh']. apply lookup_delete_Some in Hh' as [_ Hh']. apply H3. eauto.
      * exact H4.
    + unfold Probe.clear_results. apply clear_job_held_update_label.
      apply clear_job_held_drop. unfold clear_job_held. cbn. repeat split.
      * intros h' d' Hh'. apply lookup_delete_Some in Hh' as [Hne Hh'].
        pose proof (H1 _ _ Hh) as Ha. pose proof (H1 _ _ Hh') as Hb. congruence.
      * intros h' d' f -> Hh'. apply lookup_delete_Some in Hh' as [_ Hh']. eauto.
      * intros h' [x Hh']. apply lookup_delete_Some in Hh' as [_ Hh']. apply H3. eauto.
      * exact H4.
  - unfold Probe.worker_step.
    destruct (Probe.threads w !! i) as [[| | |]|]; try exact Hw.
    + destruct w as [[r res cj] tx [n pd] th].
      destruct Hw as (H1 & H2 & H3 & H4). cbn in H1, H2, H3, H4.
      unfold clear_job_held, after, cancel_if_set, after_cancel. destruct cj as [c|]; cbn.
      * pose proof (H4 c eq_refl) as Hc. repeat split.
        -- intros h d Hh. apply lookup_insert_Some in Hh as [[<- _]|[Hne Hh]]; [reflexivity|].
           apply lookup_delete_Some in Hh as [Hnc Hh].
           apply lookup_insert_Some in Hh as [[_ [=]]|[_ Hh]].
           specialize (H1 _ _ Hh). congruence.
        -- intros h d f [= <-] Hh. apply lookup_insert_Some in Hh as [[_ [= _ <-]]|[Hne _]];
             [reflexivity|congruence].
        -- intros h [x Hh]. apply lookup_insert_Some in Hh as [[<- _]|[_ Hh]]; [lia|].
           apply lookup_delete_Some in Hh as [_ Hh].
           apply lookup_insert_Some in Hh as [[<- _]|[_ Hh]]; [lia|].
           assert (h < n)%nat by (apply H3; eauto). lia.
        -- intros h [= <-]. lia.
      * repeat split.
        -- intros h d Hh. apply lookup_insert_Some in Hh as [[<- _]|[Hne Hh]]; [reflexivity|].
           apply lookup_insert_Some in Hh as [[_ [=]]|[_ Hh]].
           specialize (H1 _ _ Hh). discriminate.
        -- intros h d f [= <-] Hh. apply lookup_insert_Some in Hh as [[_ [= _ <-]]|[Hne _]];
             [reflexivity|congruence].
        -- intros h [x Hh]. apply lookup_insert_Some in Hh as [[<- _]|[_ Hh]]; [lia|].
           apply lookup_insert_Some in Hh as [[<- _]|[_ Hh]]; [lia|].
           assert (h < n)%nat by (apply H3; eauto). lia.
        -- intros h [= <-]. lia.
Qed.

Lemma clear_job_held_run es : forall w : world, clear_job_held w -> clear_job_held (run w es).
Proof.
  induction es as [|e es IH]; intros w Hw; [exact Hw|].
  simpl. apply IH, clear_job_held_step, Hw.
Qed.

Lemma clear_job_held_init : clear_job_held (Probe.init (result := result) orig_label).
Proof.
  unfold clear_job_held. cbn. repeat split; try discriminate.
  intros h [x Hx]. rewrite lookup_empty in Hx. discriminate.
Qed.

End ProbeClearJob.

(** X1.  At any time at most one [clear_results] callback of a probe
    button is scheduled, and it is the one whose handle the state holds in
    ["clear_job"]. *)
Theorem X1_one_clear_job_at_a_time {result outcome : Type}
    (body : outcome -> result) (render : result -> option string)
    (working_label orig_label : string) (es : list Probe.event) (h : nat) (d : Z) :
  let w := Probe.run body render working_label orig_label (Probe.init orig_label) es in
  pending (Probe.sch w) !! h = Some (d, Probe.CbClearResults) ->
  Probe.clear_job (Probe.st w) = Some h /\
  forall h' d', pending (Probe.sch w) !! h' = Some (d', Probe.CbClearResults) -> h' = h.
Proof.
  intros w Hh.
  assert (Hw : clear_job_held w).
  { apply clear_job_held_run, clear_job_held_init. }
  destruct Hw as (H1 & _). split; [eauto|].
  intros h' d' Hh'. pose proof (H1 _ _ Hh). pose proof (H1 _ _ Hh'). congruence.
Qed.

(** X1 on a ping button after one failed probe. *)
Lemma X1_witness_after_a_probe :
  let w := Ping.run "8.8.8.8" "Ping" id (Ping.init "Ping") (activation 0 0 ping_down) in
  Probe.clear_job (Probe.st w) = Some 1%nat /\
  forall h' d', pending (Probe.sch w) !! h' = Some (d', Probe.CbClearResults) -> h' = 1%nat.
Proof.
  exact (X1_one_clear_job_at_a_time (Ping.run_ping_body "8.8.8.8") (Ping.render id)
           "Pinging..." "Ping" (activation 0 0 ping_down) 1%nat 60000 eq_refl).
Defined.

(** X2.  When the held clear job of a probe that is not running comes
    due, the button shows its original label again, the result is gone,
    no clear job is held and none is scheduled. *)
Theorem X2_clear_job_restores_the_label {result outcome : Type}
    (body : outcome -> result) (render : result -> option string)
    (working_label orig_label : string) (es : list Probe.event) (h : nat) :
  let w := Probe.run body render working_label orig_label (Probe.init orig_label) es in
  let w' := Probe.step body render working_label orig_label w (Probe.Fire h) in
  Probe.running (Probe.st w) = false ->
  Probe.clear_job (Probe.st w) = Some h ->
  is_Some (pending (Probe.sch w) !! h) ->
  Probe.text w' = orig_label /\
  Probe.results (Probe.st w') = None /\
  Probe.clear_job (Probe.st w') = None /\
  forall h' d', pending (Probe.sch w') !! h' <> Some (d', Probe.CbClearResults).
Proof.
  intros w w' Hr Hc [[d f] Hh].
  assert (Hw : clear_job_held w).
  { apply clear_job_held_run, clear_job_held_init. }
  assert (Hw' : clear_job_held w').
  { apply clear_job_held_step, Hw. }
  assert (Hf : f = Probe.CbClearResults).
  { destruct Hw as (_ & H2 & _). eapply H2; eauto. }
  subst f.
  assert (E : Probe.text w' = orig_label /\ Probe.results (Probe.st w') = None
              /\ Probe.clear_job (Probe.st w') = None).
  { subst w'. unfold Probe.step, due. rewrite Hh.
    destruct w as [[r res cj] tx [n pd] th]. cbn in Hr, Hc. subst r cj.
    unfold Probe.run_callback, Probe.clear_results, Probe.drop_clear_job, Probe.update_label.
    cbn. repeat split. }
  destruct E as (Et & Er & Ec). repeat split; try assumption.
  intros h' d' Hh'. destruct Hw' as (H1 & _). specialize (H1 _ _ Hh'). congruence.
Qed.

(** X2 on a ping button a minute after a failed probe. *)
Lemma X2_witness_a_minute_later :
  let w := Ping.run "8.8.8.8" "Ping" id (Ping.init "Ping") (activation 0 0 ping_down) in
  let w' := Ping.step "8.8.8.8" "Ping" id w (Probe.Fire 1) in
  Probe.text w' = "Ping" /\
  Probe.results (Probe.st w') = None /\
  Probe.clear_job (Probe.st w') = None /\
  forall h' d', pending (Probe.sch w') !! h' <> Some (d', Probe.CbClearResults).
Proof.
  exact (X2_clear_job_restores_the_label (Ping.run_ping_body "8.8.8.8") (Ping.render id)
           "Pinging..." "Ping" (activation 0 0 ping_down) 1%nat
           eq_refl eq_refl (ex_intro _ (60000, Probe.CbClearResults) eq_refl)).
Defined.

(** ** The ping worker and its rendering *)

(** X3.  Whatever the blocking calls of [run_ping] do, the result it
    stores is for the configured host, carries a time exactly when it is
    a success, and is one that [update_label] can render. *)
Theorem X3_every_ping_result_renders
    (ping_host : string) (tr : string -> string) (o : Ping.ping_outcome) :
  let r := Ping.run_ping_body ping_host o in
  Ping.host r = ping_host /\
  (Ping.success r = true <-> is_Some (Ping.ping_time r)) /\
  is_Some (Ping.render tr r).
Proof.
  cbv zeta.
  assert (Hf : Ping.host (Ping.failed ping_host) = ping_host /\
               (Ping.success (Ping.failed ping_host) = true
                <-> is_Some (Ping.ping_time (Ping.failed ping_host))) /\
               is_Some (Ping.render tr (Ping.failed ping_host))).
  { cbn. split; [reflexivity|]. split; [|eauto].
    split; [discriminate|]. intros [x Hx]. discriminate. }
  assert (Hs : forall t, let r := Ping.PingResult (Some t) true ping_host in
               Ping.host r = ping_host /\
               (Ping.success r = true <-> is_Some (Ping.ping_time r)) /\
               is_Some (Ping.render tr r)).
  { intros t. cbn. split; [reflexivity|]. split; [split; eauto|eauto]. }
  assert (Hk : let r := Ping.socket_ping ping_host o in
               Ping.host r = ping_host /\
               (Ping.success r = true <-> is_Some (Ping.ping_time r)) /\
               is_Some (Ping.render tr r)).
  { unfold Ping.socket_ping. destruct (Ping.connect o); [apply Hs|exact Hf]. }
  unfold Ping.run_ping_body.
  destruct (Ping.first_run o) as [rc ts| |]; [|exact Hk|exact Hf].
  destruct (rc =? 0); [|exact Hf].
  destruct (Ping.second_run o) as [rc2 ts2| |]; [|exact Hk|exact Hf].
  destruct (rc2 =? 0); [|exact Hf].
  destruct ts2; [exact Hf|apply Hs].
Qed.

(** ** The addresses the HTTP test asks for *)


Lemma prefix_app (p u : string) : String.prefix p (p +:+ u) = true.
Proof.
  induction p as [|c p IH].
  - destruct u; reflexivity.
  - change (String c p +:+ u) with (String c (p +:+ u)). cbn.
    destruct (ascii_dec c c); [exact IH|congruence].
Qed.




(** ** What the HTTP test takes for a success *)

Lemma graded_success sc t hs cv :
  HttpTest.status (HttpTest.graded sc t hs cv) = "success" <-> sc < 400.
Proof.
  unfold HttpTest.graded. destruct (Z.ltb_spec sc 400); cbn; split; try lia; try discriminate.
  reflexivity.
Qed.

Lemma graded_fields sc t hs cv :
  HttpTest.https_status (HttpTest.graded sc t hs cv) = hs /\
  HttpTest.cert_valid (HttpTest.graded sc t hs cv) = cv.
Proof. unfold HttpTest.graded. destruct (sc <? 400); split; reflexivity. Qed.

(** X5.  The HTTP test records a success exactly when the request that
    decides got a response with a status below 400, and the result that
    earns the closed lock (a success over HTTPS with a valid certificate)
    exactly when the certificate-checked request itself got such a
    response. *)
Theorem X5_success_and_closed_lock (o : HttpTest.http_outcome) :
  let r := HttpTest.run_http_test_body o in
  (HttpTest.status r = "success"
   <-> exists sc t, graded_response o = Some (sc, t) /\ sc < 400) /\
  (HttpTest.status r = "success" /\ HttpTest.https_status r = "https"
   /\ HttpTest.cert_valid r = true
   <-> exists sc t, HttpTest.https_verified o = HttpTest.Response sc t /\ sc < 400).
Proof.
  cbv zeta. destruct o as [v u p].
  unfold HttpTest.run_http_test_body, HttpTest.try_plain_http, graded_response.
  cbn [HttpTest.https_verified HttpTest.https_unverified HttpTest.plain_http].
  assert (G : forall sc t hs cv,
            (HttpTest.status (HttpTest.graded sc t hs cv) = "success"
             <-> exists sc' t', Some (sc, t) = Some (sc', t') /\ sc' < 400)).
  { intros. rewrite graded_success. split.
    - intros H. eauto.
    - intros (sc' & t' & [= <- <-] & H). exact H. }
  assert (N : forall hs, (HttpTest.status (HttpTest.HttpResult "failed" 0%float hs false) = "success"
             <-> exists (sc' : Z) (t' : float), @None (Z * float) = Some (sc', t') /\ sc' < 400)).
  { intros. cbn. split; [discriminate|]. intros (? & ? & [=] & _). }
  split.
  - destruct v as [sc t| | |]; [apply G| |destruct p; [apply G|apply N..]|apply N].
    destruct u as [sc t| | |]; [apply G|destruct p; [apply G|apply N..]..].
  - destruct v as [sc t| | |].
    + destruct (graded_fields sc t "https" true) as [-> ->]. rewrite graded_success. split.
      * intros (H & _ & _). eauto.
      * intros (sc' & t' & [= <- <-] & H). auto.
    + split; [|intros (? & ? & [=] & _)].
      destruct u as [sc t| | |].
      * destruct (graded_fields sc t "https" false) as [_ ->]. intros (_ & _ & [=]).
      * destruct p as [sc t| | |];
          [destruct (graded_fields sc t "http" false) as [_ ->]|..]; intros (_ & _ & [=]).
      * destruct p as [sc t| | |];
          [destruct (graded_fields sc t "http" false) as [_ ->]|..]; intros (_ & _ & [=]).
      * destruct p as [sc t| | |];
          [destruct (graded_fields sc t "http" false) as [_ ->]|..]; intros (_ & _ & [=]).
    + split; [|intros (? & ? & [=] & _)].
      destruct p as [sc t| | |];
        [destruct (graded_fields sc t "http" false) as [_ ->]|..]; intros (_ & _ & [=]).
    + split; [|intros (? & ? & [=] & _)]. intros (_ & _ & [=]).
Qed.

(** ** The countdown timer over whole runs *)

Section TimerRuns.
Variable total_seconds : Z.
Variable orig_label : string.

Local Abbreviation step := (Timer.step total_seconds orig_label).
Local Abbreviation run := (Timer.run total_seconds orig_label).
Local Abbreviation init := (Timer.init total_seconds orig_label).

(** While the timer counts, the one pending callback is the tick under
    the held handle; otherwise nothing is pending. *)
Definition one_tick (w : Timer.world) : Prop :=
  if Timer.running (Timer.st w) && negb (Timer.paused (Timer.st w))
  then exists h, Timer.job (Timer.st w) = Some h /\
                 pending (Timer.sch w) = {[ h := (1000, Timer.CbTick) ]}
  else pending (Timer.sch w) = ∅.

Definition in_range (w : Timer.world) : Prop :=
  0 <= Timer.remaining (Timer.st w) <= total_seconds.

Lemma one_tick_tick st tx n nt ed :
  Timer.running st = true -> Timer.paused st = false ->
  one_tick (Timer.tick orig_label (Timer.World st tx (Sched n ∅) nt ed)).
Proof.
  destruct st as [r p rem j]. cbn. intros -> ->.
  unfold Timer.tick, Timer.update_label, one_tick, after. cbn.
  destruct (0 <? rem); cbn.
  - eexists. split; [reflexivity|]. apply insert_empty.
  - reflexivity.
Qed.

Lemma singleton_delete_other (h h' : nat) (e : Z * Timer.callback) :
  ({[ h := e ]} : gmap nat (Z * Timer.callback)) !! h' = Some e ->
  delete h' ({[ h := e ]} : gmap nat (Z * Timer.callback)) = ∅.
Proof.
  intros H. apply lookup_singleton_Some in H as [-> _]. apply delete_singleton_eq.
Qed.

Lemma one_tick_step w ev : one_tick w -> one_tick (step w ev).
Proof.
  destruct w as [[r p rem j] tx [n pd] nt ed]. intros Hw.
  unfold one_tick in Hw. cbn in Hw.
  destruct ev as [| | |h]; cbn [Timer.step].
  - (* click *)
    unfold Timer.pause_resume_timer. cbn [Timer.running Timer.paused Timer.st].
    destruct r; cbn [negb].
    + destruct p; cbn [negb].
      * cbn in Hw. subst pd. apply one_tick_tick; reflexivity.
      * destruct Hw as (h & -> & ->).
        unfold one_tick, Timer.drop_job, Timer.update_label, after_cancel. cbn.
        apply delete_singleton_eq.
    + cbn in Hw. subst pd. unfold Timer.start_timer. cbn [Timer.running Timer.st].
      apply one_tick_tick; reflexivity.
  - (* double click *)
    unfold one_tick, Timer.stop_timer, Timer.drop_job, Timer.update_label, after_cancel.
    destruct r, p; cbn in Hw |- *.
    + subst pd. destruct j; cbn; [apply delete_empty|reflexivity].
    + destruct Hw as (h & -> & ->). cbn. apply delete_singleton_eq.
    + subst pd. destruct j; cbn; [apply delete_empty|reflexivity].
    + subst pd. destruct j; cbn; [apply delete_empty|reflexivity].
  - (* right click *)
    unfold one_tick, Timer.edit_button. cbn. exact Hw.
  - (* a callback comes due *)
    unfold due. cbn [pending Timer.sch].
    destruct (pd !! h) as [[d f]|] eqn:Hh; [|exact Hw].
    destruct f. unfold after_cancel, Timer.set_sch.
    cbn [pending next_handle Timer.sch Timer.st Timer.text Timer.notifications
         Timer.edit_dialogs].
    destruct r; cbn in Hw.
    + destruct p; cbn in Hw.
      * subst pd. rewrite lookup_empty in Hh. discriminate.
      * destruct Hw as (h0 & -> & ->).
        apply lookup_singleton_Some in Hh as [<- _].
        rewrite delete_singleton_eq. apply one_tick_tick; reflexivity.
    + subst pd. rewrite lookup_empty in Hh. discriminate.
Qed.

Lemma in_range_step w ev : 0 <= total_seconds -> in_range w -> in_range (step w ev).
Proof.
  intros HT. destruct w as [[r p rem j] tx [n pd] nt ed]. unfold in_range. cbn.
  intros Hr.
  destruct ev as [| | |h]; cbn.
  - unfold Timer.pause_resume_timer, Timer.start_timer, Timer.tick, Timer.update_label,
      Timer.drop_job, after. cbn.
    destruct r; cbn.
    + destruct p; cbn.
      * destruct (Z.ltb_spec 0 rem); cbn; lia.
      * destruct j; cbn; lia.
    + destruct (Z.ltb_spec 0 total_seconds); cbn; lia.
  - unfold Timer.stop_timer, Timer.drop_job, Timer.update_label. cbn.
    destruct j; cbn; lia.
  - exact Hr.
  - unfold due. cbn. destruct (pd !! h) as [[d f]|]; [|exact Hr].
    destruct f. unfold Timer.tick, Timer.update_label, after. cbn.
    destruct r; cbn; [|exact Hr].
    destruct p; cbn; [exact Hr|].
    destruct (Z.ltb_spec 0 rem); cbn; lia.
Qed.

Lemma one_tick_run es w : one_tick w -> one_tick (run w es).
Proof.
  revert w. induction es as [|ev es IH]; intros w Hw; [exact Hw|].
  apply IH, one_tick_step, Hw.
Qed.

Lemma in_range_run es w : 0 <= total_seconds -> in_range w -> in_range (run w es).
Proof.
  intros HT. revert w. induction es as [|ev es IH]; intros w Hw; [exact Hw|].
  apply IH, in_range_step; assumption.
Qed.

(** A tick of a counting timer with time left. *)
Lemma timer_tick_counts st tx s nt ed :
  Timer.running st = true -> Timer.paused st = false -> 0 < Timer.remaining st ->
  exists tx',
    Timer.tick orig_label (Timer.World st tx s nt ed)
    = Timer.World (Timer.State true false (Timer.remaining st - 1) (Some (next_handle s))) tx'
        (Sched (S (next_handle s)) (<[next_handle s := (1000, Timer.CbTick)]> (pending s)))
        nt ed.
Proof.
  destruct st as [r p rem j]. cbn [Timer.running Timer.paused Timer.remaining].
  intros -> -> Hrem.
  cbv beta iota zeta delta
    [Timer.tick Timer.update_label Timer.set_st Timer.set_sch Timer.set_text Timer.set_job
     Timer.set_remaining Timer.running Timer.paused Timer.remaining Timer.job Timer.st
     Timer.text Timer.sch Timer.notifications Timer.edit_dialogs after negb orb].
  destruct (Z.ltb_spec 0 rem); [|lia].
  eexists. reflexivity.
Qed.

(** After the click that starts the timer and [k] ticks, with
    [k < total_seconds]: the count and the one tick waiting. *)
Lemma counting_down (k : nat) :
  Z.of_nat k < total_seconds ->
  exists tx,
    run init (Timer.Button1 :: map Timer.Fire (seq 0 k))
    = Timer.World (Timer.State true false (total_seconds - 1 - Z.of_nat k) (Some k)) tx
        (Sched (S k) {[ k := (1000, Timer.CbTick) ]}) 0 0.
Proof.
  induction k as [|k IH]; intros Hk.
  - cbn [seq map Timer.run fold_left Timer.step].
    cbv beta iota zeta delta
      [Timer.pause_resume_timer Timer.start_timer Timer.init Timer.update_label
       Timer.set_st Timer.set_sch Timer.set_text Timer.set_job Timer.set_paused
       Timer.set_running Timer.set_remaining Timer.running Timer.paused Timer.remaining
       Timer.job Timer.st Timer.text Timer.sch Timer.notifications Timer.edit_dialogs negb].
    match goal with |- context [Timer.tick _ (Timer.World ?st ?tx ?s ?nt ?ed)] =>
      destruct (timer_tick_counts st tx s nt ed) as [tx' ->];
        [reflexivity|reflexivity|cbn; lia|] end.
    exists tx'. cbn [Timer.remaining next_handle pending no_jobs].
    rewrite insert_empty. f_equal. f_equal. lia.
  - destruct IH as [tx IH]; [lia|].
    rewrite seq_S, map_app. cbn [map Nat.add].
    change (Timer.Button1 :: map Timer.Fire (seq 0 k) ++ [Timer.Fire k])
      with ((Timer.Button1 :: map Timer.Fire (seq 0 k)) ++ [Timer.Fire k])%list.
    unfold Timer.run. rewrite fold_left_app.
    fold (run init (Timer.Button1 :: map Timer.Fire (seq 0 k))).
    rewrite IH. cbn [fold_left]. unfold Timer.step, due. cbn [pending Timer.sch].
    rewrite lookup_singleton_eq. unfold after_cancel, Timer.set_sch.
    cbn [pending next_handle Timer.sch Timer.st Timer.text Timer.notifications
         Timer.edit_dialogs].
    rewrite delete_singleton_eq.
    match goal with |- context [Timer.tick _ (Timer.World ?st ?tx ?s ?nt ?ed)] =>
      destruct (timer_tick_counts st tx s nt ed) as [tx' ->];
        [reflexivity|reflexivity|cbn; lia|] end.
    exists tx'. cbn [Timer.remaining next_handle pending].
    rewrite insert_empty. f_equal. f_equal. lia.
Qed.
End TimerRuns.

Lemma one_tick_init total_seconds orig_label :
  one_tick (Timer.init total_seconds orig_label).
Proof. reflexivity. Qed.

Lemma stop_timer_state total_seconds orig_label (w : Timer.world) :
  Timer.st (Timer.stop_timer total_seconds orig_label w)
  = Timer.State false false total_seconds None /\
  Timer.text (Timer.stop_timer total_seconds orig_label w) = orig_label.
Proof.
  destruct w as [[r p rem j] tx [n pd] nt ed].
  unfold Timer.stop_timer, Timer.drop_job, Timer.update_label. destruct j; split; reflexivity.
Qed.

(** X6.  Whatever is clicked and whichever callbacks come due, a timer
    button with a duration that is not negative keeps its count between 0
    and the duration, and has exactly one callback scheduled, the tick
    under the handle it holds, while it counts, and none while it is
    stopped or paused. *)
Theorem X6_timer_holds_one_tick (total_seconds : Z) (orig_label : string)
    (es : list Timer.event) :
  0 <= total_seconds ->
  let w := Timer.run total_seconds orig_label (Timer.init total_seconds orig_label) es in
  0 <= Timer.remaining (Timer.st w) <= total_seconds /\
  if Timer.running (Timer.st w) && negb (Timer.paused (Timer.st w))
  then exists h, Timer.job (Timer.st w) = Some h /\
                 pending (Timer.sch w) = {[ h := (1000, Timer.CbTick) ]}
  else pending (Timer.sch w) = ∅.
Proof.
  intros HT. cbv zeta. split.
  - apply (in_range_run total_seconds orig_label es _ HT). unfold in_range. cbn. lia.
  - apply (one_tick_run total_seconds orig_label es), one_tick_init.
Qed.

Lemma X6_witness_paused_timer :
  let w := Timer.run 90 "Tea" (Timer.init 90 "Tea")
             [Timer.Button1; Timer.Fire 0; Timer.Button1] in
  0 <= Timer.remaining (Timer.st w) <= 90 /\
  if Timer.running (Timer.st w) && negb (Timer.paused (Timer.st w))
  then exists h, Timer.job (Timer.st w) = Some h /\
                 pending (Timer.sch w) = {[ h := (1000, Timer.CbTick) ]}
  else pending (Timer.sch w) = ∅.
Proof.
  exact (X6_timer_holds_one_tick 90 "Tea"
           [Timer.Button1; Timer.Fire 0; Timer.Button1] ltac:(lia)).
Defined.

(** X7.  A timer of [n] seconds that is started by a click and left
    alone counts [n - 1 - k] after [k < n] ticks without a sound, and with
    the [n]-th tick stops at 0, plays the completion sound once, shows its
    own label again and schedules nothing more. *)
Theorem X7_timer_rings_once (n : nat) (orig_label : string) :
  let T := Z.of_nat n in
  let ticks k := Timer.run T orig_label (Timer.init T orig_label)
                   (Timer.Button1 :: map Timer.Fire (seq 0 k)) in
  (forall k, (k < n)%nat ->
     Timer.running (Timer.st (ticks k)) = true /\
     Timer.remaining (Timer.st (ticks k)) = T - 1 - Z.of_nat k /\
     Timer.notifications (ticks k) = 0%nat) /\
  Timer.running (Timer.st (ticks n)) = false /\
  Timer.remaining (Timer.st (ticks n)) = 0 /\
  Timer.text (ticks n) = orig_label /\
  Timer.notifications (ticks n) = 1%nat /\
  pending (Timer.sch (ticks n)) = ∅.
Proof.
  cbv zeta. split.
  - intros k Hk.
    destruct (counting_down (Z.of_nat n) orig_label k) as [tx ->]; [lia|].
    cbn. auto.
  - destruct n as [|m].
    + cbn. auto.
    + destruct (counting_down (Z.of_nat (S m)) orig_label m) as [tx Hm]; [lia|].
      rewrite seq_S, map_app. cbn [map Nat.add].
      change (Timer.Button1 :: map Timer.Fire (seq 0 m) ++ [Timer.Fire m])
        with ((Timer.Button1 :: map Timer.Fire (seq 0 m)) ++ [Timer.Fire m])%list.
      unfold Timer.run in *. rewrite fold_left_app, Hm.
      cbn [fold_left]. unfold Timer.step, due. cbn [pending Timer.sch].
      rewrite lookup_singleton_eq. unfold after_cancel, Timer.set_sch.
      cbn [pending next_handle Timer.sch Timer.st Timer.text Timer.notifications
           Timer.edit_dialogs].
      rewrite delete_singleton_eq.
      unfold Timer.tick, Timer.update_label. cbn [Timer.running Timer.paused Timer.st
        Timer.remaining negb orb].
      replace (Z.of_nat (S m) - 1 - Z.of_nat m) with 0 by lia.
      cbn. auto.
Qed.

Lemma X7_witness_three_seconds :
  let ticks k := Timer.run 3 "Tea" (Timer.init 3 "Tea")
                   (Timer.Button1 :: map Timer.Fire (seq 0 k)) in
  Timer.remaining (Timer.st (ticks 1%nat)) = 1 /\
  Timer.notifications (ticks 1%nat) = 0%nat /\
  Timer.notifications (ticks 3%nat) = 1%nat /\
  Timer.text (ticks 3%nat) = "Tea".
Proof.
  destruct (X7_timer_rings_once 3 "Tea") as (H1 & _ & _ & H4 & H5 & _).
  destruct (H1 1%nat ltac:(lia)) as (_ & H2 & H3).
  exact (conj H2 (conj H3 (conj H5 H4))).
Defined.

(** X8.  A double click on a timer button, whenever it comes, puts the
    state back as it was created, shows the button's own label and leaves
    no callback scheduled, so that nothing that comes due later changes
    the button. *)
Theorem X8_double_click_leaves_nothing_scheduled (total_seconds : Z) (orig_label : string)
    (es : list Timer.event) :
  let w := Timer.step total_seconds orig_label
             (Timer.run total_seconds orig_label (Timer.init total_seconds orig_label) es)
             Timer.DoubleButton1 in
  Timer.st w = Timer.st (Timer.init total_seconds orig_label) /\
  Timer.text w = orig_label /\
  pending (Timer.sch w) = ∅ /\
  forall h, Timer.step total_seconds orig_label w (Timer.Fire h) = w.
Proof.
  cbv zeta.
  set (w0 := Timer.run total_seconds orig_label (Timer.init total_seconds orig_label) es).
  assert (H1 : one_tick (Timer.step total_seconds orig_label w0 Timer.DoubleButton1)).
  { apply one_tick_step, one_tick_run, one_tick_init. }
  destruct (stop_timer_state total_seconds orig_label w0) as [Hs Ht].
  cbn [Timer.step] in *.
  unfold one_tick in H1. rewrite Hs in H1. cbn in H1.
  repeat split; [exact Hs|exact Ht|exact H1|].
  intros h. unfold due. rewrite H1, lookup_empty. reflexivity.
Qed.

(** ** The Pomodoro timer over whole runs *)

Section PomodoroRuns.
Variables work_duration short_break_duration long_break_duration : Z.
Variable sessions_before_long_break : Z.
Variable auto_advance : bool.
Variable orig_label : string.
Variable tr : string -> string.

Local Abbreviation update_label := (Pomodoro.update_label sessions_before_long_break orig_label tr).
Local Abbreviation tick := (Pomodoro.tick sessions_before_long_break auto_advance orig_label tr).
Local Abbreviation resume_counting :=
  (Pomodoro.resume_counting sessions_before_long_break auto_advance orig_label tr).
Local Abbreviation advance_phase :=
  (Pomodoro.advance_phase work_duration short_break_duration long_break_duration
     sessions_before_long_break auto_advance orig_label tr).
Local Abbreviation step :=
  (Pomodoro.step work_duration short_break_duration long_break_duration
     sessions_before_long_break auto_advance orig_label tr).
Local Abbreviation run :=
  (Pomodoro.run work_duration short_break_duration long_break_duration
     sessions_before_long_break auto_advance orig_label tr).

Local Arguments Pomodoro.update_label : simpl never.

(** The tick that finds no time left. *)
Lemma tick_completes w :
  Pomodoro.running (Pomodoro.st w) = true -> Pomodoro.paused (Pomodoro.st w) = false ->
  Pomodoro.remaining (Pomodoro.st w) <= 0 ->
  let s3 := cancel_if_set (Pomodoro.clear_job (Pomodoro.st w)) (Pomodoro.sch w) in
  let h := next_handle (Pomodoro.sch w) in
  Pomodoro.st (tick w)
  = Pomodoro.set_clear_job (Some h)
      (Pomodoro.set_phase Pomodoro.complete (Pomodoro.set_running false (Pomodoro.st w))) /\
  Pomodoro.sch (tick w)
  = (if auto_advance
     then Sched (S (S h))
            (<[S h := (3000, Pomodoro.CbAdvancePhase)]>
               (<[h := (60000, Pomodoro.CbClearCompleteMessage)]> (pending s3)))
     else Sched (S h) (<[h := (60000, Pomodoro.CbClearCompleteMessage)]> (pending s3))) /\
  Pomodoro.notifications (tick w) = S (Pomodoro.notifications w) /\
  Pomodoro.log (tick w) = Pomodoro.log w /\
  Pomodoro.edit_dialogs (tick w) = Pomodoro.edit_dialogs w /\
  Pomodoro.callback_errors (tick w) = Pomodoro.callback_errors w.
Proof.
  intros Hr Hp Hrem. cbv zeta. unfold Pomodoro.tick. rewrite Hr, Hp. cbn [negb orb].
  destruct (Z.ltb_spec 0 (Pomodoro.remaining (Pomodoro.st w))); [lia|].
  cbv zeta.
  match goal with |- context [update_label ?x] =>
    destruct (pomodoro_update_label_text sessions_before_long_break orig_label tr x)
      as [t ->] end.
  destruct w as [[r p j cj ph rem sc cs] tx [n pd] lg nt ed ce].
  destruct auto_advance, cj; cbn; repeat split.
Qed.

(** What a tick does to the count. *)
Lemma tick_remaining w :
  Pomodoro.remaining (Pomodoro.st (tick w))
  = if Pomodoro.counting (Pomodoro.st w) && (0 <? Pomodoro.remaining (Pomodoro.st w))
    then Pomodoro.remaining (Pomodoro.st w) - 1
    else Pomodoro.remaining (Pomodoro.st w).
Proof.
  unfold Pomodoro.counting.
  destruct (Pomodoro.running (Pomodoro.st w)) eqn:Hr.
  - destruct (Pomodoro.paused (Pomodoro.st w)) eqn:Hp.
    + unfold Pomodoro.tick. rewrite Hr, Hp. reflexivity.
    + cbn [negb andb]. destruct (Z.ltb_spec 0 (Pomodoro.remaining (Pomodoro.st w))).
      * destruct (tick_counts sessions_before_long_break auto_advance orig_label tr w Hr Hp)
          as [-> _]; [assumption|reflexivity].
      * destruct (tick_completes w Hr Hp) as [-> _]; [assumption|reflexivity].
  - unfold Pomodoro.tick. rewrite Hr. reflexivity.
Qed.

Lemma resume_counting_remaining w :
  Pomodoro.remaining (Pomodoro.st (resume_counting w))
  = if 0 <? Pomodoro.remaining (Pomodoro.st w)
    then Pomodoro.remaining (Pomodoro.st w) - 1
    else Pomodoro.remaining (Pomodoro.st w).
Proof.
  unfold Pomodoro.resume_counting. rewrite tick_remaining, pomodoro_st_update_label.
  reflexivity.
Qed.

(** [advance_phase] in the phase [complete] with no time left: neither
    branch applies, and the tick that follows completes the phase again. *)
Lemma advance_from_complete w :
  Pomodoro.current_phase (Pomodoro.st w) = Pomodoro.complete ->
  Pomodoro.remaining (Pomodoro.st w) <= 0 ->
  let w' := Pomodoro.finish (advance_phase w) in
  let h := next_handle (Pomodoro.sch w) in
  let s3 := cancel_if_set (Pomodoro.clear_job (Pomodoro.st w)) (Pomodoro.sch w) in
  Pomodoro.st w'
  = Pomodoro.State false false (Pomodoro.job (Pomodoro.st w)) (Some h) Pomodoro.complete
      (Pomodoro.remaining (Pomodoro.st w)) (Pomodoro.sessions_completed (Pomodoro.st w))
      (Pomodoro.current_session (Pomodoro.st w)) /\
  Pomodoro.sch w'
  = (if auto_advance
     then Sched (S (S h))
            (<[S h := (3000, Pomodoro.CbAdvancePhase)]>
               (<[h := (60000, Pomodoro.CbClearCompleteMessage)]> (pending s3)))
     else Sched (S h) (<[h := (60000, Pomodoro.CbClearCompleteMessage)]> (pending s3))) /\
  Pomodoro.notifications w' = S (Pomodoro.notifications w) /\
  Pomodoro.log w' = Pomodoro.log w /\
  Pomodoro.callback_errors w' = Pomodoro.callback_errors w.
Proof.
  intros Hph Hrem. cbv zeta. unfold Pomodoro.advance_phase. rewrite Hph.
  cbn [Pomodoro.finish]. unfold Pomodoro.resume_counting.
  match goal with |- context [tick ?y] =>
    destruct (tick_completes y) as (Hst & Hsch & Hn & Hl & _ & He) end.
  - rewrite pomodoro_st_update_label. reflexivity.
  - rewrite pomodoro_st_update_label. reflexivity.
  - rewrite pomodoro_st_update_label. exact Hrem.
  - rewrite Hst, Hsch, Hn, Hl, He.
    rewrite pomodoro_st_update_label, pomodoro_sch_update_label.
    destruct (pomodoro_update_label_text sessions_before_long_break orig_label tr
                (Pomodoro.set_st (Pomodoro.set_paused false)
                   (Pomodoro.set_st (Pomodoro.set_running true) w))) as [t ->].
    destruct w as [[r p j cj ph rem sc cs] tx [n pd] lg nt ed ce].
    cbn in Hph. subst ph. cbn. repeat split.
Qed.

(** The longest of the three phases. *)
Definition longest_phase : Z :=
  Z.max work_duration (Z.max short_break_duration long_break_duration).

Definition count_in_range (w : Pomodoro.world) : Prop :=
  0 <= Pomodoro.remaining (Pomodoro.st w) <= longest_phase.

Hypothesis work_not_negative : 0 <= work_duration.
Hypothesis short_break_not_negative : 0 <= short_break_duration.
Hypothesis long_break_not_negative : 0 <= long_break_duration.

Lemma count_in_range_tick w : count_in_range w -> count_in_range (tick w).
Proof.
  unfold count_in_range. rewrite tick_remaining.
  destruct (Pomodoro.counting (Pomodoro.st w)); cbn [andb]; [|trivial].
  destruct (Z.ltb_spec 0 (Pomodoro.remaining (Pomodoro.st w))); lia.
Qed.

Lemma count_in_range_resume w : count_in_range w -> count_in_range (resume_counting w).
Proof.
  unfold count_in_range. rewrite resume_counting_remaining.
  destruct (Z.ltb_spec 0 (Pomodoro.remaining (Pomodoro.st w))); lia.
Qed.

Lemma count_in_range_advance w :
  count_in_range w ->
  count_in_range (Pomodoro.finish (advance_phase w)) /\
  match advance_phase w with
  | Pomodoro.Returns w1 | Pomodoro.ZeroDivisionError w1 => count_in_range w1
  end.
Proof.
  intros Hw. unfold Pomodoro.advance_phase.
  destruct (Pomodoro.current_phase (Pomodoro.st w)); cbv zeta.
  - split; apply count_in_range_resume, Hw.
  - destruct (sessions_before_long_break =? 0).
    + split; exact Hw.
    + destruct (_ mod _ =? 0); split; apply count_in_range_resume;
        unfold count_in_range, longest_phase; cbn; lia.
  - split; apply count_in_range_resume; unfold count_in_range, longest_phase; cbn; lia.
  - split; apply count_in_range_resume; unfold count_in_range, longest_phase; cbn; lia.
  - split; apply count_in_range_resume, Hw.
Qed.

Lemma count_in_range_drop_job w : count_in_range w -> count_in_range (Pomodoro.drop_job w).
Proof.
  unfold count_in_range. destruct (pomodoro_drop_job w) as [-> _]. trivial.
Qed.

Lemma count_in_range_step w ev : count_in_range w -> count_in_range (step w ev).
Proof.
  intros Hw. destruct ev as [| | |h]; cbn [Pomodoro.step].
  - (* click *)
    unfold Pomodoro.start_pomodoro. cbv zeta.
    match goal with |- context [update_label ?x] =>
      assert (Hx : count_in_range x) end.
    { destruct (Pomodoro.current_phase (Pomodoro.st w));
        [unfold count_in_range, longest_phase; cbn; lia|..];
        destruct (Pomodoro.paused (Pomodoro.st w)); exact Hw. }
    match goal with |- context [update_label ?x] =>
      assert (Hu : count_in_range (update_label x)) end.
    { unfold count_in_range. rewrite pomodoro_st_update_label. exact Hx. }
    match goal with |- context [if ?c then _ else _] => destruct c end;
      [apply count_in_range_tick|]; exact Hu.
  - (* double click *)
    unfold Pomodoro.reset_pomodoro, count_in_range, longest_phase. cbv zeta.
    rewrite st_logger_info, pomodoro_st_update_label. cbn. lia.
  - (* right click *)
    unfold Pomodoro.on_right_click, Pomodoro.skip_phase.
    destruct (Pomodoro.running (Pomodoro.st w)); [|exact Hw].
    destruct (count_in_range_advance (Pomodoro.drop_job w)) as [_ H];
      [apply count_in_range_drop_job, Hw|].
    destruct (advance_phase (Pomodoro.drop_job w)); exact H.
  - (* a callback comes due *)
    destruct (due h (Pomodoro.sch w)) as [[f s]|]; [|exact Hw].
    destruct f; cbn [Pomodoro.run_callback].
    + apply count_in_range_tick, Hw.
    + unfold Pomodoro.clear_complete_message, count_in_range, longest_phase.
      rewrite pomodoro_st_update_label. cbn. lia.
    + apply count_in_range_advance, Hw.
Qed.

Lemma count_in_range_run es w : count_in_range w -> count_in_range (run w es).
Proof.
  revert w. induction es as [|ev es IH]; intros w Hw; [exact Hw|].
  apply IH, count_in_range_step, Hw.
Qed.
End PomodoroRuns.

(** X9.  With durations that are not negative, the count of a Pomodoro
    button stays between 0 and the longest of its three phases, whatever
    is clicked and whichever callbacks come due, the stale ones
    included. *)
Theorem X9_pomodoro_count_stays_in_range
    (work_duration short_break_duration long_break_duration sessions_before_long_break : Z)
    (auto_advance : bool) (orig_label : string) (tr : string -> string)
    (es : list Pomodoro.event) :
  0 <= work_duration -> 0 <= short_break_duration -> 0 <= long_break_duration ->
  let w := Pomodoro.run work_duration short_break_duration long_break_duration
             sessions_before_long_break auto_advance orig_label tr
             (Pomodoro.init work_duration orig_label) es in
  0 <= Pomodoro.remaining (Pomodoro.st w)
    <= Z.max work_duration (Z.max short_break_duration long_break_duration).
Proof.
  intros Hw Hs Hl. cbv zeta.
  apply (count_in_range_run work_duration short_break_duration long_break_duration
           sessions_before_long_break auto_advance orig_label tr Hw Hs Hl es).
  unfold count_in_range, longest_phase. cbn. lia.
Qed.

Lemma X9_witness_skipped_session :
  let w := Pomodoro.run 1500 300 900 4 true "Pomodoro" id (Pomodoro.init 1500 "Pomodoro")
             [Pomodoro.Button1; Pomodoro.Fire 0; Pomodoro.Button3] in
  0 <= Pomodoro.remaining (Pomodoro.st w) <= Z.max 1500 (Z.max 300 900).
Proof.
  exact (X9_pomodoro_count_stays_in_range 1500 300 900 4 true "Pomodoro" id
           [Pomodoro.Button1; Pomodoro.Fire 0; Pomodoro.Button3]
           ltac:(lia) ltac:(lia) ltac:(lia)).
Defined.

(** X10.  With [sessions_before_long_break] set to 0, skipping a running
    work session ends in a [ZeroDivisionError]: the held tick is already
    canceled and the session already counted, but no break is entered, no
    tick is scheduled and nothing is logged, so the button stays in the
    work phase with its count standing; and the next skip ends the same
    way. *)
Theorem X10_zero_sessions_setting_stops_the_skip
    (work_duration short_break_duration long_break_duration : Z)
    (auto_advance : bool) (orig_label : string) (tr : string -> string)
    (w : Pomodoro.world) :
  Pomodoro.running (Pomodoro.st w) = true ->
  Pomodoro.current_phase (Pomodoro.st w) = Pomodoro.work ->
  let skip_phase := Pomodoro.skip_phase work_duration short_break_duration
                      long_break_duration 0 auto_advance orig_label tr in
  let w1 := Pomodoro.World
              (Pomodoro.set_sessions_completed
                 (Pomodoro.sessions_completed (Pomodoro.st w) + 1)
                 (Pomodoro.set_job None (Pomodoro.st w)))
              (Pomodoro.text w)
              (cancel_if_set (Pomodoro.job (Pomodoro.st w)) (Pomodoro.sch w))
              (Pomodoro.log w) (Pomodoro.notifications w) (Pomodoro.edit_dialogs w)
              (Pomodoro.callback_errors w) in
  skip_phase w = Pomodoro.ZeroDivisionError w1 /\
  exists w2, skip_phase w1 = Pomodoro.ZeroDivisionError w2.
Proof.
  intros Hr Hph. cbv zeta.
  assert (H : forall x, Pomodoro.running (Pomodoro.st x) = true ->
            Pomodoro.current_phase (Pomodoro.st x) = Pomodoro.work ->
            Pomodoro.skip_phase work_duration short_break_duration long_break_duration 0
              auto_advance orig_label tr x
            = Pomodoro.ZeroDivisionError
                (Pomodoro.World
                   (Pomodoro.set_sessions_completed
                      (Pomodoro.sessions_completed (Pomodoro.st x) + 1)
                      (Pomodoro.set_job None (Pomodoro.st x)))
                   (Pomodoro.text x)
                   (cancel_if_set (Pomodoro.job (Pomodoro.st x)) (Pomodoro.sch x))
                   (Pomodoro.log x) (Pomodoro.notifications x) (Pomodoro.edit_dialogs x)
                   (Pomodoro.callback_errors x))).
  { intros [[r p j cj ph rem sc cs] tx [n pd] lg nt ed ce]. cbn. intros -> ->.
    unfold Pomodoro.skip_phase, Pomodoro.advance_phase, Pomodoro.drop_job.
    destruct j; reflexivity. }
  split.
  - apply H; assumption.
  - eexists. apply H; cbn; assumption.
Qed.

Lemma X10_witness_first_session :
  let w := Pomodoro.run 1500 300 900 0 true "Pomodoro" id (Pomodoro.init 1500 "Pomodoro")
             [Pomodoro.Button1] in
  let skip_phase := Pomodoro.skip_phase 1500 300 900 0 true "Pomodoro" id in
  let w1 := Pomodoro.World
              (Pomodoro.set_sessions_completed
                 (Pomodoro.sessions_completed (Pomodoro.st w) + 1)
                 (Pomodoro.set_job None (Pomodoro.st w)))
              (Pomodoro.text w)
              (cancel_if_set (Pomodoro.job (Pomodoro.st w)) (Pomodoro.sch w))
              (Pomodoro.log w) (Pomodoro.notifications w) (Pomodoro.edit_dialogs w)
              (Pomodoro.callback_errors w) in
  skip_phase w = Pomodoro.ZeroDivisionError w1 /\
  exists w2, skip_phase w1 = Pomodoro.ZeroDivisionError w2.
Proof.
  exact (X10_zero_sessions_setting_stops_the_skip 1500 300 900 true "Pomodoro" id
           (Pomodoro.run 1500 300 900 0 true "Pomodoro" id (Pomodoro.init 1500 "Pomodoro")
              [Pomodoro.Button1])
           eq_refl eq_refl).
Defined.

(** X11.  When [advance_phase] runs in the phase [complete] with no time
    left, as the auto-advance of a phase that ran out does, it enters no
    other phase: the phase is completed once more, the sound is played
    again, the held clear handle is canceled and replaced by a new one,
    the session counters stand, and with auto-advance on the next
    [advance_phase] is scheduled three seconds on. *)
Theorem X11_auto_advance_completes_again
    (work_duration short_break_duration long_break_duration sessions_before_long_break : Z)
    (auto_advance : bool) (orig_label : string) (tr : string -> string)
    (w : Pomodoro.world) :
  Pomodoro.current_phase (Pomodoro.st w) = Pomodoro.complete ->
  Pomodoro.remaining (Pomodoro.st w) <= 0 ->
  let w' := Pomodoro.run_callback work_duration short_break_duration long_break_duration
              sessions_before_long_break auto_advance orig_label tr
              Pomodoro.CbAdvancePhase w in
  let h := next_handle (Pomodoro.sch w) in
  let s3 := cancel_if_set (Pomodoro.clear_job (Pomodoro.st w)) (Pomodoro.sch w) in
  Pomodoro.st w'
  = Pomodoro.State false false (Pomodoro.job (Pomodoro.st w)) (Some h) Pomodoro.complete
      (Pomodoro.remaining (Pomodoro.st w)) (Pomodoro.sessions_completed (Pomodoro.st w))
      (Pomodoro.current_session (Pomodoro.st w)) /\
  Pomodoro.sch w'
  = (if auto_advance
     then Sched (S (S h))
            (<[S h := (3000, Pomodoro.CbAdvancePhase)]>
               (<[h := (60000, Pomodoro.CbClearCompleteMessage)]> (pending s3)))
     else Sched (S h) (<[h := (60000, Pomodoro.CbClearCompleteMessage)]> (pending s3))) /\
  Pomodoro.notifications w' = S (Pomodoro.notifications w) /\
  Pomodoro.log w' = Pomodoro.log w /\
  Pomodoro.callback_errors w' = Pomodoro.callback_errors w.
Proof.
  intros Hph Hrem. cbv zeta. cbn [Pomodoro.run_callback].
  apply (advance_from_complete work_duration short_break_duration long_break_duration
           sessions_before_long_break auto_advance orig_label tr w Hph Hrem).
Qed.

Lemma X11_witness_after_a_work_minute :
  let w := Pomodoro.run 60 300 900 4 true "Pomodoro" id (Pomodoro.init 60 "Pomodoro")
             (Pomodoro.Button1 :: map Pomodoro.Fire (seq 0 60)) in
  let w' := Pomodoro.run_callback 60 300 900 4 true "Pomodoro" id Pomodoro.CbAdvancePhase w in
  let h := next_handle (Pomodoro.sch w) in
  let s3 := cancel_if_set (Pomodoro.clear_job (Pomodoro.st w)) (Pomodoro.sch w) in
  Pomodoro.st w'
  = Pomodoro.State false false (Pomodoro.job (Pomodoro.st w)) (Some h) Pomodoro.complete
      (Pomodoro.remaining (Pomodoro.st w)) (Pomodoro.sessions_completed (Pomodoro.st w))
      (Pomodoro.current_session (Pomodoro.st w)) /\
  Pomodoro.sch w'
  = Sched (S (S h))
      (<[S h := (3000, Pomodoro.CbAdvancePhase)]>
         (<[h := (60000, Pomodoro.CbClearCompleteMessage)]> (pending s3))) /\
  Pomodoro.notifications w' = S (Pomodoro.notifications w) /\
  Pomodoro.log w' = Pomodoro.log w /\
  Pomodoro.callback_errors w' = Pomodoro.callback_errors w.
Proof.
  exact (X11_auto_advance_completes_again 60 300 900 4 true "Pomodoro" id
           (Pomodoro.run 60 300 900 4 true "Pomodoro" id (Pomodoro.init 60 "Pomodoro")
              (Pomodoro.Button1 :: map Pomodoro.Fire (seq 0 60)))
           ltac:(vm_compute; reflexivity) ltac:(vm_compute; discriminate)).
Defined.

(** The handles [n], [n + 2], ..., [k] of them: those under which each
    completion in turn schedules the next [advance_phase]. *)
Fixpoint every_other (n k : nat) : list nat :=
  match k with
  | O => []
  | S k' => n :: every_other (S (S n)) k'
  end.

(** The phase is complete with no time left, and [advance_phase] is
    scheduled under the handle given out last. *)
Definition completed_with_advance (n : nat) (w : Pomodoro.world) : Prop :=
  Pomodoro.current_phase (Pomodoro.st w) = Pomodoro.complete /\
  Pomodoro.remaining (Pomodoro.st w) <= 0 /\
  next_handle (Pomodoro.sch w) = S n /\
  pending (Pomodoro.sch w) !! n = Some (3000, Pomodoro.CbAdvancePhase).

Lemma completed_with_advance_fire
    (work_duration short_break_duration long_break_duration sessions_before_long_break : Z)
    (orig_label : string) (tr : string -> string) (n : nat) (w : Pomodoro.world) :
  completed_with_advance n w ->
  let w' := Pomodoro.step work_duration short_break_duration long_break_duration
              sessions_before_long_break true orig_label tr w (Pomodoro.Fire n) in
  completed_with_advance (S (S n)) w' /\
  Pomodoro.notifications w' = S (Pomodoro.notifications w) /\
  Pomodoro.running (Pomodoro.st w') = false /\
  Pomodoro.sessions_completed (Pomodoro.st w') = Pomodoro.sessions_completed (Pomodoro.st w) /\
  Pomodoro.log w' = Pomodoro.log w.
Proof.
  intros (Hph & Hrem & Hn & Hp). cbv zeta. cbn [Pomodoro.step]. unfold due. rewrite Hp.
  cbn [Pomodoro.run_callback].
  destruct (advance_from_complete work_duration short_break_duration long_break_duration
              sessions_before_long_break true orig_label tr
              (Pomodoro.set_sch (after_cancel n (Pomodoro.sch w)) w))
    as (Hst & Hsch & Hnt & Hlg & _); [exact Hph|exact Hrem|].
  unfold completed_with_advance.
  rewrite Hst, Hsch, Hnt, Hlg. cbn [Pomodoro.set_sch Pomodoro.sch Pomodoro.st
    Pomodoro.notifications Pomodoro.log after_cancel next_handle pending
    Pomodoro.current_phase Pomodoro.remaining Pomodoro.running Pomodoro.sessions_completed].
  rewrite Hn.
  cbn [Pomodoro.sch Pomodoro.st next_handle pending Pomodoro.current_phase
       Pomodoro.remaining].
  rewrite lookup_insert_eq. repeat split; assumption.
Qed.

(** X12.  With auto-advance on, a phase that has run out keeps
    completing: each [advance_phase] that comes due plays the sound once
    more and schedules the next one, so that after [k] of them the button
    is still [complete] and not running, the sound has been played [k]
    more times, no session has been counted and no break was logged. *)
Theorem X12_completion_repeats
    (work_duration short_break_duration long_break_duration sessions_before_long_break : Z)
    (orig_label : string) (tr : string -> string)
    (k n : nat) (w : Pomodoro.world) :
  Pomodoro.current_phase (Pomodoro.st w) = Pomodoro.complete ->
  Pomodoro.remaining (Pomodoro.st w) <= 0 ->
  Pomodoro.running (Pomodoro.st w) = false ->
  next_handle (Pomodoro.sch w) = S n ->
  pending (Pomodoro.sch w) !! n = Some (3000, Pomodoro.CbAdvancePhase) ->
  let w' := Pomodoro.run work_duration short_break_duration long_break_duration
              sessions_before_long_break true orig_label tr w
              (map Pomodoro.Fire (every_other n k)) in
  Pomodoro.current_phase (Pomodoro.st w') = Pomodoro.complete /\
  Pomodoro.running (Pomodoro.st w') = false /\
  Pomodoro.notifications w' = (Pomodoro.notifications w + k)%nat /\
  Pomodoro.sessions_completed (Pomodoro.st w') = Pomodoro.sessions_completed (Pomodoro.st w) /\
  Pomodoro.log w' = Pomodoro.log w /\
  pending (Pomodoro.sch w') !! (n + 2 * k)%nat = Some (3000, Pomodoro.CbAdvancePhase).
Proof.
  intros Hph Hrem Hr Hn Hp. cbv zeta.
  assert (Hc : completed_with_advance n w) by (repeat split; assumption).
  clear Hph Hrem Hn Hp. revert n w Hr Hc.
  induction k as [|k IH]; intros n w Hr Hc.
  - cbn [every_other map Pomodoro.run fold_left].
    destruct Hc as (Hph & _ & _ & Hp).
    rewrite Nat.add_0_r. replace (n + 2 * 0)%nat with n by lia. repeat split; assumption.
  - cbn [every_other map Pomodoro.run fold_left].
    destruct (completed_with_advance_fire work_duration short_break_duration
                long_break_duration sessions_before_long_break orig_label tr n w Hc)
      as (Hc' & Hnt & Hr' & Hsc & Hlg).
    destruct (IH (S (S n)) _ Hr' Hc') as (H1 & H2 & H3 & H4 & H5 & H6).
    unfold Pomodoro.run in *.
    rewrite H1, H2, H3, H4, H5, Hnt, Hsc, Hlg.
    replace (n + 2 * S k)%nat with (S (S n) + 2 * k)%nat by lia.
    repeat split; [lia|exact H6].
Qed.

Lemma X12_witness_three_more_rings :
  let w := Pomodoro.run 60 300 900 4 true "Pomodoro" id (Pomodoro.init 60 "Pomodoro")
             (Pomodoro.Button1 :: map Pomodoro.Fire (seq 0 60)) in
  let w' := Pomodoro.run 60 300 900 4 true "Pomodoro" id w
              (map Pomodoro.Fire (every_other 61 3)) in
  Pomodoro.current_phase (Pomodoro.st w') = Pomodoro.complete /\
  Pomodoro.running (Pomodoro.st w') = false /\
  Pomodoro.notifications w' = (Pomodoro.notifications w + 3)%nat /\
  Pomodoro.sessions_completed (Pomodoro.st w') = Pomodoro.sessions_completed (Pomodoro.st w) /\
  Pomodoro.log w' = Pomodoro.log w /\
  pending (Pomodoro.sch w') !! (61 + 2 * 3)%nat = Some (3000, Pomodoro.CbAdvancePhase).
Proof.
  exact (X12_completion_repeats 60 300 900 4 "Pomodoro" id 3 61
           (Pomodoro.run 60 300 900 4 true "Pomodoro" id (Pomodoro.init 60 "Pomodoro")
              (Pomodoro.Button1 :: map Pomodoro.Fire (seq 0 60)))
           ltac:(vm_compute; reflexivity) ltac:(vm_compute; discriminate)
           ltac:(vm_compute; reflexivity) ltac:(vm_compute; reflexivity)
           ltac:(vm_compute; reflexivity)).
Defined.

(** ** Colors in and out of their six digits *)

(** [format_02x] of [r] has two characters, which [int(_, 16)] reads back
    as [r]. *)
Definition two_hex_check (r : Z) : bool :=
  match PyFormat.format_02x r with
  | String c1 (String c2 "") =>
      match PyStr.int16 (String c1 (String c2 "")) with
      | Some r' => r' =? r
      | None => false
      end
  | _ => false
  end.

Lemma two_hex_check_all : forallb two_hex_check (map Z.of_nat (seq 0 256)) = true.
Proof. vm_compute. reflexivity. Qed.

Lemma two_hex_digits (r : Z) :
  0 <= r <= 255 ->
  exists c1 c2, PyFormat.format_02x r = String c1 (String c2 "") /\
                PyStr.int16 (String c1 (String c2 "")) = Some r.
Proof.
  intros Hr.
  assert (H : two_hex_check r = true).
  { apply (proj1 (forallb_forall _ _) two_hex_check_all).
    apply in_map_iff. exists (Z.to_nat r). split; [lia|]. apply in_seq. lia. }
  unfold two_hex_check in H.
  destruct (PyFormat.format_02x r) as [|c1 [|c2 [|c3 s]]]; try discriminate.
  exists c1, c2. split; [reflexivity|].
  destruct (PyStr.int16 (String c1 (String c2 ""))) as [r'|]; [|discriminate].
  apply Z.eqb_eq in H. congruence.
Qed.

(** The preview background of a color that [rgb_hex] wrote is that
    color. *)
Lemma preview_bg_rgb_hex (r g b : Z) (old : string) :
  0 <= r <= 255 -> 0 <= g <= 255 -> 0 <= b <= 255 ->
  String.length (ColorPicker.rgb_hex r g b) = 6%nat /\
  ColorPicker.preview_bg (ColorPicker.rgb_hex r g b) old = "#" +:+ ColorPicker.rgb_hex r g b.
Proof.
  intros Hr Hg Hb.
  destruct (two_hex_digits r Hr) as (r1 & r2 & Er & Ir).
  destruct (two_hex_digits g Hg) as (g1 & g2 & Eg & Ig).
  destruct (two_hex_digits b Hb) as (b1 & b2 & Eb & Ib).
  unfold ColorPicker.preview_bg.
  assert (E : ColorPicker.rgb_hex r g b
              = String r1 (String r2 (String g1 (String g2 (String b1 (String b2 "")))))).
  { unfold ColorPicker.rgb_hex. rewrite Er, Eg, Eb. reflexivity. }
  assert (S1 : PyStr.slice 0 2 (ColorPicker.rgb_hex r g b) = String r1 (String r2 ""))
    by (rewrite E; reflexivity).
  assert (S2 : PyStr.slice 2 4 (ColorPicker.rgb_hex r g b) = String g1 (String g2 ""))
    by (rewrite E; reflexivity).
  assert (S3 : PyStr.slice 4 6 (ColorPicker.rgb_hex r g b) = String b1 (String b2 ""))
    by (rewrite E; reflexivity).
  rewrite S1, S2, S3, Ir, Ig, Ib.
  split; [rewrite E; reflexivity|].
  destruct (Z.leb_spec 0 r); [|lia]. destruct (Z.leb_spec 0 g); [|lia].
  destruct (Z.leb_spec 0 b); [|lia]. reflexivity.
Qed.

(** What the click on the overlay does with a color [hex] that
    [get_pixel_color] found. *)
Lemma on_click_with_color (orig_label bg_color : string) (tr : string -> string)
    (e : ColorPicker.screen_env) (how : ColorPicker.clip_result) (w : ColorPicker.world)
    (hex : string) :
  ColorPicker.get_pixel_color e = Some hex ->
  ColorPicker.truthy (Some hex) = true ->
  let w' := ColorPicker.on_click e how w in
  let shown := ColorPicker.update_label orig_label bg_color tr w' in
  ColorPicker.color (ColorPicker.st w') = Some hex /\
  ColorPicker.picking (ColorPicker.st w') = false /\
  ColorPicker.picker_window w' = None /\
  ColorPicker.iconified w' = false /\
  ColorPicker.clipboard w'
  = match how with ColorPicker.ClipNone => ColorPicker.clipboard w | _ => Some ("#" +:+ hex) end /\
  ColorPicker.text shown = "#" +:+ hex +:+ nl +:+ tr "Copied!" /\
  ColorPicker.bg shown = ColorPicker.preview_bg hex (ColorPicker.bg w).
Proof.
  intros Hc Ht. cbv zeta. unfold ColorPicker.on_click. rewrite Hc. cbv zeta. rewrite Ht.
  unfold ColorPicker.update_label.
  destruct hex as [|c0 hex]; [discriminate|].
  destruct w as [[pk c cj] tx bg s cl ic pw].
  destruct how, pw, cj; cbn; repeat split.
Qed.

(** X13.  A pixel that Pillow reads, with components from 0 to 255,
    becomes the six digits [rrggbb]; the click on the overlay stores
    them, puts them on the clipboard behind a [#] when a clipboard method
    works, closes the overlay and restores the window, and the label
    update then shows them and paints the button in exactly that
    color. *)
Theorem X13_picked_pixel_shows_its_color
    (orig_label bg_color : string) (tr : string -> string)
    (e : ColorPicker.screen_env) (how : ColorPicker.clip_result) (w : ColorPicker.world)
    (r g b : Z) (rest : list Z) :
  ColorPicker.pil e = ColorPicker.PilPixel (r :: g :: b :: rest) ->
  0 <= r <= 255 -> 0 <= g <= 255 -> 0 <= b <= 255 ->
  let hex := ColorPicker.rgb_hex r g b in
  let w' := ColorPicker.on_click e how w in
  let shown := ColorPicker.update_label orig_label bg_color tr w' in
  ColorPicker.get_pixel_color e = Some hex /\
  String.length hex = 6%nat /\
  ColorPicker.color (ColorPicker.st w') = Some hex /\
  ColorPicker.picker_window w' = None /\
  ColorPicker.iconified w' = false /\
  ColorPicker.clipboard w'
  = match how with ColorPicker.ClipNone => ColorPicker.clipboard w | _ => Some ("#" +:+ hex) end /\
  ColorPicker.text shown = "#" +:+ hex +:+ nl +:+ tr "Copied!" /\
  ColorPicker.bg shown = "#" +:+ hex.
Proof.
  intros Hp Hr Hg Hb. cbv zeta.
  assert (Hc : ColorPicker.get_pixel_color e = Some (ColorPicker.rgb_hex r g b)).
  { unfold ColorPicker.get_pixel_color. rewrite Hp. reflexivity. }
  destruct (preview_bg_rgb_hex r g b (ColorPicker.bg w) Hr Hg Hb) as [Hlen Hbg].
  destruct (on_click_with_color orig_label bg_color tr e how w _ Hc (rgb_hex_truthy r g b))
    as (H1 & _ & H3 & H4 & H5 & H6 & H7).
  rewrite Hbg in H7. repeat split; assumption.
Qed.

Lemma X13_witness_an_orange_pixel :
  let e := ColorPicker.ScreenEnv (ColorPicker.PilPixel [255; 128; 0]) ColorPicker.Linux None false in
  let w := ColorPicker.run "Color Picker" "#202020" id (ColorPicker.init "Color Picker" "#202020")
             [ColorPicker.Click; ColorPicker.Fire 0] in
  let hex := ColorPicker.rgb_hex 255 128 0 in
  let w' := ColorPicker.on_click e ColorPicker.ClipTk w in
  let shown := ColorPicker.update_label "Color Picker" "#202020" id w' in
  ColorPicker.get_pixel_color e = Some hex /\
  String.length hex = 6%nat /\
  ColorPicker.color (ColorPicker.st w') = Some hex /\
  ColorPicker.picker_window w' = None /\
  ColorPicker.iconified w' = false /\
  ColorPicker.clipboard w' = Some ("#" +:+ hex) /\
  ColorPicker.text shown = "#" +:+ hex +:+ nl +:+ "Copied!" /\
  ColorPicker.bg shown = "#" +:+ hex.
Proof.
  exact (X13_picked_pixel_shows_its_color "Color Picker" "#202020" id
           (ColorPicker.ScreenEnv (ColorPicker.PilPixel [255; 128; 0]) ColorPicker.Linux
              None false)
           ColorPicker.ClipTk
           (ColorPicker.run "Color Picker" "#202020" id
              (ColorPicker.init "Color Picker" "#202020")
              [ColorPicker.Click; ColorPicker.Fire 0])
           255 128 0 [] eq_refl ltac:(lia) ltac:(lia) ltac:(lia)).
Defined.

(** The three bytes of a [COLORREF]. *)
Lemma colorref_bytes (r g b : Z) :
  0 <= r <= 255 -> 0 <= g <= 255 -> 0 <= b <= 255 ->
  let color := r + 256 * g + 65536 * b in
  Z.land color 255 = r /\
  Z.land (Z.shiftr color 8) 255 = g /\
  Z.land (Z.shiftr color 16) 255 = b.
Proof.
  intros Hr Hg Hb. cbv zeta.
  change 255 with (Z.ones 8).
  rewrite !Z.land_ones, !Z.shiftr_div_pow2 by lia.
  change (2 ^ 8) with 256. change (2 ^ 16) with 65536.
  repeat split.
  - symmetry. apply (Z.mod_unique_pos _ _ (g + 256 * b)); lia.
  - replace ((r + 256 * g + 65536 * b) / 256) with (g + 256 * b).
    + symmetry. apply (Z.mod_unique_pos _ _ b); lia.
    + apply (Z.div_unique_pos _ _ _ r); lia.
  - replace ((r + 256 * g + 65536 * b) / 65536) with b.
    + symmetry. apply (Z.mod_unique_pos _ _ 0); lia.
    + apply (Z.div_unique_pos _ _ _ (r + 256 * g)); lia.
Qed.

(** X14.  On Windows without a Pillow reading, the value that
    [GetPixel] returns is taken apart as [0x00bbggrr]: red from the
    lowest byte, green from the next, blue from the third, and written
    out as [rrggbb], which is what [get_pixel_color] returns. *)
Theorem X14_windows_colorref_is_decoded (e : ColorPicker.screen_env) (r g b : Z) :
  pil_gives_nothing e ->
  ColorPicker.system e = ColorPicker.Windows ->
  ColorPicker.win_pixel e = Some (r + 256 * g + 65536 * b) ->
  0 <= r <= 255 -> 0 <= g <= 255 -> 0 <= b <= 255 ->
  ColorPicker.get_pixel_color_windows e = Some (ColorPicker.rgb_hex r g b) /\
  ColorPicker.get_pixel_color e = Some (ColorPicker.rgb_hex r g b).
Proof.
  intros Hp Hs Hw Hr Hg Hb.
  destruct (colorref_bytes r g b Hr Hg Hb) as (Er & Eg & Eb).
  assert (H : ColorPicker.get_pixel_color_windows e = Some (ColorPicker.rgb_hex r g b)).
  { unfold ColorPicker.get_pixel_color_windows. rewrite Hw. cbv zeta.
    rewrite Er, Eg, Eb. reflexivity. }
  split; [exact H|].
  unfold ColorPicker.get_pixel_color, ColorPicker.platform_fallback. rewrite Hs, H.
  cbv zeta. rewrite rgb_hex_truthy.
  unfold pil_gives_nothing in Hp.
  destruct (ColorPicker.pil e) as [[|r' [|g' [|b' px]]]| |]; try reflexivity. contradiction.
Qed.

Lemma X14_witness_teal_on_windows :
  let e := ColorPicker.ScreenEnv ColorPicker.PilImportError ColorPicker.Windows
             (Some 8421376) false in
  ColorPicker.get_pixel_color_windows e = Some (ColorPicker.rgb_hex 0 128 128) /\
  ColorPicker.get_pixel_color e = Some (ColorPicker.rgb_hex 0 128 128).
Proof.
  exact (X14_windows_colorref_is_decoded
           (ColorPicker.ScreenEnv ColorPicker.PilImportError ColorPicker.Windows
              (Some 8421376) false)
           0 128 128 I eq_refl eq_refl ltac:(lia) ltac:(lia) ltac:(lia)).
Defined.

(** ** The color picker over whole runs *)

Section ColorPickerRuns.
Variable orig_label : string.
Variable bg_color : string.
Variable tr : string -> string.

Local Abbreviation step := (ColorPicker.step orig_label bg_color tr).
Local Abbreviation run := (ColorPicker.run orig_label bg_color tr).
Local Abbreviation init := (ColorPicker.init orig_label bg_color).



















End ColorPickerRuns.



(** ** The output overlay over whole runs *)

(** The reader thread reads the lines [ls] and the main loop shows each
    one before the next arrives; [h] is the handle of the first
    callback. *)
Fixpoint printing (h : nat) (ls : list string) : list OutputOverlay.event :=
  match ls with
  | [] => []
  | l :: ls' => OutputOverlay.ReaderLine l :: OutputOverlay.Fire h :: printing (S h) ls'
  end.

Definition concat_lines (ls : list string) : string := fold_right String.append "" ls.

Lemma append_assoc (a b c : string) : (a +:+ b) +:+ c = a +:+ (b +:+ c).
Proof.
  induction a as [|x a IH]; [reflexivity|].
  change ((String x a +:+ b) +:+ c) with (String x ((a +:+ b) +:+ c)).
  rewrite IH. reflexivity.
Qed.

Lemma append_nil_r (a : string) : a +:+ "" = a.
Proof.
  induction a as [|x a IH]; [reflexivity|].
  change (String x a +:+ "") with (String x (a +:+ "")). rewrite IH. reflexivity.
Qed.

(** A line is read and its callback runs. *)
Lemma line_shown (tr : string -> string) (l : string) tx ti ie iv wi eo uc pr n (b : bool) wd al :
  OutputOverlay.step tr
    (OutputOverlay.step tr
       (OutputOverlay.World tx ti ie iv wi eo uc pr (Sched n ∅) (Some b) wd al)
       (OutputOverlay.ReaderLine l))
    (OutputOverlay.Fire n)
  = OutputOverlay.World (tx +:+ l) ti ie iv wi eo uc pr (Sched (S n) ∅) (Some true) wd al.
Proof.
  cbn [OutputOverlay.step OutputOverlay.read_output_line OutputOverlay.reader].
  unfold OutputOverlay.post, after, due.
  cbn [OutputOverlay.set_sch OutputOverlay.set_reader OutputOverlay.sch
       OutputOverlay.text OutputOverlay.title OutputOverlay.input_enabled
       OutputOverlay.input_var OutputOverlay.waiting_for_input
       OutputOverlay.error_occurred_ OutputOverlay.user_closed OutputOverlay.proc
       OutputOverlay.reader OutputOverlay.withdrawn OutputOverlay.alerts
       next_handle pending snd].
  rewrite lookup_insert_eq.
  unfold after_cancel.
  cbn [OutputOverlay.run_callback OutputOverlay._append_output OutputOverlay.set_text
       OutputOverlay.set_sch OutputOverlay.sch
       OutputOverlay.text OutputOverlay.title OutputOverlay.input_enabled
       OutputOverlay.input_var OutputOverlay.waiting_for_input
       OutputOverlay.error_occurred_ OutputOverlay.user_closed OutputOverlay.proc
       OutputOverlay.reader OutputOverlay.withdrawn OutputOverlay.alerts
       next_handle pending].
  rewrite insert_empty, delete_singleton_eq. reflexivity.
Qed.

(** The overlay after the lines [ls] were read and shown. *)
Lemma printing_shows (tr : string -> string) (ls : list string) :
  forall tx ti ie iv wi eo uc pr n (b : bool) wd al,
    OutputOverlay.run tr
      (OutputOverlay.World tx ti ie iv wi eo uc pr (Sched n ∅) (Some b) wd al)
      (printing n ls)
    = OutputOverlay.World (tx +:+ concat_lines ls) ti ie iv wi eo uc pr
        (Sched (n + length ls) ∅)
        (Some (match ls with [] => b | _ => true end)) wd al.
Proof.
  induction ls as [|l ls IH]; intros.
  - cbn. rewrite append_nil_r, Nat.add_0_r. reflexivity.
  - change (OutputOverlay.run tr ?w (printing n (l :: ls)))
      with (OutputOverlay.run tr
              (OutputOverlay.step tr (OutputOverlay.step tr w (OutputOverlay.ReaderLine l))
                 (OutputOverlay.Fire n))
              (printing (S n) ls)).
    rewrite line_shown, IH. cbn [concat_lines fold_right length].
    rewrite append_assoc. replace (S n + length ls)%nat with (n + S (length ls))%nat by lia.
    f_equal. destruct ls; reflexivity.
Qed.

(** The reader meets the end of the output with an exit code that is no
    error. *)
Lemma exit_posts_finalize (tr : string -> string) (exit_code : Z)
    tx ti ie iv wi eo uc pr n (b : bool) wd al :
  OutputOverlay.exit_is_error uc exit_code = false ->
  OutputOverlay.step tr
    (OutputOverlay.World tx ti ie iv wi eo uc pr (Sched n ∅) (Some b) wd al)
    (OutputOverlay.ReaderExit exit_code)
  = OutputOverlay.World tx ti ie iv wi eo uc (stop_process <$> pr)
      (Sched (S n) {[ n := (0, OutputOverlay.CbFinalizeOutput b false) ]}) None wd al.
Proof.
  intros He. cbn [OutputOverlay.step]. unfold OutputOverlay.read_output_exit.
  cbn [OutputOverlay.reader]. cbv zeta.
  cbn [OutputOverlay.set_proc OutputOverlay.set_reader OutputOverlay.user_closed
       OutputOverlay.sch OutputOverlay.text OutputOverlay.title OutputOverlay.input_enabled
       OutputOverlay.input_var OutputOverlay.waiting_for_input
       OutputOverlay.error_occurred_ OutputOverlay.proc
       OutputOverlay.reader OutputOverlay.withdrawn OutputOverlay.alerts].
  rewrite He. unfold OutputOverlay.post, after. cbn. rewrite insert_empty. reflexivity.
Qed.

(** The finalization of a run without an error comes due. *)
Lemma finalize_clean (tr : string -> string) tx ti ie iv wi uc pr n (b : bool) rd wd al :
  PyStr.contains OutputOverlay.error_mark ti = false ->
  OutputOverlay.step tr
    (OutputOverlay.World tx ti ie iv wi false uc pr
       (Sched (S n) {[ n := (0, OutputOverlay.CbFinalizeOutput b false) ]}) rd wd al)
    (OutputOverlay.Fire n)
  = OutputOverlay.World
      (if b then tx else tx +:+ tr ("(No output generated)" +:+ nl)) ti false iv wi false uc pr
      (Sched (S (S n)) {[ S n := (2000, OutputOverlay.CbClose) ]}) rd wd al.
Proof.
  intros Ht. cbn [OutputOverlay.step]. unfold due. cbn [OutputOverlay.sch pending].
  rewrite lookup_singleton_eq. unfold after_cancel.
  cbn [OutputOverlay.set_sch OutputOverlay.sch
       OutputOverlay.text OutputOverlay.title OutputOverlay.input_enabled
       OutputOverlay.input_var OutputOverlay.waiting_for_input
       OutputOverlay.error_occurred_ OutputOverlay.user_closed OutputOverlay.proc
       OutputOverlay.reader OutputOverlay.withdrawn OutputOverlay.alerts
       next_handle pending OutputOverlay.run_callback].
  rewrite delete_singleton_eq.
  unfold OutputOverlay._finalize_output. cbv zeta.
  destruct b; cbn; rewrite Ht; unfold OutputOverlay.post, after; cbn;
    rewrite insert_empty; reflexivity.
Qed.

(** The close that the finalization scheduled comes due. *)
Lemma scheduled_close (tr : string -> string) tx ti ie iv wi eo uc pr n rd wd al :
  OutputOverlay.step tr
    (OutputOverlay.World tx ti ie iv wi eo uc pr
       (Sched (S n) {[ n := (2000, OutputOverlay.CbClose) ]}) rd wd al)
    (OutputOverlay.Fire n)
  = OutputOverlay.close
      (OutputOverlay.World tx ti ie iv wi eo uc pr (Sched (S n) ∅) rd wd al).
Proof.
  cbn [OutputOverlay.step]. unfold due. cbn [OutputOverlay.sch pending].
  rewrite lookup_singleton_eq. unfold after_cancel.
  cbn [OutputOverlay.set_sch OutputOverlay.sch
       OutputOverlay.text OutputOverlay.title OutputOverlay.input_enabled
       OutputOverlay.input_var OutputOverlay.waiting_for_input
       OutputOverlay.error_occurred_ OutputOverlay.user_closed OutputOverlay.proc
       OutputOverlay.reader OutputOverlay.withdrawn OutputOverlay.alerts
       next_handle pending OutputOverlay.run_callback].
  rewrite delete_singleton_eq. reflexivity.
Qed.

(** X16.  A script that starts, prints its lines and exits with a code
    that is no error: the overlay shows [Running...] and then the lines
    in the order they were printed (or the note that there was no
    output), keeps its title, disables the entry, shows no error box and,
    once the close it scheduled for two seconds later has run, is
    withdrawn with nothing left scheduled. *)
Theorem X16_clean_run_shows_the_lines_and_closes
    (tr : string -> string) (script_path : string) (btn_label : option string)
    (ls : list string) (exit_code : Z) :
  PyStr.contains OutputOverlay.error_mark
    (OutputOverlay.title (OutputOverlay.init tr btn_label)) = false ->
  OutputOverlay.exit_is_error false exit_code = false ->
  let n := length ls in
  let w := OutputOverlay.run tr
             (OutputOverlay.run_script tr script_path OutputOverlay.Started
                (OutputOverlay.init tr btn_label))
             (printing 0 ls ++ [OutputOverlay.ReaderExit exit_code;
                                OutputOverlay.Fire n; OutputOverlay.Fire (S n)]) in
  OutputOverlay.text w
  = "Running..." +:+ nl +:+ concat_lines ls
      +:+ match ls with [] => tr ("(No output generated)" +:+ nl) | _ => "" end /\
  OutputOverlay.title w = OutputOverlay.title (OutputOverlay.init tr btn_label) /\
  OutputOverlay.input_enabled w = false /\
  OutputOverlay.error_occurred_ w = false /\
  OutputOverlay.alerts w = [] /\
  OutputOverlay.proc w = Some (Process false "" true) /\
  OutputOverlay.withdrawn w = true /\
  pending (OutputOverlay.sch w) = ∅.
Proof.
  intros Ht He. cbv zeta.
  set (ti := OutputOverlay.title (OutputOverlay.init tr btn_label)) in *.
  assert (H0 : OutputOverlay.run_script tr script_path OutputOverlay.Started
                 (OutputOverlay.init tr btn_label)
               = OutputOverlay.World ("Running..." +:+ nl) ti true
                   (tr "Type your input here...") false false false
                   (Some (Process true "" true)) (Sched 0 ∅) (Some false) false [])
    by reflexivity.
  unfold OutputOverlay.run. rewrite fold_left_app.
  change (fold_left (OutputOverlay.step tr) (printing 0 ls) ?w)
    with (OutputOverlay.run tr w (printing 0 ls)).
  rewrite H0, printing_shows. clearbody ti. cbn [Nat.add fold_left].
  rewrite (exit_posts_finalize tr exit_code _ _ _ _ _ _ _ _ _ _ _ _ He).
  rewrite (finalize_clean tr _ _ _ _ _ _ _ _ _ _ _ _ Ht).
  rewrite scheduled_close.
  destruct ls as [|l ls]; cbn; rewrite ?append_nil_r, ?append_assoc; repeat split.
Qed.

Lemma X16_witness_two_lines :
  let ls := ["compiling" +:+ nl; "done" +:+ nl] in
  let w := OutputOverlay.run id
             (OutputOverlay.run_script id "build.py" OutputOverlay.Started
                (OutputOverlay.init id (Some "Build")))
             (printing 0 ls ++ [OutputOverlay.ReaderExit 0;
                                OutputOverlay.Fire 2; OutputOverlay.Fire 3]) in
  OutputOverlay.text w
  = "Running..." +:+ nl +:+ concat_lines ls +:+ "" /\
  OutputOverlay.title w = "Script Output - Build" /\
  OutputOverlay.input_enabled w = false /\
  OutputOverlay.error_occurred_ w = false /\
  OutputOverlay.alerts w = [] /\
  OutputOverlay.proc w = Some (Process false "" true) /\
  OutputOverlay.withdrawn w = true /\
  pending (OutputOverlay.sch w) = ∅.
Proof.
  exact (X16_clean_run_shows_the_lines_and_closes id "build.py" (Some "Build")
           ["compiling" +:+ nl; "done" +:+ nl] 0 eq_refl eq_refl).
Defined.

(** Nothing runs behind the overlay: no process, no reader thread, no
    pending callback, and the entry is disabled. *)
Definition idle_overlay (w : OutputOverlay.world) : Prop :=
  OutputOverlay.proc w = None /\ OutputOverlay.reader w = None /\
  pending (OutputOverlay.sch w) = ∅ /\ OutputOverlay.input_enabled w = false.

Definition is_close (ev : OutputOverlay.event) : bool :=
  match ev with OutputOverlay.CloseWindow => true | _ => false end.

Lemma idle_overlay_step (tr : string -> string) (w : OutputOverlay.world) ev :
  idle_overlay w ->
  OutputOverlay.step tr w ev = (if is_close ev then OutputOverlay.close w else w).
Proof.
  intros (Hp & Hr & Hs & Hi). destruct w as [tx ti ie iv wi eo uc pr [n pd] rd wd al].
  cbn in Hp, Hr, Hs, Hi. subst.
  destruct ev; cbn; reflexivity.
Qed.

Lemma idle_overlay_close (w : OutputOverlay.world) :
  idle_overlay w ->
  idle_overlay (OutputOverlay.close w) /\
  OutputOverlay.close (OutputOverlay.close w) = OutputOverlay.close w.
Proof.
  intros (Hp & Hr & Hs & Hi). destruct w as [tx ti ie iv wi eo uc pr [n pd] rd wd al].
  cbn in Hp, Hr, Hs, Hi. subst. split; [repeat split|reflexivity].
Qed.

Lemma idle_overlay_run (tr : string -> string) es : forall w : OutputOverlay.world,
  idle_overlay w ->
  OutputOverlay.run tr w es = (if existsb is_close es then OutputOverlay.close w else w).
Proof.
  induction es as [|ev es IH]; intros w Hw; [reflexivity|].
  cbn [OutputOverlay.run fold_left existsb].
  change (fold_left (OutputOverlay.step tr) es ?x) with (OutputOverlay.run tr x es).
  rewrite (idle_overlay_step tr w ev Hw).
  destruct (is_close ev); cbn [orb].
  - destruct (idle_overlay_close w Hw) as [Hc Hcc].
    rewrite (IH _ Hc), Hcc. destruct (existsb is_close es); reflexivity.
  - apply IH, Hw.
Qed.

(** X17.  A launch that fails (the script file or the interpreter is
    missing, or the process cannot be started) is final: the overlay
    shows the error, marks its title, disables the entry and raises one
    error box, and after that no reader line, exit, callback, typing or
    Return key changes anything; only closing the window does, and that
    only withdraws it. *)
Theorem X17_a_failed_launch_is_final
    (tr : string -> string) (script_path : string) (btn_label : option string)
    (l : OutputOverlay.launch) (es : list OutputOverlay.event) :
  l <> OutputOverlay.Started ->
  let w0 := OutputOverlay.run_script tr script_path l (OutputOverlay.init tr btn_label) in
  OutputOverlay.run tr w0 es
  = (if existsb is_close es then OutputOverlay.close w0 else w0) /\
  OutputOverlay.close w0
  = OutputOverlay.set_withdrawn true (OutputOverlay.set_user_closed true w0) /\
  OutputOverlay.title w0
  = OutputOverlay.title (OutputOverlay.init tr btn_label) +:+ OutputOverlay.error_mark /\
  OutputOverlay.input_enabled w0 = false /\
  OutputOverlay.proc w0 = None /\
  length (OutputOverlay.alerts w0) = 1%nat.
Proof.
  intros Hl. cbv zeta.
  assert (Hi : idle_overlay
                 (OutputOverlay.run_script tr script_path l (OutputOverlay.init tr btn_label))).
  { destruct l; try contradiction; repeat split. }
  split; [apply idle_overlay_run, Hi|].
  destruct l; try contradiction;
    unfold OutputOverlay.run_script, OutputOverlay.show_failure, OutputOverlay.close,
      OutputOverlay.init; cbv zeta;
    cbn [OutputOverlay.set_text OutputOverlay.set_title OutputOverlay.set_input_enabled
         OutputOverlay.set_error_occurred_ OutputOverlay.set_alerts
         OutputOverlay.set_user_closed OutputOverlay.set_withdrawn OutputOverlay.set_proc
         OutputOverlay.text OutputOverlay.title OutputOverlay.input_enabled
         OutputOverlay.input_var OutputOverlay.waiting_for_input
         OutputOverlay.error_occurred_ OutputOverlay.user_closed OutputOverlay.proc
         OutputOverlay.sch OutputOverlay.reader OutputOverlay.withdrawn
         OutputOverlay.alerts length app];
    (split; [reflexivity|]); (split; [reflexivity|]); (split; [reflexivity|]);
    (split; reflexivity).
Qed.

Lemma X17_witness_missing_script :
  let w0 := OutputOverlay.run_script id "gone.py" OutputOverlay.ScriptMissing
              (OutputOverlay.init id None) in
  OutputOverlay.run id w0 [OutputOverlay.TypeInput "y"; OutputOverlay.Return;
                           OutputOverlay.Fire 0]
  = w0 /\
  OutputOverlay.close w0
  = OutputOverlay.set_withdrawn true (OutputOverlay.set_user_closed true w0) /\
  OutputOverlay.title w0 = "Script Output" +:+ OutputOverlay.error_mark /\
  OutputOverlay.input_enabled w0 = false /\
  OutputOverlay.proc w0 = None /\
  length (OutputOverlay.alerts w0) = 1%nat.
Proof.
  exact (X17_a_failed_launch_is_final id "gone.py" None OutputOverlay.ScriptMissing
           [OutputOverlay.TypeInput "y"; OutputOverlay.Return; OutputOverlay.Fire 0]
           ltac:(discriminate)).
Defined.

(** The process of the overlay, if there is one, has stopped. *)
Definition script_stopped (w : OutputOverlay.world) : Prop :=
  match OutputOverlay.proc w with
  | Some p => alive p = false
  | None => True
  end.

Lemma script_stopped_step (tr : string -> string) (w : OutputOverlay.world) ev :
  script_stopped w ->
  OutputOverlay.proc (OutputOverlay.step tr w ev) = OutputOverlay.proc w.
Proof.
  unfold script_stopped.
  destruct w as [tx ti ie iv wi eo uc pr [n pd] rd wd al]. cbn [OutputOverlay.proc].
  intros Hp.
  assert (Hstop : stop_process <$> pr = pr).
  { destruct pr as [[a si so]|]; [|reflexivity]. cbn in Hp. subst a. reflexivity. }
  assert (Hclose : forall tx ti ie iv wi eo uc s rd wd al,
            OutputOverlay.proc
              (OutputOverlay.close (OutputOverlay.World tx ti ie iv wi eo uc pr s rd wd al))
            = pr).
  { intros. unfold OutputOverlay.close. cbn.
    destruct pr as [[a si so]|]; [|reflexivity]. cbn in Hp. subst a. reflexivity. }
  destruct ev as [line|code|e|h|s| |]; cbn [OutputOverlay.step].
  - unfold OutputOverlay.read_output_line. cbn. destruct rd; reflexivity.
  - unfold OutputOverlay.read_output_exit. cbn [OutputOverlay.reader].
    destruct rd as [b|]; [|reflexivity]. cbv zeta.
    destruct (OutputOverlay.exit_is_error _ _); cbn; exact Hstop.
  - unfold OutputOverlay.read_output_error. cbn. destruct rd; reflexivity.
  - unfold due. cbn [OutputOverlay.sch pending].
    destruct (pd !! h) as [[d f]|]; [|reflexivity].
    destruct f as [line|o e|]; cbn [OutputOverlay.run_callback].
    + reflexivity.
    + unfold OutputOverlay._finalize_output. cbv zeta. cbn.
      destruct o, (e || eo); cbn; repeat (match goal with
        |- context [if ?c then _ else _] => destruct c end); reflexivity.
    + apply Hclose.
  - cbn. destruct ie; reflexivity.
  - unfold OutputOverlay.send_input. cbn.
    destruct pr as [[a si so]|]; [|reflexivity]. cbn in Hp. subst a. reflexivity.
  - apply Hclose.
Qed.

Lemma script_stopped_run (tr : string -> string) es : forall w : OutputOverlay.world,
  script_stopped w ->
  OutputOverlay.proc (OutputOverlay.run tr w es) = OutputOverlay.proc w.
Proof.
  induction es as [|ev es IH]; intros w Hw; [reflexivity|].
  cbn [OutputOverlay.run fold_left].
  change (fold_left (OutputOverlay.step tr) es ?x) with (OutputOverlay.run tr x es).
  pose proof (script_stopped_step tr w ev Hw) as Hs.
  rewrite IH; [exact Hs|]. unfold script_stopped in *. rewrite Hs. exact Hw.
Qed.

(** X18.  Once the overlay has been closed, or the reader has seen the
    script exit, the script has stopped and stays as it is: whatever is
    typed and however often Return is pressed afterwards, nothing more is
    written to its stdin. *)
Theorem X18_no_input_reaches_a_stopped_script
    (tr : string -> string) (w : OutputOverlay.world) (exit_code : Z)
    (es : list OutputOverlay.event) :
  let closed := OutputOverlay.close w in
  let exited := OutputOverlay.read_output_exit tr exit_code w in
  script_stopped closed /\
  OutputOverlay.proc (OutputOverlay.run tr closed es) = OutputOverlay.proc closed /\
  (is_Some (OutputOverlay.reader w) ->
   script_stopped exited /\
   OutputOverlay.proc (OutputOverlay.run tr exited es) = OutputOverlay.proc exited).
Proof.
  cbv zeta.
  assert (Hc : script_stopped (OutputOverlay.close w)).
  { destruct w as [tx ti ie iv wi eo uc pr [n pd] rd wd al].
    unfold script_stopped, OutputOverlay.close. cbn.
    destruct pr as [[[|] si so]|]; cbn; trivial. }
  split; [exact Hc|]. split; [apply script_stopped_run, Hc|].
  intros [b Hb].
  assert (He : script_stopped (OutputOverlay.read_output_exit tr exit_code w)).
  { destruct w as [tx ti ie iv wi eo uc pr [n pd] rd wd al]. cbn in Hb. subst rd.
    unfold script_stopped, OutputOverlay.read_output_exit. cbn [OutputOverlay.reader].
    cbv zeta. destruct (OutputOverlay.exit_is_error _ _); cbn;
      destruct pr as [[a si so]|]; cbn; trivial. }
  split; [exact He|apply script_stopped_run, He].
Qed.

Lemma X18_witness_typing_after_the_close :
  let closed := OutputOverlay.close overlay_after_output in
  let exited := OutputOverlay.read_output_exit id 0 overlay_after_output in
  OutputOverlay.proc
    (OutputOverlay.run id closed [OutputOverlay.TypeInput "y"; OutputOverlay.Return])
  = Some (Process false "" true) /\
  OutputOverlay.proc
    (OutputOverlay.run id exited [OutputOverlay.TypeInput "y"; OutputOverlay.Return])
  = Some (Process false "" true).
Proof.
  destruct (X18_no_input_reaches_a_stopped_script id overlay_after_output 0
              [OutputOverlay.TypeInput "y"; OutputOverlay.Return]) as (_ & H1 & H2).
  split; [exact H1|]. exact (proj2 (H2 (ex_intro _ true eq_refl))).
Defined.

(** ** The handler factory over whole runs *)

Section FactoryFacts.
Variable importable : Dispatcher.handler_class -> bool.
Variable execute : Dispatcher.handler_class -> gmap string string -> Dispatcher.outcome.

Local Abbreviation _ensure_handler_loaded := (Dispatcher._ensure_handler_loaded importable).
Local Abbreviation get_handler := (Dispatcher.get_handler importable).
Local Abbreviation run_script := (Dispatcher.run_script importable execute).

Definition is_lazy_load (t : string) (e : Dispatcher.log_entry) : bool :=
  match e with
  | Dispatcher.DebugLazyLoaded t' => String.eqb t' t
  | _ => false
  end.

(** How often the log reports that the handler of type [t] was loaded. *)
Definition times_loaded (t : string) (l : list Dispatcher.log_entry) : nat :=
  length (List.filter (is_lazy_load t) l).

(** The handler that the type [t] stands for, when its module can be
    imported. *)
Definition available (t : string) : option Dispatcher.handler_class :=
  match Dispatcher.class_of t with
  | Some c => if importable c then Some c else None
  | None => None
  end.

(** Every cached handler is the one its type stands for, and was loaded
    exactly once; nothing else was loaded. *)
Definition factory_ok (a : Dispatcher.app) : Prop :=
  forall t,
    match Dispatcher._handlers a !! t with
    | Some c => available t = Some c /\ times_loaded t (Dispatcher.log a) = 1%nat
    | None => times_loaded t (Dispatcher.log a) = 0%nat
    end.

Lemma times_loaded_snoc t l e :
  times_loaded t (l ++ [e]) = (times_loaded t l + if is_lazy_load t e then 1 else 0)%nat.
Proof.
  unfold times_loaded. rewrite List.filter_app, List.length_app. cbn.
  destruct (is_lazy_load t e); reflexivity.
Qed.

Lemma factory_ok_logger e a :
  (forall t, is_lazy_load t e = false) ->
  factory_ok a -> factory_ok (Dispatcher.logger e a).
Proof.
  intros He Ha t. specialize (Ha t). unfold Dispatcher.logger.
  cbn [Dispatcher._handlers Dispatcher.log].
  rewrite times_loaded_snoc, He, Nat.add_0_r. exact Ha.
Qed.

Lemma factory_ok_logger_handlers e a :
  Dispatcher._handlers (Dispatcher.logger e a) = Dispatcher._handlers a.
Proof. reflexivity. Qed.

(** After [_ensure_handler_loaded t] the cache holds for [t] what is
    available for it, and for every other type what it held. *)
Lemma ensure_handler_loaded_spec t a :
  factory_ok a ->
  let a' := _ensure_handler_loaded t a in
  factory_ok a' /\
  Dispatcher._handlers a' !! t = available t /\
  (forall t', t' <> t -> Dispatcher._handlers a' !! t' = Dispatcher._handlers a !! t') /\
  Dispatcher.alerts a' = Dispatcher.alerts a.
Proof.
  intros Ha. cbv zeta. unfold Dispatcher._ensure_handler_loaded.
  destruct (Dispatcher._handlers a !! t) as [c|] eqn:Hc.
  - pose proof (Ha t) as Ht. rewrite Hc in Ht. destruct Ht as [Hav _].
    repeat split; [exact Ha|congruence].
  - unfold Dispatcher._get_handler_class, available.
    destruct (Dispatcher.class_of t) as [c|] eqn:Hk.
    + destruct (importable c) eqn:Hi.
      * repeat split.
        -- intros t'. specialize (Ha t'). unfold Dispatcher.logger.
           cbn [Dispatcher._handlers Dispatcher.log].
           rewrite times_loaded_snoc. cbn [is_lazy_load].
           destruct (String.eqb_spec t t') as [<-|Hne].
           ++ rewrite lookup_insert_eq. rewrite Hc in Ha. rewrite Ha.
              unfold available. rewrite Hk, Hi. auto.
           ++ rewrite lookup_insert_ne by exact Hne. rewrite Nat.add_0_r. exact Ha.
        -- cbn. apply lookup_insert_eq.
        -- intros t' Hne. cbn. apply lookup_insert_ne. congruence.
      * repeat split; [|exact Hc].
        apply factory_ok_logger; [reflexivity|exact Ha].
    + repeat split; [|exact Hc].
      apply factory_ok_logger; [reflexivity|exact Ha].
Qed.

(** What [get_handler] falls back to. *)
Definition fallback : option Dispatcher.handler_class := available "python_script".

Lemma get_handler_spec t a :
  factory_ok a ->
  factory_ok (get_handler t a).2 /\
  (get_handler t a).1
  = match available t with Some c => Some c | None => fallback end.
Proof.
  intros Ha. unfold Dispatcher.get_handler. cbv zeta.
  destruct (ensure_handler_loaded_spec t a Ha) as (Hok & Ht & _).
  rewrite Ht. destruct (available t) as [c|] eqn:Hav.
  - split; [exact Hok|reflexivity].
  - cbn [fst snd].
    destruct (ensure_handler_loaded_spec "python_script"
                (Dispatcher.logger (Dispatcher.WarnNoHandlerFound t)
                   (_ensure_handler_loaded t a))) as (Hok' & Hp & _).
    { apply factory_ok_logger; [reflexivity|exact Hok]. }
    split; [exact Hok'|exact Hp].
Qed.

Lemma factory_ok_run_script cfg a : factory_ok a -> factory_ok (run_script cfg a).2.
Proof.
  intros Ha. unfold Dispatcher.run_script, Dispatcher.execute_button. cbv zeta.
  destruct (get_handler_spec (default "python_script" (cfg !! "type")) a Ha) as [Hok _].
  destruct (get_handler (default "python_script" (cfg !! "type")) a) as [[h|] a1];
    cbn [snd] in Hok.
  - destruct (execute h cfg) as [|e]; cbn [snd]; [exact Hok|].
    intros t. specialize (Hok t). cbn [Dispatcher._handlers Dispatcher.log Dispatcher.logger].
    rewrite !times_loaded_snoc. cbn [is_lazy_load]. rewrite !Nat.add_0_r. exact Hok.
  - cbn [snd]. apply factory_ok_logger; [reflexivity|exact Hok].
Qed.

(** The buttons [cfgs] are run one after the other. *)
Definition dispatch_all (cfgs : list (gmap string string)) (a : Dispatcher.app)
    : Dispatcher.app :=
  fold_left (λ a cfg, (run_script cfg a).2) cfgs a.

Lemma factory_ok_dispatch_all cfgs : forall a, factory_ok a -> factory_ok (dispatch_all cfgs a).
Proof.
  induction cfgs as [|cfg cfgs IH]; intros a Ha; [exact Ha|].
  apply IH, factory_ok_run_script, Ha.
Qed.

Lemma factory_ok_fresh : factory_ok (Dispatcher.App ∅ [] []).
Proof. intros t. cbn. rewrite lookup_empty. reflexivity. Qed.

(** A loop of [_ensure_handler_loaded] over the types [ts]. *)
Lemma ensure_all_spec ts : forall a,
  factory_ok a ->
  let a' := fold_left (λ a t, _ensure_handler_loaded t a) ts a in
  factory_ok a' /\
  (forall t, In t ts -> Dispatcher._handlers a' !! t = available t) /\
  (forall t, ~ In t ts -> Dispatcher._handlers a' !! t = Dispatcher._handlers a !! t) /\
  Dispatcher.alerts a' = Dispatcher.alerts a.
Proof.
  induction ts as [|t0 ts IH]; intros a Ha; cbv zeta.
  - repeat split; [exact Ha|intros t []].
  - cbn [fold_left].
    destruct (ensure_handler_loaded_spec t0 a Ha) as (Hok & Ht0 & Hother & Hal).
    destruct (IH _ Hok) as (Hok' & Hin & Hout & Hal').
    split; [exact Hok'|]. split; [|split].
    + intros t [<-|Ht].
      * destruct (in_dec String.string_dec t0 ts) as [Hi|Hn]; [apply Hin, Hi|].
        rewrite (Hout _ Hn). exact Ht0.
      * apply Hin, Ht.
    + intros t Hn. rewrite Hout by (intros H; apply Hn; right; exact H).
      apply Hother. intros ->. apply Hn. left. reflexivity.
    + rewrite Hal'. exact Hal.
Qed.
End FactoryFacts.

Lemma supported_types_are_known (t : string) :
  In t HandlerFactory.get_supported_types <-> is_Some (Dispatcher.class_of t).
Proof.
  split.
  - unfold HandlerFactory.get_supported_types. cbn [In].
    intros H. repeat (destruct H as [<-|H]; [eexists; reflexivity|]). contradiction.
  - unfold Dispatcher.class_of, HandlerFactory.get_supported_types. cbn [In].
    repeat match goal with
           | |- context [String.eqb t ?x] =>
               destruct (String.eqb_spec t x) as [->|_];
                 [intros _; repeat (first [left; reflexivity|right])|]
           end.
    intros [c Hc]. discriminate Hc.
Qed.

(** X19.  On a factory that has only been used through [run_script],
    starting from the empty one, [get_handler] resolves a type to the
    handler class of that name when its module can be imported, and
    otherwise (an unknown type, or a failing import) to the
    [python_script] handler, or to nothing when that cannot be imported
    either; the cache holds no handler under a wrong name. *)
Theorem X19_handler_resolution
    (importable : Dispatcher.handler_class -> bool)
    (execute : Dispatcher.handler_class -> gmap string string -> Dispatcher.outcome)
    (cfgs : list (gmap string string)) (t : string) :
  let a := dispatch_all importable execute cfgs (Dispatcher.App ∅ [] []) in
  (Dispatcher.get_handler importable t a).1
  = match available importable t with
    | Some c => Some c
    | None => available importable "python_script"
    end /\
  forall c, Dispatcher._handlers a !! t = Some c ->
            Dispatcher.class_of t = Some c /\ importable c = true.
Proof.
  cbv zeta.
  pose proof (factory_ok_dispatch_all importable execute cfgs _ (factory_ok_fresh importable))
    as Ha.
  split; [apply get_handler_spec, Ha|].
  intros c Hc. specialize (Ha t). rewrite Hc in Ha. destruct Ha as [Hav _].
  unfold available in Hav. destruct (Dispatcher.class_of t) as [c'|]; [|discriminate Hav].
  destruct (importable c') eqn:Hi; [|discriminate Hav]. injection Hav as ->. auto.
Qed.

(** X20.  However many buttons are run and whatever their handlers do,
    the factory loads the handler of each type at most once: the log
    reports one lazy load for each type in the cache and none for any
    other. *)
Theorem X20_each_handler_is_loaded_once
    (importable : Dispatcher.handler_class -> bool)
    (execute : Dispatcher.handler_class -> gmap string string -> Dispatcher.outcome)
    (cfgs : list (gmap string string)) (t : string) :
  let a := dispatch_all importable execute cfgs (Dispatcher.App ∅ [] []) in
  times_loaded t (Dispatcher.log a)
  = match Dispatcher._handlers a !! t with Some _ => 1%nat | None => 0%nat end.
Proof.
  cbv zeta.
  pose proof (factory_ok_dispatch_all importable execute cfgs _ (factory_ok_fresh importable) t)
    as Ha.
  destruct (Dispatcher._handlers _ !! t); [apply Ha|exact Ha].
Qed.

(** X21.  The types that [get_supported_types] lists are exactly those
    that [_get_handler_class] knows, and [preload_all_handlers], on a
    factory used through [run_script] before, leaves in the cache the
    handler of every listed type whose module can be imported, under its
    own name, and nothing else; it reports twelve handlers, loads none a
    second time and raises no error box. *)
Theorem X21_preload_fills_the_cache
    (importable : Dispatcher.handler_class -> bool)
    (execute : Dispatcher.handler_class -> gmap string string -> Dispatcher.outcome)
    (cfgs : list (gmap string string)) (t : string) :
  let a := dispatch_all importable execute cfgs (Dispatcher.App ∅ [] []) in
  let r := HandlerFactory.preload_all_handlers importable a in
  (In t HandlerFactory.get_supported_types <-> is_Some (Dispatcher.class_of t)) /\
  Dispatcher._handlers r.1 !! t = available importable t /\
  (times_loaded t (Dispatcher.log r.1) <= 1)%nat /\
  r.2 = 12%nat /\
  Dispatcher.alerts r.1 = Dispatcher.alerts a.
Proof.
  cbv zeta.
  pose proof (factory_ok_dispatch_all importable execute cfgs _ (factory_ok_fresh importable))
    as Ha.
  destruct (ensure_all_spec importable HandlerFactory.get_supported_types _ Ha)
    as (Hok & Hin & Hout & Hal).
  unfold HandlerFactory.preload_all_handlers. cbn [fst snd].
  split; [apply supported_types_are_known|].
  split; [|split; [|split; [reflexivity|exact Hal]]].
  - destruct (in_dec String.string_dec t HandlerFactory.get_supported_types) as [Hi|Hn].
    + apply Hin, Hi.
    + rewrite (Hout _ Hn).
      assert (Hk : Dispatcher.class_of t = None).
      { destruct (Dispatcher.class_of t) eqn:E; [|reflexivity].
        exfalso. apply Hn, supported_types_are_known. rewrite E. eauto. }
      unfold available. rewrite Hk.
      specialize (Ha t). destruct (Dispatcher._handlers _ !! t) as [c|]; [|reflexivity].
      destruct Ha as [Hav _]. unfold available in Hav. rewrite Hk in Hav. discriminate Hav.
  - specialize (Hok t). destruct (Dispatcher._handlers _ !! t).
    + destruct Hok as [_ ->]. lia.
    + rewrite Hok. lia.
Qed.

(** ** The validated configuration *)

Section ConfigFacts.
Local Abbreviation config := (gmap string Config.value).

(** The default of [key], if it has one. *)
Definition default_item (key : string) (l : list (string * Config.value))
    : option Config.value :=
  snd <$> List.find (λ kv, String.eqb kv.1 key) l.

Lemma fill_lookup (l : list (string * Config.value)) : forall (c : config) (k : string),
  fold_left (λ c kv, match c !! kv.1 with Some _ => c | None => <[kv.1 := kv.2]> c end) l c !! k
  = match c !! k with Some v => Some v | None => default_item k l end.
Proof.
  induction l as [|[k0 v0] l IH]; intros c k.
  - cbn. destruct (c !! k); reflexivity.
  - cbn [fold_left fst snd]. rewrite IH. unfold default_item. cbn [List.find fst].
    destruct (String.eqb_spec k0 k) as [->|Hne].
    + destruct (c !! k) as [v|] eqn:Hk.
      * rewrite Hk. reflexivity.
      * rewrite lookup_insert_eq. reflexivity.
    + destruct (c !! k0) as [v|] eqn:Hk0; [reflexivity|].
      rewrite lookup_insert_ne by exact Hne. reflexivity.
Qed.

Lemma fill_defaults_lookup (c : config) (k : string) :
  Config.fill_defaults c !! k
  = match c !! k with Some v => Some v | None => default_item k Config._get_default_config end.
Proof. apply fill_lookup. Qed.

(** [key] is set to [f] of what it holds. *)
Definition repair (key : string) (f : Config.value -> Config.value) (c : config) : config :=
  <[key := f (Config.get key c)]> c.

Lemma repair_lookup key f (c : config) k :
  repair key f c !! k = if String.eqb key k then Some (f (Config.get key c)) else c !! k.
Proof.
  unfold repair. destruct (String.eqb_spec key k) as [->|Hne].
  - apply lookup_insert_eq.
  - apply lookup_insert_ne, Hne.
Qed.

Lemma check_is_repair key (ok : Config.value -> bool) (d : Config.value) (c : config) :
  is_Some (c !! key) ->
  (if ok (Config.get key c) then c else <[key := d]> c)
  = repair key (λ v, if ok v then v else d) c.
Proof.
  intros [v Hv]. unfold repair, Config.get. rewrite Hv.
  change (default Config.VNone (Some v)) with v.
  destruct (ok v); [|reflexivity]. symmetry. apply insert_id, Hv.
Qed.

Lemma clamp_is_repair key (ok : Config.value -> bool) (g : Config.value -> Config.value)
    (d : Config.value) (c : config) :
  (if ok (Config.get key c) then <[key := g (Config.get key c)]> c else <[key := d]> c)
  = repair key (λ v, if ok v then g v else d) c.
Proof. unfold repair. destruct (ok (Config.get key c)); reflexivity. Qed.

Lemma repair_present key f (c : config) k : is_Some (c !! k) -> is_Some (repair key f c !! k).
Proof. rewrite repair_lookup. destruct (String.eqb key k); eauto. Qed.

(** What the checks make of a value. *)
Definition fix_button_size (v : Config.value) : Config.value :=
  if Config.isinstance_int v then v else Config.VInt 80.
Definition fix_translucency (v : Config.value) : Config.value :=
  if Config.isinstance_number v then Config.max_zero (Config.min_one v) else Config.VFloat 1.
Definition fix_choice (l : list string) (d : string) (v : Config.value) : Config.value :=
  if Config.in_strings l v then v else Config.VStr d.

Definition fix_theme := fix_choice ["light"; "dark"] "dark".
Definition fix_language := fix_choice ["en"; "es"] "en".
Definition fix_animation := fix_choice Config.valid_animation_types "ripple".
Definition fix_log_level := fix_choice ["DEBUG"; "INFO"; "WARNING"; "ERROR"] "WARNING".

(** [_validate_and_fix_config] is the six repairs in turn. *)
Lemma validate_is_repairs (c : config) :
  Config._validate_and_fix_config c
  = repair "log_level" fix_log_level
      (repair "default_animation_type" fix_animation
         (repair "language" fix_language
            (repair "theme" fix_theme
               (repair "translucency" fix_translucency
                  (repair "button_size" fix_button_size (Config.fill_defaults c)))))).
Proof.
  assert (P : forall k, is_Some (default_item k Config._get_default_config) ->
              is_Some (Config.fill_defaults c !! k)).
  { intros k Hk. rewrite fill_defaults_lookup. destruct (c !! k); eauto. }
  unfold Config._validate_and_fix_config. cbv zeta.
  change (Config.defaults "button_size") with (Config.VInt 80).
  change (Config.defaults "translucency") with (Config.VFloat 1).
  change (Config.defaults "theme") with (Config.VStr "dark").
  change (Config.defaults "language") with (Config.VStr "en").
  change (Config.defaults "default_animation_type") with (Config.VStr "ripple").
  change (Config.defaults "log_level") with (Config.VStr "WARNING").
  rewrite (check_is_repair "button_size" Config.isinstance_int (Config.VInt 80))
    by (apply P; eexists; reflexivity).
  fold fix_button_size.
  rewrite (clamp_is_repair "translucency" Config.isinstance_number
             (λ v, Config.max_zero (Config.min_one v)) (Config.VFloat 1)).
  fold fix_translucency.
  rewrite (check_is_repair "theme" (Config.in_strings ["light"; "dark"]) (Config.VStr "dark"))
    by (do 2 apply repair_present; apply P; eexists; reflexivity).
  rewrite (check_is_repair "language" (Config.in_strings ["en"; "es"]) (Config.VStr "en"))
    by (do 3 apply repair_present; apply P; eexists; reflexivity).
  rewrite (check_is_repair "default_animation_type"
             (Config.in_strings Config.valid_animation_types) (Config.VStr "ripple"))
    by (do 4 apply repair_present; apply P; eexists; reflexivity).
  rewrite (check_is_repair "log_level"
             (Config.in_strings ["DEBUG"; "INFO"; "WARNING"; "ERROR"]) (Config.VStr "WARNING"))
    by (do 5 apply repair_present; apply P; eexists; reflexivity).
  reflexivity.
Qed.

Lemma get_repair_ne key f (c : config) k :
  key <> k -> Config.get k (repair key f c) = Config.get k c.
Proof. intros Hne. unfold Config.get. rewrite repair_lookup.
  destruct (String.eqb_spec key k); [contradiction|reflexivity]. Qed.

(** The check that [_validate_and_fix_config] has for a key. *)
Definition fixer (k : string) : option (Config.value -> Config.value) :=
  if String.eqb "log_level" k then Some fix_log_level
  else if String.eqb "default_animation_type" k then Some fix_animation
  else if String.eqb "language" k then Some fix_language
  else if String.eqb "theme" k then Some fix_theme
  else if String.eqb "translucency" k then Some fix_translucency
  else if String.eqb "button_size" k then Some fix_button_size
  else None.

Ltac other_key := let H := fresh in intros H; discriminate H.

Lemma validate_lookup (c : config) (k : string) :
  Config._validate_and_fix_config c !! k
  = match fixer k with
    | Some f => Some (f (Config.get k (Config.fill_defaults c)))
    | None => Config.fill_defaults c !! k
    end.
Proof.
  rewrite validate_is_repairs. unfold fixer. rewrite !repair_lookup.
  destruct (String.eqb_spec "log_level" k) as [<-|_].
  { rewrite !get_repair_ne by other_key. reflexivity. }
  destruct (String.eqb_spec "default_animation_type" k) as [<-|_].
  { rewrite !get_repair_ne by other_key. reflexivity. }
  destruct (String.eqb_spec "language" k) as [<-|_].
  { rewrite !get_repair_ne by other_key. reflexivity. }
  destruct (String.eqb_spec "theme" k) as [<-|_].
  { rewrite !get_repair_ne by other_key. reflexivity. }
  destruct (String.eqb_spec "translucency" k) as [<-|_].
  { rewrite !get_repair_ne by other_key. reflexivity. }
  destruct (String.eqb_spec "button_size" k) as [<-|_]; reflexivity.
Qed.

Lemma validate_get (c : config) (k : string) (f : Config.value -> Config.value) :
  fixer k = Some f ->
  Config.get k (Config._validate_and_fix_config c)
  = f (Config.get k (Config.fill_defaults c)).
Proof. intros Hf. unfold Config.get at 1. rewrite validate_lookup, Hf. reflexivity. Qed.

(** A float that is less than another is at most the other. *)
Lemma ltb_leb (x y : float) : PrimFloat.ltb x y = true -> PrimFloat.leb x y = true.
Proof.
  rewrite ltb_spec, leb_spec. unfold SFltb, SFleb.
  destruct (SFcompare (Prim2SF x) (Prim2SF y)) as [[| |]|]; intros H;
    first [reflexivity|discriminate H].
Qed.

(** The translucency after the check: a float from 0.0 to 1.0, on which
    the check changes nothing. *)
Lemma fix_translucency_range (v : Config.value) :
  exists x, fix_translucency v = Config.VFloat x /\
            PrimFloat.leb 0 x = true /\ PrimFloat.leb x 1 = true /\
            fix_translucency (Config.VFloat x) = Config.VFloat x.
Proof.
  unfold fix_translucency, Config.max_zero, Config.min_one.
  destruct v as [|b|n|x|s|l|d]; cbn [Config.isinstance_number Config.lt_one].
  - exists 1%float. repeat split.
  - destruct b; cbn; [exists 1%float|exists 0%float]; repeat split.
  - destruct (Z.ltb_spec n 1); cbn [Config.gt_zero].
    + destruct (Z.ltb_spec 0 n); [lia|]. exists 0%float. repeat split.
    + exists 1%float. repeat split.
  - destruct (PrimFloat.ltb x 1) eqn:H1; cbn [Config.gt_zero].
    + destruct (PrimFloat.ltb 0 x) eqn:H0.
      * exists x. split; [reflexivity|]. split; [apply ltb_leb, H0|].
        split; [apply ltb_leb, H1|].
        cbn [Config.isinstance_number Config.lt_one]. rewrite H1.
        cbn [Config.gt_zero]. rewrite H0. reflexivity.
      * exists 0%float. repeat split.
    + exists 1%float. repeat split.
  - exists 1%float. repeat split.
  - exists 1%float. repeat split.
  - exists 1%float. repeat split.
Qed.

Lemma fix_choice_ok l d (v : Config.value) :
  existsb (String.eqb d) l = true ->
  Config.in_strings l (fix_choice l d v) = true /\
  fix_choice l d (fix_choice l d v) = fix_choice l d v.
Proof.
  intros Hd. unfold fix_choice.
  destruct (Config.in_strings l v) eqn:Hv.
  - rewrite Hv. auto.
  - cbn [Config.in_strings]. rewrite Hd. auto.
Qed.

Lemma fix_button_size_ok (v : Config.value) :
  Config.isinstance_int (fix_button_size v) = true /\
  fix_button_size (fix_button_size v) = fix_button_size v.
Proof.
  unfold fix_button_size. destruct (Config.isinstance_int v) eqn:Hv.
  - rewrite Hv. auto.
  - auto.
Qed.

(** Every check leaves a value that it accepts as it is. *)
Lemma fixer_idempotent k f v : fixer k = Some f -> f (f v) = f v.
Proof.
  unfold fixer.
  repeat match goal with
         | |- context [String.eqb ?a k] => destruct (String.eqb a k)
         end; intros [= <-];
    try (apply fix_choice_ok; reflexivity).
  - destruct (fix_translucency_range v) as (x & -> & _ & _ & H). exact H.
  - apply fix_button_size_ok.
Qed.

Lemma fixer_is_default k f :
  fixer k = Some f -> is_Some (default_item k Config._get_default_config).
Proof.
  unfold fixer.
  repeat match goal with
         | |- context [String.eqb ?a k] => destruct (String.eqb_spec a k) as [<-|_]
         end; intros [= <-]; eexists; reflexivity.
Qed.

Lemma validate_keeps_defaults (c : config) (k : string) :
  is_Some (default_item k Config._get_default_config) ->
  is_Some (Config._validate_and_fix_config c !! k).
Proof.
  intros Hk. rewrite validate_lookup. destruct (fixer k); [eauto|].
  rewrite fill_defaults_lookup. destruct (c !! k); eauto.
Qed.

Lemma fill_defaults_filled (c : config) :
  (forall k, is_Some (default_item k Config._get_default_config) -> is_Some (c !! k)) ->
  Config.fill_defaults c = c.
Proof.
  intros H. apply map_eq. intros k. rewrite fill_defaults_lookup.
  destruct (c !! k) as [v|] eqn:Hk; [reflexivity|].
  destruct (default_item k Config._get_default_config) as [d|] eqn:Hd; [|reflexivity].
  destruct (H k) as [v Hv]; [rewrite Hd; eauto|]. congruence.
Qed.
End ConfigFacts.

(** X22.  Whatever the configuration file holds, after
    [_validate_and_fix_config] every key of the defaults is present,
    [button_size] is an int, [translucency] is a float from 0.0 to 1.0,
    and [theme], [language], [default_animation_type] and [log_level] each
    hold one of their allowed texts; a key without a check keeps the value
    of the file. *)
Theorem X22_validated_configuration (config_data : gmap string Config.value) :
  let c := Config._validate_and_fix_config config_data in
  (forall k d, In (k, d) Config._get_default_config -> is_Some (c !! k)) /\
  Config.isinstance_int (Config.get "button_size" c) = true /\
  (exists x, c !! "translucency" = Some (Config.VFloat x) /\
             PrimFloat.leb 0 x = true /\ PrimFloat.leb x 1 = true) /\
  Config.in_strings ["light"; "dark"] (Config.get "theme" c) = true /\
  Config.in_strings ["en"; "es"] (Config.get "language" c) = true /\
  Config.in_strings Config.valid_animation_types (Config.get "default_animation_type" c) = true /\
  Config.in_strings ["DEBUG"; "INFO"; "WARNING"; "ERROR"] (Config.get "log_level" c) = true /\
  forall k v, fixer k = None -> config_data !! k = Some v -> c !! k = Some v.
Proof.
  cbv zeta. split; [|split; [|split; [|split; [|split; [|split; [|split]]]]]].
  - intros k d Hin. apply validate_keeps_defaults.
    unfold Config._get_default_config in Hin. cbn [In] in Hin.
    repeat (destruct Hin as [[= <- <-]|Hin]; [eexists; reflexivity|]). contradiction.
  - rewrite (validate_get _ "button_size" fix_button_size eq_refl). apply fix_button_size_ok.
  - rewrite validate_lookup. change (fixer "translucency") with (Some fix_translucency).
    destruct (fix_translucency_range
                (Config.get "translucency" (Config.fill_defaults config_data)))
      as (x & -> & H0 & H1 & _).
    exists x. auto.
  - rewrite (validate_get _ "theme" fix_theme eq_refl). apply fix_choice_ok. reflexivity.
  - rewrite (validate_get _ "language" fix_language eq_refl). apply fix_choice_ok. reflexivity.
  - rewrite (validate_get _ "default_animation_type" fix_animation eq_refl).
    apply fix_choice_ok. reflexivity.
  - rewrite (validate_get _ "log_level" fix_log_level eq_refl). apply fix_choice_ok. reflexivity.
  - intros k v Hf Hk. rewrite validate_lookup, Hf, fill_defaults_lookup, Hk. reflexivity.
Qed.

(** X23.  Validating a validated configuration changes nothing. *)
Theorem X23_validation_is_idempotent (config_data : gmap string Config.value) :
  Config._validate_and_fix_config (Config._validate_and_fix_config config_data)
  = Config._validate_and_fix_config config_data.
Proof.
  set (c := Config._validate_and_fix_config config_data).
  assert (Hfill : Config.fill_defaults c = c).
  { apply fill_defaults_filled. intros k Hk. apply validate_keeps_defaults, Hk. }
  apply map_eq. intros k. rewrite validate_lookup, Hfill.
  destruct (fixer k) as [f|] eqn:Hf; [|reflexivity].
  unfold Config.get. subst c. rewrite validate_lookup, Hf.
  change (default Config.VNone (Some ?v)) with v.
  f_equal. apply (fixer_idempotent k), Hf.
Qed.

(** X24.  At start-up the application speaks Spanish when the
    configuration file asks for ["es"] and the translations hold a
    catalog for it, and English in every other case: whatever else the
    file holds as its language, ["nl"] included, is replaced by ["en"]
    before the translation manager sees it; the catalogs are left as
    they are and no exception is raised. *)
Theorem X24_startup_language
    (file_config : gmap string Config.value) (m : Translations.manager) :
  Config.startup_language file_config m
  = Some (Translations.Manager (Translations.translations m)
            (match file_config !! "language", Translations.translations m !! "es" with
             | Some (Config.VStr s), Some _ => if String.eqb s "es" then "es" else "en"
             | _, _ => "en"
             end)).
Proof.
  unfold Config.startup_language. cbv zeta.
  rewrite validate_lookup. change (fixer "language") with (Some fix_language).
  cbv beta iota. change (default (Config.VStr "en") (Some ?v)) with v.
  unfold Config.get. rewrite fill_defaults_lookup.
  assert (En : Translations.set_language "en" m
               = Translations.Manager (Translations.translations m) "en").
  { unfold Translations.set_language.
    destruct (Translations.translations m !! "en"); reflexivity. }
  assert (Es : Translations.set_language "es" m
               = Translations.Manager (Translations.translations m)
                   (match Translations.translations m !! "es" with
                    | Some _ => "es" | None => "en" end)).
  { unfold Translations.set_language.
    destruct (Translations.translations m !! "es"); reflexivity. }
  destruct (file_config !! "language") as [v|].
  - change (default Config.VNone (Some v)) with v.
    unfold fix_language, fix_choice.
    destruct v as [|b|n|x|s|l|d]; cbn [Config.in_strings]; try (rewrite En; reflexivity).
    cbn [existsb]. destruct (String.eqb_spec s "en") as [->|Hen].
    + cbn [orb]. rewrite En.
      destruct (Translations.translations m !! "es"); reflexivity.
    + cbn [orb]. destruct (String.eqb_spec s "es") as [->|Hes].
      * cbn [orb]. rewrite Es.
        destruct (Translations.translations m !! "es"); reflexivity.
      * cbn [orb]. rewrite En.
        destruct (Translations.translations m !! "es"); reflexivity.
  - change (default_item "language" Config._get_default_config)
      with (Some (Config.VStr "en")).
    change (default Config.VNone (Some ?v)) with v.
    change (fix_language (Config.VStr "en")) with (Config.VStr "en").
    cbv beta iota. rewrite En. reflexivity.
Qed.

(** X25.  [_] looks a text up in one catalog only: after
    [set_language] that of the language asked for when the translations
    have it, otherwise the English one, and the empty one when there is
    no English either.  A text without an entry in that catalog comes
    back as it is, also when the English catalog would have it. *)
Theorem X25_translation_is_one_lookup
    (m : Translations.manager) (language_code text : string) :
  let m' := Translations.set_language language_code m in
  let catalog :=
    match Translations.translations m !! language_code with
    | Some c => c
    | None => default ∅ (Translations.translations m !! "en")
    end in
  Translations.translate text m' = get_text catalog text /\
  (catalog !! text = None -> Translations.translate text m' = text) /\
  Translations.translations m' = Translations.translations m.
Proof.
  cbv zeta.
  assert (H : Translations.translate text (Translations.set_language language_code m)
              = get_text
                  match Translations.translations m !! language_code with
                  | Some c => c
                  | None => default ∅ (Translations.translations m !! "en")
                  end text).
  { unfold Translations.translate, Translations.get_text, Translations.set_language,
      Translations.language_or_current, get_text. cbv zeta.
    destruct (Translations.translations m !! language_code) as [c|] eqn:Hc;
      cbn [Translations.current_language Translations.translations].
    - rewrite Hc. reflexivity.
    - destruct (Translations.translations m !! "en"); reflexivity. }
  split; [exact H|]. split.
  - intros Hn. rewrite H. unfold get_text. rewrite Hn. reflexivity.
  - unfold Translations.set_language.
    destruct (Translations.translations m !! language_code); reflexivity.
Qed.

Lemma X25_witness_dutch_without_the_text :
  let m := Translations.Manager
             (<["en" := <["Paused" := "Paused (en)"]> ∅]> (<["nl" := ∅]> ∅)) "en" in
  Translations.translate "Paused" (Translations.set_language "nl" m) = "Paused".
Proof.
  exact (proj1 (proj2 (X25_translation_is_one_lookup
           (Translations.Manager
              (<["en" := <["Paused" := "Paused (en)"]> ∅]> (<["nl" := ∅]> ∅)) "en")
           "nl" "Paused")) eq_refl).
Defined.

(** ** The interpreter behind a launch *)

Lemma first_answering_in (h : PythonExecutable.host) (cmds : list string) (cmd : string) :
  PythonExecutable.first_answering h cmds = PythonExecutable.Ret (Some cmd) -> In cmd cmds.
Proof.
  induction cmds as [|c cmds IH]; cbn [PythonExecutable.first_answering]; [discriminate|].
  destruct (PythonExecutable.version_probe h c) as [rc| |e].
  - destruct (rc =? 0).
    + intros [= ->]. left. reflexivity.
    + intros H. right. apply IH, H.
  - intros H. right. apply IH, H.
  - discriminate.
Qed.

(** What [detect_python_executable] can return: the running interpreter
    from source; in a frozen application one of the two commands, a match
    of a searched pattern on Windows, or nothing. *)
Lemma detected_interpreter (h : PythonExecutable.host) (exe : string) :
  PythonExecutable.detect_python_executable h = PythonExecutable.Ret exe ->
  (PythonExecutable.frozen h = false /\ exe = PythonExecutable.sys_executable h) \/
  (PythonExecutable.frozen h = true /\ (exe = "python" \/ exe = "python3" \/ exe = "")) \/
  (PythonExecutable.frozen h = true /\ PythonExecutable.windows h = true /\
   PythonExecutable.first_match h PythonExecutable.searched_patterns = Some exe).
Proof.
  unfold PythonExecutable.detect_python_executable.
  destruct (PythonExecutable.frozen h); cbn [negb].
  - destruct (PythonExecutable.windows h).
    + destruct (PythonExecutable.first_answering h ["python"; "python3"])
        as [[cmd|]|e] eqn:Hf.
      * intros [= <-]. apply first_answering_in in Hf. cbn [In] in Hf.
        right. left. split; [reflexivity|]. destruct Hf as [<-|[<-|[]]]; auto.
      * destruct (PythonExecutable.first_match h PythonExecutable.searched_patterns)
          as [m|]; intros [= <-]; [right; right; auto|right; left; auto].
      * discriminate.
    + destruct (PythonExecutable.first_answering h ["python3"; "python"])
        as [[cmd|]|e] eqn:Hf.
      * intros [= <-]. apply first_answering_in in Hf. cbn [In] in Hf.
        right. left. split; [reflexivity|]. destruct Hf as [<-|[<-|[]]]; auto.
      * intros [= <-]. right. left. auto.
      * discriminate.
  - intros [= <-]. left. auto.
Qed.

(** X26.  When the overlay reports that the Python executable was not
    found, the path it names does not exist and is the detected
    interpreter, never a configured one that went missing (that one is
    passed over without a word): it is [sys.executable] when the
    application runs from source, and the first match of a searched
    installation pattern in a frozen application on Windows; off Windows
    a frozen application never gives this report. *)
Theorem X26_missing_interpreter_is_the_detected_one
    (user_python : option string) (h : PythonExecutable.host)
    (script_path : string) (args : list string)
    (popen : list string -> PythonExecutable.raised unit) (exe : string) :
  PythonExecutable.launch_of user_python h script_path args popen
    = OutputOverlay.PythonMissing exe ->
  PythonExecutable.path_exists h exe = false /\
  PythonExecutable.detect_python_executable h = PythonExecutable.Ret exe /\
  ((PythonExecutable.frozen h = false /\ exe = PythonExecutable.sys_executable h) \/
   (PythonExecutable.frozen h = true /\ PythonExecutable.windows h = true /\
    PythonExecutable.first_match h PythonExecutable.searched_patterns = Some exe)).
Proof.
  unfold PythonExecutable.launch_of. cbv zeta.
  destruct (PythonExecutable.path_exists h script_path); cbn [negb]; [|discriminate].
  destruct (PythonExecutable.endswith script_path ".py").
  2:{ destruct (popen _); discriminate. }
  destruct (PythonExecutable.get_python_executable user_python h) as [p|e] eqn:Hg;
    [|discriminate].
  destruct (String.eqb_spec p "") as [->|Hne]; [discriminate|].
  destruct (PythonExecutable.path_exists h p) eqn:Hp; cbn [negb andb].
  { destruct (popen _); discriminate. }
  destruct (existsb (String.eqb p) ["python"; "python3"]) eqn:Hc; cbn [negb].
  { destruct (popen _); discriminate. }
  intros [= <-].
  assert (Hd : PythonExecutable.detect_python_executable h = PythonExecutable.Ret p).
  { unfold PythonExecutable.get_python_executable in Hg. cbv zeta in Hg.
    destruct user_python as [u|]; [|exact Hg].
    destruct (negb (String.eqb u "") && PythonExecutable.path_exists h u) eqn:Hu;
      [|exact Hg].
    injection Hg as ->. apply andb_prop in Hu as [_ Hu]. congruence. }
  split; [exact Hp|]. split; [exact Hd|].
  destruct (detected_interpreter h p Hd) as [H|[[_ H]|H]]; [left; exact H| |right; exact H].
  exfalso. cbn [existsb] in Hc.
  destruct H as [Hx|[Hx|Hx]]; subst p;
    [discriminate Hc|discriminate Hc|apply Hne; reflexivity].
Qed.

Lemma X26_witness_an_uninstalled_python :
  let h := PythonExecutable.Host true true "QuickButtons.exe"
             (λ _, PythonExecutable.TimeoutOrNotFound)
             (λ p, if String.eqb p "C:\Python*\python.exe"
                   then ["C:\Python39\python.exe"] else [])
             (λ p, String.eqb p "job.py") in
  PythonExecutable.path_exists h "C:\Python39\python.exe" = false /\
  PythonExecutable.detect_python_executable h = PythonExecutable.Ret "C:\Python39\python.exe" /\
  ((PythonExecutable.frozen h = false /\
    "C:\Python39\python.exe" = PythonExecutable.sys_executable h) \/
   (PythonExecutable.frozen h = true /\ PythonExecutable.windows h = true /\
    PythonExecutable.first_match h PythonExecutable.searched_patterns
    = Some "C:\Python39\python.exe")).
Proof.
  exact (X26_missing_interpreter_is_the_detected_one (Some "D:\tools\python.exe")
           (PythonExecutable.Host true true "QuickButtons.exe"
              (λ _, PythonExecutable.TimeoutOrNotFound)
              (λ p, if String.eqb p "C:\Python*\python.exe"
                    then ["C:\Python39\python.exe"] else [])
              (λ p, String.eqb p "job.py"))
           "job.py" [] (λ _, PythonExecutable.Ret tt) "C:\Python39\python.exe" eq_refl).
Defined.

(** ** The website button *)

(** X27.  A website button with an address, whose opener is loaded or
    can be imported, never raises an error box: the address goes to the
    browser with [https://] in front unless it names [http://] or
    [https://] itself, and when the browser fails the failure is logged
    by [open_url] and swallowed there, after which the handler logs the
    website as opened all the same. *)
Theorem X27_website_failures_are_silent
    (tr : string -> string) (b : Website.browser) (cfg : gmap string string)
    (url : string) (w : Website.world) :
  cfg !! "url" = Some url -> url <> "" ->
  let asked := if String.prefix "http://" url || String.prefix "https://" url
               then url else "https://" +:+ url in
  let w' := Website.execute tr None b cfg w in
  Website.alerts w' = Website.alerts w /\
  Website.web_opener w' = true /\
  String.prefix "http://" asked || String.prefix "https://" asked = true /\
  match b with
  | Website.Opens =>
      Website.opened w' = Website.opened w ++ [asked] /\
      Website.log w' = Website.log w ++ [Website.InfoOpenedUrl asked;
                                         Website.InfoOpenedWebsite url]
  | Website.BrowserRaises e =>
      Website.opened w' = Website.opened w /\
      Website.log w' = Website.log w ++ [Website.ErrorFailedToOpenUrl asked e;
                                         Website.InfoOpenedWebsite url]
  end.
Proof.
  intros Hc Hu. cbv zeta. unfold Website.execute. rewrite Hc.
  destruct (String.eqb_spec url "") as [->|_]; [contradiction|].
  cbv zeta. unfold Website.open_url.
  destruct (String.eqb_spec url "") as [->|_]; [contradiction|].
  cbv zeta.
  assert (Hp : String.prefix "http://"
                 (if String.prefix "http://" url || String.prefix "https://" url
                  then url else "https://" +:+ url)
               || String.prefix "https://"
                    (if String.prefix "http://" url || String.prefix "https://" url
                     then url else "https://" +:+ url) = true).
  { destruct (String.prefix "http://" url || String.prefix "https://" url) eqn:E;
      [exact E|]. rewrite (prefix_app "https://" url). apply orb_true_r. }
  destruct w as [wo op lg al]. cbn [Website.web_opener Website.opened Website.log
    Website.alerts].
  destruct wo, b as [|e]; cbn; rewrite <- ?app_assoc; repeat split; try exact Hp;
    destruct wo; reflexivity.
Qed.

(** A website button without a scheme in its address. *)
Definition example_site : gmap string string := <["url" := "example.org"]> ∅.

Lemma X27_witness_a_browser_that_fails :
  let w := Website.World false [] [] [] in
  let w' := Website.execute id None (Website.BrowserRaises "no browser") example_site w in
  Website.alerts w' = [] /\
  Website.opened w' = [] /\
  Website.log w' = [Website.ErrorFailedToOpenUrl "https://example.org" "no browser";
                    Website.InfoOpenedWebsite "example.org"].
Proof.
  destruct (X27_website_failures_are_silent id (Website.BrowserRaises "no browser")
              example_site "example.org" (Website.World false [] [] [])
              eq_refl ltac:(discriminate)) as (H1 & _ & _ & H2 & H3).
  exact (conj H1 (conj H2 H3)).
Defined.

(** ** The speed test without its tools *)

(** X28.  When the [speedtest] module cannot be imported and the
    [speedtest] command is missing or times out, the speed test fails:
    the estimate from the connection times is asked of the handler
    object, which has no [_estimate_speed], so that the [AttributeError]
    is caught and the result is the empty one; the button then shows
    "Test Failed", whatever the known servers answer. *)
Theorem X28_speed_estimate_is_never_used
    (orig_label : string) (tr : string -> string) (float_str : float -> string)
    (o : NetworkSpeed.speed_outcome) :
  NetworkSpeed.module o = NetworkSpeed.ImportError ->
  NetworkSpeed.cli o = NetworkSpeed.CliTimeoutOrNotFound ->
  let w := NetworkSpeed.run orig_label tr float_str (NetworkSpeed.init orig_label)
             [Probe.Click; Probe.Worker 0 o; Probe.Worker 0 o; Probe.Worker 0 o;
              Probe.Fire 0] in
  NetworkSpeed.run_speed_test_body o = NetworkSpeed.failed /\
  Probe.results (Probe.st w) = Some NetworkSpeed.failed /\
  Probe.running (Probe.st w) = false /\
  Probe.text w = tr "Test Failed".
Proof.
  intros Hm Hc. cbv zeta.
  assert (Hb : NetworkSpeed.run_speed_test_body o = NetworkSpeed.failed).
  { unfold NetworkSpeed.run_speed_test_body. rewrite Hm, Hc. reflexivity. }
  split; [exact Hb|].
  unfold NetworkSpeed.run, NetworkSpeed.init, Probe.run. cbn [fold_left].
  cbn. rewrite Hb. cbn. repeat split.
Qed.

Lemma X28_witness_reachable_servers :
  let o := NetworkSpeed.SpeedOutcome NetworkSpeed.ImportError NetworkSpeed.CliTimeoutOrNotFound
             [12%float; 15%float] in
  let w := NetworkSpeed.run "Speed Test" id (λ _, "") (NetworkSpeed.init "Speed Test")
             [Probe.Click; Probe.Worker 0 o; Probe.Worker 0 o; Probe.Worker 0 o;
              Probe.Fire 0] in
  NetworkSpeed.run_speed_test_body o = NetworkSpeed.failed /\
  Probe.results (Probe.st w) = Some NetworkSpeed.failed /\
  Probe.running (Probe.st w) = false /\
  Probe.text w = "Test Failed".
Proof.
  exact (X28_speed_estimate_is_never_used "Speed Test" id (λ _, "")
           (NetworkSpeed.SpeedOutcome NetworkSpeed.ImportError
              NetworkSpeed.CliTimeoutOrNotFound [12%float; 15%float])
           eq_refl eq_refl).
Defined.
